(** * Monaco editor wrapper and web component: lifecycle model

    A shallow embedding of
      - packages/monaco-editor-wrapper/src/wrapper.ts
        (class MonacoEditorLanguageClientWrapper), and
      - packages/monaco-editor-comp/src/main.ts (class CodeEditor),
    followed by the properties of the orchestration contract.

    JavaScript objects are records, [undefined]-able fields are [option]s,
    object identity is a natural number drawn from an allocation counter,
    and every observable call into a collaborator (Worker, WebSocket,
    language client, console, user callbacks) is appended to an event
    trace.  Asynchronous functions are run to their settlement: an
    [await] is a sequence point, and a promise that never settles makes
    the awaiting body hang.  No other call of the wrapper is interleaved
    between an [await] and its continuation.  What third-party code does
    (whether the language client starts, stops or is disposed
    successfully, whether a socket opens) is a parameter; user callbacks
    and the editor services are taken to return normally. *)

From Stdlib Require Import String List Bool Arith Lia.
From stdpp Require Import base option strings list gmap.

Open Scope string_scope.
Open Scope list_scope.

(** ** JavaScript control flow: completions, promises, a small monad *)

Module Js.

(** Values that are thrown or used as rejection reasons. *)
Inductive Reason :=
| RString (s : string)        (* Promise.reject('...') with a string *)
| RError (msg : string)       (* new Error(msg) *)
| RTypeError (msg : string).  (* raised by the runtime *)

(** Template-literal conversion [`${e}`]. *)
Definition toString (r : Reason) : string :=
  match r with
  | RString s => s
  | RError m => "Error: " +:+ m
  | RTypeError m => "TypeError: " +:+ m
  end.

(** How the evaluation of a function body ends. [Hang] is a body
    suspended on a promise that never settles. *)
Inductive Completion (A : Type) :=
| Normal (a : A)
| Throw (r : Reason)
| Hang.
Arguments Normal {A} a.
Arguments Throw {A} r.
Arguments Hang {A}.

Inductive Promise (A : Type) :=
| Resolved (a : A)
| Rejected (r : Reason)
| Pending.
Arguments Resolved {A} a.
Arguments Rejected {A} r.
Arguments Pending {A}.

(** [resolve(v)] and [reject(r)] of a promise: only the first
    settlement counts. *)
Definition settle_resolve {A} (v : A) (p : Promise A) : Promise A :=
  match p with Pending => Resolved v | _ => p end.

Definition settle_reject {A} (r : Reason) (p : Promise A) : Promise A :=
  match p with Pending => Rejected r | _ => p end.

(** Truthiness of an optional string ([undefined] and [''] are falsy)
    and of an optional boolean. *)
Definition truthy (s : option string) : bool :=
  match s with
  | None => false
  | Some s => negb (String.eqb s "")
  end.

Definition truthyb (b : option bool) : bool :=
  match b with Some true => true | _ => false end.

(** State, trace and completion. *)
Definition M (S E A : Type) : Type := S -> Completion A * S * list E.

Section Monad.
Context {S E : Type}.

Definition ret {A} (a : A) : M S E A := fun s => (Normal a, s, []).

Definition bind {A B} (m : M S E A) (k : A -> M S E B) : M S E B :=
  fun s =>
    match m s with
    | (Normal a, s1, ev1) =>
        let '(c, s2, ev2) := k a s1 in (c, s2, ev1 ++ ev2)
    | (Throw r, s1, ev1) => (Throw r, s1, ev1)
    | (Hang, s1, ev1) => (Hang, s1, ev1)
    end.

Definition gets {A} (f : S -> A) : M S E A := fun s => (Normal (f s), s, []).
Definition modify (f : S -> S) : M S E unit := fun s => (Normal tt, f s, []).
Definition emit (e : E) : M S E unit := fun s => (Normal tt, s, [e]).
Definition throw {A} (r : Reason) : M S E A := fun s => (Throw r, s, []).

(** [await p] *)
Definition await {A} (p : Promise A) : M S E A :=
  fun s =>
    match p with
    | Resolved a => (Normal a, s, [])
    | Rejected r => (Throw r, s, [])
    | Pending => (Hang, s, [])
    end.

(** An [async] function: whatever its body does, the call itself
    completes normally with a promise. *)
Definition async {A} (body : M S E A) : M S E (Promise A) :=
  fun s =>
    match body s with
    | (Normal a, s1, ev) => (Normal (Resolved a), s1, ev)
    | (Throw r, s1, ev) => (Normal (Rejected r), s1, ev)
    | (Hang, s1, ev) => (Normal Pending, s1, ev)
    end.

(** [try { body } catch (e) { handler e }] *)
Definition try_catch {A} (body : M S E A) (handler : Reason -> M S E A)
  : M S E A :=
  fun s =>
    match body s with
    | (Throw r, s1, ev1) =>
        let '(c, s2, ev2) := handler r s1 in (c, s2, ev1 ++ ev2)
    | other => other
    end.
End Monad.

Definition result {S E A} (x : Completion A * S * list E) : Completion A := x.1.1.
Definition state {S E A} (x : Completion A * S * list E) : S := x.1.2.
Definition trace {S E A} (x : Completion A * S * list E) : list E := x.2.

End Js.

Notation "x <- m ;; k" := (Js.bind m (fun x => k))
  (at level 100, m at next level, right associativity).
Notation "m ;; k" := (Js.bind m (fun _ => k))
  (at level 100, right associativity).

(** ** wrapper.ts: data model *)

Module Wrapper.
Import Js.

(** Object identity of a [Worker] handle. *)
Inductive Worker := WorkerObj (n : nat).

#[global] Instance Worker_eq_dec : EqDecision Worker.
Proof. solve_decision. Defined.

Module CallOptions.
Record t := {
  onCall : nat;                 (* identity of the user callback *)
  reportStatus : option bool
}.
End CallOptions.
Definition WebSocketCallOptions := CallOptions.t.

Inductive WorkerType := classic | module.

(** [LanguageClientConfig.options], a union tagged by [configType]. *)
Inductive ConfigOptions :=
| WebSocket (secured : bool) (host : string) (port : option nat)
    (path : option string) (startOptions stopOptions : option WebSocketCallOptions)
| WebSocketUrl (url : string)
    (startOptions stopOptions : option WebSocketCallOptions)
| WorkerConfig (url : string) (type : WorkerType) (name : option string)
| WorkerDirect (w : Worker).

Record LanguageClientConfig := {
  options : ConfigOptions;
  initializationOptions : option string
}.

(** [(configType === 'WebSocket' || configType === 'WebSocketUrl')
     && lcConfig.startOptions] and the same for [stopOptions]. *)
Definition isSocketConfig (c : ConfigOptions) : bool :=
  match c with
  | WebSocket _ _ _ _ _ _ | WebSocketUrl _ _ _ => true
  | _ => false
  end.

Definition socketStartOptions (c : option ConfigOptions) : option WebSocketCallOptions :=
  match c with
  | Some (WebSocket _ _ _ _ so _) | Some (WebSocketUrl _ so _) => so
  | _ => None
  end.

Definition socketStopOptions (c : option ConfigOptions) : option WebSocketCallOptions :=
  match c with
  | Some (WebSocket _ _ _ _ _ so) | Some (WebSocketUrl _ _ so) => so
  | _ => None
  end.

Record InitializeServiceConfig := {
  enableModelService : option bool;
  configureEditorOrViewsServiceConfig : option unit;
  configureConfigurationServiceConfig : option string  (* defaultWorkspaceUri *)
}.

Inductive EditorAppType := Classic | VscodeApi.

(** The fields of [EditorAppConfigClassic | EditorAppConfigVscodeApi]
    that wrapper.ts reads; [editorAppType] is what
    [isVscodeApiEditorApp] inspects. *)
Record EditorAppConfig := {
  editorAppType : EditorAppType;
  languageId : string;
  useDiffEditor : bool;
  codeOriginal : option string
}.

Record WrapperConfig := {
  wc_serviceConfig : option InitializeServiceConfig;
  editorAppConfig : EditorAppConfig
}.

Record UserConfig := {
  uc_id : option string;
  uc_htmlElement : nat;
  wrapperConfig : WrapperConfig;
  uc_languageClientConfig : option LanguageClientConfig
}.

(** Message channel ends. A reader is an object of its own (two
    readers over one worker are different objects). *)
Inductive Channel :=
| SocketChannel (ws : nat)
| WorkerChannel (w : Worker).

Record MessageTransports := {
  reader : nat * Channel;   (* reader object, channel it reads *)
  writer : Channel
}.

Record LanguageClient := {
  lc_id : nat;
  lc_running : bool;
  lc_transports : MessageTransports;
  lc_documentSelector : list string;
  lc_initializationOptions : option string
}.

(** Editor app (classes EditorAppClassic / EditorAppVscodeApi). *)
Record EditorApp := {
  app_type : EditorAppType;
  app_id : string;
  app_config : EditorAppConfig;
  app_editor : option nat;
  app_diffEditor : option nat
}.

(** The private fields of MonacoEditorLanguageClientWrapper. *)
Record Wrapper := {
  languageClient : option LanguageClient;
  worker : option Worker;
  editorApp : option EditorApp;
  id : option string;
  htmlElement : option nat;
  serviceConfig : option InitializeServiceConfig;
  languageClientConfig : option LanguageClientConfig
}.

(** The wrapper object together with the ambient state it touches. *)
Record World := {
  this : Wrapper;
  vscodeApiInitialized : bool;   (* wasVscodeApiInitialized() *)
  closeHandlers : list (nat * option ConfigOptions);
    (* reader.onClose registrations: reader object, captured lcConfig *)
  nextObject : nat               (* allocation counter *)
}.

Inductive Event :=
| EvLog (s : string)                       (* console.log *)
| EvNewWebSocket (ws : nat) (url : string) (* new WebSocket(url) *)
| EvSocketOpen (ws : nat)                  (* webSocket.onopen fired *)
| EvNewWorker (w : Worker) (url : string) (t : WorkerType) (name : option string)
| EvTerminate (w : Worker)                 (* worker.terminate() *)
| EvNewReader (r : nat) (c : Channel)      (* new ...MessageReader(c) *)
| EvNewWriter (c : Channel)                (* new ...MessageWriter(c) *)
| EvNewLanguageClient (lc : nat)
| EvOnClose (r : nat)                      (* reader.onClose(handler) *)
| EvLcStart (lc : nat)
| EvLcStop (lc : nat)
| EvLcDispose (lc : nat)
| EvOnCall (cb : nat)                      (* startOptions/stopOptions.onCall() *)
| EvDisposeEditor
| EvDisposeDiffEditor
| EvNewEditorApp (t : EditorAppType) (id : string)
| EvInitServices
| EvEditorAppInit
| EvCreateEditors (container : option nat).

(** How an asynchronous call into the language client library ends. *)
Inductive Outcome := Succeeds | Fails (e : Reason) | Never.

(** Collaborators that are not part of wrapper.ts. *)
Record Env := {
  createUrl : ConfigOptions -> string;   (* ./utils.js *)
  lc_start : nat -> Outcome;             (* languageClient.start() *)
  lc_stop : nat -> Outcome;              (* languageClient.stop() *)
  lc_dispose : nat -> Outcome;           (* languageClient.dispose() *)
  socket_opens : nat -> bool;            (* does onopen ever fire *)
  random_id : string   (* Math.floor(Math.random() * 101).toString() *)
}.

Definition M := Js.M World Event.

(** *** Field updates *)

Definition set_languageClient (v : option LanguageClient) (t : Wrapper) : Wrapper :=
  {| languageClient := v; worker := worker t; editorApp := editorApp t;
     id := id t; htmlElement := htmlElement t;
     serviceConfig := serviceConfig t;
     languageClientConfig := languageClientConfig t |}.

Definition set_worker (v : option Worker) (t : Wrapper) : Wrapper :=
  {| languageClient := languageClient t; worker := v; editorApp := editorApp t;
     id := id t; htmlElement := htmlElement t;
     serviceConfig := serviceConfig t;
     languageClientConfig := languageClientConfig t |}.

Definition set_editorApp (v : option EditorApp) (t : Wrapper) : Wrapper :=
  {| languageClient := languageClient t; worker := worker t; editorApp := v;
     id := id t; htmlElement := htmlElement t;
     serviceConfig := serviceConfig t;
     languageClientConfig := languageClientConfig t |}.

Definition set_id (v : option string) (t : Wrapper) : Wrapper :=
  {| languageClient := languageClient t; worker := worker t;
     editorApp := editorApp t; id := v; htmlElement := htmlElement t;
     serviceConfig := serviceConfig t;
     languageClientConfig := languageClientConfig t |}.

Definition set_htmlElement (v : option nat) (t : Wrapper) : Wrapper :=
  {| languageClient := languageClient t; worker := worker t;
     editorApp := editorApp t; id := id t; htmlElement := v;
     serviceConfig := serviceConfig t;
     languageClientConfig := languageClientConfig t |}.

Definition set_serviceConfig (v : option InitializeServiceConfig) (t : Wrapper) : Wrapper :=
  {| languageClient := languageClient t; worker := worker t;
     editorApp := editorApp t; id := id t; htmlElement := htmlElement t;
     serviceConfig := v;
     languageClientConfig := languageClientConfig t |}.

Definition set_languageClientConfig (v : option LanguageClientConfig) (t : Wrapper) : Wrapper :=
  {| languageClient := languageClient t; worker := worker t;
     editorApp := editorApp t; id := id t; htmlElement := htmlElement t;
     serviceConfig := serviceConfig t;
     languageClientConfig := v |}.

Definition on_this (f : Wrapper -> Wrapper) (w : World) : World :=
  {| this := f (this w); vscodeApiInitialized := vscodeApiInitialized w;
     closeHandlers := closeHandlers w; nextObject := nextObject w |}.

Definition set_running (b : bool) (lc : LanguageClient) : LanguageClient :=
  {| lc_id := lc_id lc; lc_running := b; lc_transports := lc_transports lc;
     lc_documentSelector := lc_documentSelector lc;
     lc_initializationOptions := lc_initializationOptions lc |}.

Definition update (f : Wrapper -> Wrapper) : M unit := modify (on_this f).
Definition read {A} (f : Wrapper -> A) : M A := gets (fun w => f (this w)).

(** A fresh object identity. *)
Definition fresh : M nat :=
  fun w => (Normal (nextObject w),
            {| this := this w; vscodeApiInitialized := vscodeApiInitialized w;
               closeHandlers := closeHandlers w; nextObject := S (nextObject w) |},
            []).

Definition awaiting {A} (m : M (Promise A)) : M A := Js.bind m Js.await.

(** ** wrapper.ts: collaborators *)

(** [this.languageClient && this.languageClient.isRunning()] *)
Definition isRunning (t : Wrapper) : bool :=
  match languageClient t with
  | Some lc => lc_running lc
  | None => false
  end.

(** An awaited call [this.languageClient.op()]: the call is traced; on
    success the client's run state becomes [after], on failure the
    rejection is rethrown by the [await], and a call that never
    settles suspends the caller. *)
Definition callLanguageClient (ev : nat -> Event) (out : nat -> Outcome)
    (after : bool) (lc : LanguageClient) : M unit :=
  emit (ev (lc_id lc)) ;;
  match out (lc_id lc) with
  | Succeeds => update (set_languageClient (Some (set_running after lc)))
  | Fails e => throw e
  | Never => await Pending
  end.

(** Modelled from the spec: the editor app classes (editorClassic.js,
    editorVscodeApi.js) are not among the sources; section 4.1 gives
    their contract: [disposeEditor] releases the editor. *)
Definition app_disposeEditor (a : EditorApp) : EditorApp :=
  {| app_type := app_type a; app_id := app_id a; app_config := app_config a;
     app_editor := None; app_diffEditor := app_diffEditor a |}.

(** Modelled from the spec: [disposeDiffEditor] of the absent editor
    app classes releases the diff editor (section 4.1). *)
Definition app_disposeDiffEditor (a : EditorApp) : EditorApp :=
  {| app_type := app_type a; app_id := app_id a; app_config := app_config a;
     app_editor := app_editor a; app_diffEditor := None |}.

(** Modelled from the spec: [createEditors(container)] of the absent
    editor app classes "creates editor or diff-editor pair inside a DOM
    container" (section 4.1); [n] is the identity of the new instance. *)
Definition app_createEditors (n : nat) (a : EditorApp) : EditorApp :=
  if useDiffEditor (app_config a)
  then {| app_type := app_type a; app_id := app_id a; app_config := app_config a;
          app_editor := app_editor a; app_diffEditor := Some n |}
  else {| app_type := app_type a; app_id := app_id a; app_config := app_config a;
          app_editor := Some n; app_diffEditor := app_diffEditor a |}.

(** Modelled from the spec: [haveEditor()] of the absent editor app
    classes, true when an editor or a diff editor is live. *)
Definition haveEditor (a : EditorApp) : bool :=
  match app_editor a, app_diffEditor a with
  | None, None => false
  | _, _ => true
  end.

(** [this.editorApp?.disposeEditor()] and its diff twin. *)
Definition disposeEditor : M unit :=
  a <- read editorApp ;;
  match a with
  | Some a => emit EvDisposeEditor ;; update (set_editorApp (Some (app_disposeEditor a)))
  | None => ret tt
  end.

Definition disposeDiffEditor : M unit :=
  a <- read editorApp ;;
  match a with
  | Some a => emit EvDisposeDiffEditor ;;
              update (set_editorApp (Some (app_disposeDiffEditor a)))
  | None => ret tt
  end.

(** [wasVscodeApiInitialized() ? Promise.resolve(..) : initServices(..)] *)
Definition initServicesOnce : M unit :=
  done <- gets vscodeApiInitialized ;;
  if (done : bool) then ret tt
  else emit EvInitServices ;;
       modify (fun w => {| this := this w; vscodeApiInitialized := true;
                           closeHandlers := closeHandlers w;
                           nextObject := nextObject w |}).

Definition newline : string := String (Ascii.ascii_of_nat 10) "".

Definition render {A} (kind : string) (o : option A) : string :=
  match o with
  | Some _ => "[object " +:+ kind +:+ "]"
  | None => "undefined"
  end.

(** ** wrapper.ts: the methods *)

Definition emptyServiceConfig : InitializeServiceConfig :=
  {| enableModelService := None;
     configureEditorOrViewsServiceConfig := None;
     configureConfigurationServiceConfig := None |}.

(** "always set required services if not configure" *)
Definition requiredServices (c : InitializeServiceConfig) : InitializeServiceConfig :=
  {| enableModelService := Some (default true (enableModelService c));
     configureEditorOrViewsServiceConfig :=
       Some (default tt (configureEditorOrViewsServiceConfig c));
     configureConfigurationServiceConfig :=
       Some (default "/tmp/" (configureConfigurationServiceConfig c)) |}.

(** [private init(userConfig)]: an ordinary (synchronous) method. *)
Definition init (env : Env) (userConfig : UserConfig) : M unit :=
  let appConfig := editorAppConfig (wrapperConfig userConfig) in
  if useDiffEditor appConfig && negb (truthy (codeOriginal appConfig))
  then throw (RError "Use diff editor was used without a valid config.")
  else
    update (set_id (Some (default (random_id env) (uc_id userConfig)))) ;;
    update (set_htmlElement (Some (uc_htmlElement userConfig))) ;;
    match uc_languageClientConfig userConfig with
    | Some c => update (set_languageClientConfig (Some c))
    | None => ret tt
    end ;;
    update (set_serviceConfig
              (Some (requiredServices
                       (default emptyServiceConfig
                                (wc_serviceConfig (wrapperConfig userConfig)))))).

Definition reportStatus (t : Wrapper) : list string :=
  [ "Wrapper status:";
    "Editor: " +:+ render "Object" (editorApp t ≫= app_editor);
    "DiffEditor: " +:+ render "Object" (editorApp t ≫= app_diffEditor);
    "LanguageClient: " +:+ render "Object" (languageClient t);
    "Worker: " +:+ render "Worker" (worker t) ].

(** [console.log(this.reportStatus().join('\n'))] *)
Definition logStatus : M unit :=
  t <- gets this ;;
  emit (EvLog (String.concat newline (reportStatus t))).

(** The body shared by the start and stop hooks:
    [opts.onCall(); if (opts.reportStatus) console.log(...)]. *)
Definition callHook (opts : option WebSocketCallOptions) : M unit :=
  match opts with
  | Some o =>
      emit (EvOnCall (CallOptions.onCall o)) ;;
      if truthyb (CallOptions.reportStatus o) then logStatus else ret tt
  | None => ret tt
  end.

(** [private createLanguageClient(transports)]; the non-null assertion
    [this.editorApp!] raises a TypeError without an editor app. *)
Definition createLanguageClient (transports : MessageTransports) : M LanguageClient :=
  a <- read editorApp ;;
  match a with
  | None => throw (RTypeError "Cannot read properties of undefined")
  | Some a =>
      cfg <- read languageClientConfig ;;
      n <- fresh ;;
      emit (EvNewLanguageClient n) ;;
      ret {| lc_id := n; lc_running := false; lc_transports := transports;
             lc_documentSelector := [languageId (app_config a)];
             lc_initializationOptions := cfg ≫= initializationOptions |}
  end.

(** The handler given to [messageTransports.reader.onClose]; [lcConfig]
    is captured when the handler is created, [this.languageClient] is
    read when it runs. *)
Definition onCloseHandler (env : Env) (lcConfig : option ConfigOptions)
  : M (Promise unit) :=
  async (
    lc <- read languageClient ;;
    match lc with
    | Some lc => callLanguageClient EvLcStop (lc_stop env) false lc
    | None => ret tt
    end ;;
    callHook (socketStopOptions lcConfig)).

(** [private async handleLanguageClientStart(transports, resolve, reject)].
    Its callers drop the promise it returns; what they observe is the
    promise behind [resolve]/[reject], whose state after the body has
    run is the value computed here. *)
Definition handleLanguageClientStart (env : Env) (transports : MessageTransports)
  : M (Promise string) :=
  own <- async (
    lc <- createLanguageClient transports ;;
    update (set_languageClient (Some lc)) ;;
    cfg <- read languageClientConfig ;;
    let lcConfig := options <$> cfg in
    emit (EvOnClose (fst (reader transports))) ;;
    modify (fun w => {| this := this w;
                        vscodeApiInitialized := vscodeApiInitialized w;
                        closeHandlers :=
                          closeHandlers w ++ [(fst (reader transports), lcConfig)];
                        nextObject := nextObject w |}) ;;
    p <- try_catch
           (callLanguageClient EvLcStart (lc_start env) true lc ;;
            callHook (socketStartOptions lcConfig) ;;
            ret Pending)
           (fun e =>
              let errorMsg := "monaco-languageclient start was unsuccessful: "
                              +:+ toString e in
              ret (settle_reject (RString errorMsg) Pending)) ;;
    let msg := "monaco-languageclient was successfully started." in
    ret (settle_resolve msg p)) ;;
  ret (match own with Resolved p => p | _ => Pending end).

(** [private startLanguageClientConnection(): Promise<string>] *)
Definition startLanguageClientConnection (env : Env) : M (Promise string) :=
  t <- gets this ;;
  if isRunning t
  then ret (Resolved "monaco-languageclient already running!")
  else
    (* new Promise((resolve, reject) => { ... }) *)
    let lcConfig := options <$> languageClientConfig t in
    match lcConfig with
    | Some (WebSocket _ _ _ _ _ _ as c) | Some (WebSocketUrl _ _ _ as c) =>
        let url := createUrl env c in
        ws <- fresh ;;
        emit (EvNewWebSocket ws url) ;;
        if socket_opens env ws then
          (* webSocket.onopen *)
          emit (EvSocketOpen ws) ;;
          r <- fresh ;;
          emit (EvNewReader r (SocketChannel ws)) ;;
          emit (EvNewWriter (SocketChannel ws)) ;;
          handleLanguageClientStart env
            {| reader := (r, SocketChannel ws); writer := SocketChannel ws |}
        else ret Pending
    | _ =>
        prepared <-
          match worker t with
          | Some w => ret (Some w)
          | None =>
              match lcConfig with
              | Some (WorkerConfig url type name) =>
                  n <- fresh ;;
                  emit (EvNewWorker (WorkerObj n) url type name) ;;
                  update (set_worker (Some (WorkerObj n))) ;;
                  ret (Some (WorkerObj n))
              | Some (WorkerDirect w) =>
                  update (set_worker (Some w)) ;;
                  ret (Some w)
              | _ => ret None   (* workerDirectConfig is undefined *)
              end
          end ;;
        match prepared with
        | None =>
            (* the executor throws, the promise is rejected *)
            ret (Rejected (RTypeError "Cannot read properties of undefined"))
        | Some w =>
            r <- fresh ;;
            emit (EvNewReader r (WorkerChannel w)) ;;
            emit (EvNewWriter (WorkerChannel w)) ;;
            handleLanguageClientStart env
              {| reader := (r, WorkerChannel w); writer := WorkerChannel w |}
        end
    end.

(** [public async disposeLanguageClient(keepWorker?: boolean)] *)
Definition disposeLanguageClient (env : Env) (keepWorker : option bool)
  : M (Promise unit) :=
  async (
    t <- gets this ;;
    match languageClient t with
    | Some lc =>
        if lc_running lc then
          try_catch
            (callLanguageClient EvLcDispose (lc_dispose env) false lc ;;
             match keepWorker with
             | None | Some false =>
                 w <- read worker ;;
                 match w with
                 | Some w => emit (EvTerminate w)
                 | None => ret tt
                 end ;;
                 update (set_worker None)
             | Some true => ret tt
             end ;;
             update (set_languageClient None))
            (fun e =>
               throw (RString ("Disposing the monaco-languageclient resulted in error: "
                               +:+ toString e)))
        else throw (RString "Unable to dispose monaco-languageclient: It is not yet started.")
    | None =>
        throw (RString "Unable to dispose monaco-languageclient: It is not yet started.")
    end).

(** [async restartLanguageClient(updatedWorker?: Worker, keepWorker?: boolean)] *)
Definition restartLanguageClient (env : Env) (updatedWorker : option Worker)
    (keepWorker : option bool) : M (Promise unit) :=
  async (
    match updatedWorker with
    | Some _ => awaiting (disposeLanguageClient env (Some false))
    | None => awaiting (disposeLanguageClient env keepWorker)
    end ;;
    update (set_worker updatedWorker) ;;
    cfg <- read languageClientConfig ;;
    match cfg with
    | Some _ =>
        emit (EvLog "Re-Starting monaco-languageclient") ;;
        awaiting (startLanguageClientConnection env) ;;
        ret tt
    | None =>
        throw (RString "Unable to restart languageclient. No configuration was provided.")
    end).

(** [async start(userConfig: UserConfig)] *)
Definition start (env : Env) (userConfig : UserConfig) : M (Promise unit) :=
  async (
    init env userConfig ;;
    (* Always dispose old instances before start *)
    disposeEditor ;;
    disposeDiffEditor ;;
    i <- read id ;;
    let appConfig := editorAppConfig (wrapperConfig userConfig) in
    let app := {| app_type := editorAppType appConfig;
                  app_id := default "" i;
                  app_config := appConfig;
                  app_editor := None; app_diffEditor := None |} in
    emit (EvNewEditorApp (editorAppType appConfig) (default "" i)) ;;
    update (set_editorApp (Some app)) ;;
    initServicesOnce ;;
    emit EvEditorAppInit ;;
    container <- read htmlElement ;;
    n <- fresh ;;
    emit (EvCreateEditors container) ;;
    update (set_editorApp (Some (app_createEditors n app))) ;;
    cfg <- read languageClientConfig ;;
    match cfg with
    | Some _ =>
        emit (EvLog "Starting monaco-languageclient") ;;
        awaiting (startLanguageClientConnection env) ;;
        ret tt
    | None => ret tt
    end).

(** [async dispose()] *)
Definition dispose (env : Env) : M (Promise unit) :=
  async (
    disposeEditor ;;
    disposeDiffEditor ;;
    cfg <- read languageClientConfig ;;
    match cfg with
    | Some _ =>
        awaiting (disposeLanguageClient env (Some false)) ;;
        update (set_editorApp None)
    | None => ret tt
    end).

Definition isStarted (t : Wrapper) : bool :=
  match editorApp t with
  | None => false
  | Some a =>
      if haveEditor a then
        match languageClientConfig t with
        | Some _ => isRunning t
        | None => true
        end
      else false
  end.

Definition getWorker (t : Wrapper) : option Worker := worker t.
Definition getLanguageClient (t : Wrapper) : option LanguageClient := languageClient t.

(** The reader object [r] reports that its channel was closed: every
    handler registered on it runs (each is an async function of its
    own, so a rejection in one does not stop the next). *)
Fixpoint runCloseHandlers (env : Env) (r : nat)
    (hs : list (nat * option ConfigOptions)) : M unit :=
  match hs with
  | [] => ret tt
  | (r', lcConfig) :: hs' =>
      (if Nat.eqb r r' then onCloseHandler env lcConfig ;; ret tt else ret tt) ;;
      runCloseHandlers env r hs'
  end.

Definition readerClosed (env : Env) (r : nat) : M unit :=
  hs <- gets closeHandlers ;;
  runCloseHandlers env r hs.

(** *** Reading a trace *)

Definition isTerminate (w : Worker) (e : Event) : bool :=
  match e with
  | EvTerminate w' => bool_decide (w' = w)
  | _ => false
  end.

(** How often [w.terminate()] was called. *)
Definition terminations (w : Worker) (evs : list Event) : nat :=
  length (List.filter (isTerminate w) evs).

(** The channels that readers and writers were constructed over. *)
Definition channelOf (e : Event) : option Channel :=
  match e with
  | EvNewReader _ c | EvNewWriter c => Some c
  | _ => None
  end.

Definition channelsUsed (evs : list Event) : list Channel :=
  omap channelOf evs.

Definition isNewWorker (e : Event) : bool :=
  match e with EvNewWorker _ _ _ _ => true | _ => false end.

(** Events that construct a transport or a language client. *)
Definition transportEvent (e : Event) : bool :=
  match e with
  | EvNewWebSocket _ _ | EvNewWorker _ _ _ _ | EvNewReader _ _ | EvNewWriter _
  | EvNewLanguageClient _ => true
  | _ => false
  end.

(** *** Views used in the statements below *)

(** [this.languageClientConfig?.options] *)
Definition lcOptions (w : World) : option ConfigOptions :=
  options <$> languageClientConfig (this w).

Definition socketBased (w : World) : bool :=
  match lcOptions w with
  | Some c => isSocketConfig c
  | None => false
  end.

(** The trace of one start or stop hook, run in wrapper state [t]. *)
Definition hookTrace (opts : option WebSocketCallOptions) (t : Wrapper) : list Event :=
  match opts with
  | Some o =>
      EvOnCall (CallOptions.onCall o)
      :: (if truthyb (CallOptions.reportStatus o)
          then [EvLog (String.concat newline (reportStatus t))]
          else [])
  | None => []
  end.

(** The client [createLanguageClient] builds in world [w]. *)
Definition newClient (mt : MessageTransports) (w : World) (a : EditorApp)
  : LanguageClient :=
  {| lc_id := nextObject w; lc_running := false; lc_transports := mt;
     lc_documentSelector := [languageId (app_config a)];
     lc_initializationOptions :=
       languageClientConfig (this w) ≫= initializationOptions |}.

(** The world once [lc] is stored and its close handler registered. *)
Definition attached (mt : MessageTransports) (lc : LanguageClient) (w : World) : World :=
  {| this := set_languageClient (Some lc) (this w);
     vscodeApiInitialized := vscodeApiInitialized w;
     closeHandlers := closeHandlers w ++ [(fst (reader mt), lcOptions w)];
     nextObject := S (nextObject w) |}.

Definition bump (w : World) : World :=
  {| this := this w; vscodeApiInitialized := vscodeApiInitialized w;
     closeHandlers := closeHandlers w; nextObject := S (nextObject w) |}.

Definition socketTransports (ws : nat) : MessageTransports :=
  {| reader := (S ws, SocketChannel ws); writer := SocketChannel ws |}.

Definition workerTransports (r : nat) (wk : Worker) : MessageTransports :=
  {| reader := (r, WorkerChannel wk); writer := WorkerChannel wk |}.

(** The worker a connection runs over, with the world and the trace
    of obtaining it ([None]: the executor throws). *)
Definition obtainWorker (w : World) : option (Worker * World * list Event) :=
  match worker (this w) with
  | Some wk => Some (wk, w, [])
  | None =>
      match lcOptions w with
      | Some (WorkerConfig url type name) =>
          let wk := WorkerObj (nextObject w) in
          Some (wk, on_this (set_worker (Some wk)) (bump w),
                [EvNewWorker wk url type name])
      | Some (WorkerDirect wk) => Some (wk, on_this (set_worker (Some wk)) w, [])
      | _ => None
      end
  end.

Definition alreadyRunningMsg : string := "monaco-languageclient already running!".
Definition startedMsg : string := "monaco-languageclient was successfully started.".
Definition failedMsg (e : Reason) : string :=
  "monaco-languageclient start was unsuccessful: " +:+ toString e.
Definition disposeFailedMsg (e : Reason) : string :=
  "Disposing the monaco-languageclient resulted in error: " +:+ toString e.
Definition notStartedMsg : string :=
  "Unable to dispose monaco-languageclient: It is not yet started.".
Definition misconfiguredMsg : string :=
  "Use diff editor was used without a valid config.".

(** The wrapper after a successful [disposeLanguageClient(keepWorker)]. *)
Definition disposed (keepWorker : option bool) (t : Wrapper) : Wrapper :=
  set_languageClient None (if truthyb keepWorker then t else set_worker None t).

Definition disposeTrace (keepWorker : option bool) (lc : LanguageClient) (t : Wrapper)
  : list Event :=
  EvLcDispose (lc_id lc)
  :: (if truthyb keepWorker then []
      else match worker t with Some wk => [EvTerminate wk] | None => [] end).

(** The world once the stored client [lc] has stopped. *)
Definition stopped (lc : LanguageClient) (w : World) : World :=
  on_this (set_languageClient (Some (set_running false lc))) w.

(** Events of the language client's construction and start. *)
Definition clientEvent (e : Event) : bool :=
  match e with
  | EvNewLanguageClient _ | EvOnClose _ | EvLcStart _ | EvOnCall _ | EvLog _ => true
  | _ => false
  end.

(** Every registered close handler belongs to a reader that was
    already allocated. *)
Definition registryOk (w : World) : Prop :=
  Forall (fun h => fst h < nextObject w) (closeHandlers w).

(** A computation that preserves the invariant [P] of the world,
    however it completes. *)
Definition Keeps (P : World -> Prop) {A} (m : M A) : Prop :=
  forall w, P w -> P (state (m w)).

(** Worlds reachable from a wrapper without close handlers through
    the public methods and the close events of readers. *)
Inductive Reachable (env : Env) : World -> Prop :=
| Reach_new w :
    closeHandlers w = [] -> Reachable env w
| Reach_start w userConfig :
    Reachable env w -> Reachable env (state (start env userConfig w))
| Reach_restart w updatedWorker keepWorker :
    Reachable env w ->
    Reachable env (state (restartLanguageClient env updatedWorker keepWorker w))
| Reach_disposeLanguageClient w keepWorker :
    Reachable env w -> Reachable env (state (disposeLanguageClient env keepWorker w))
| Reach_dispose w :
    Reachable env w -> Reachable env (state (dispose env w))
| Reach_readerClosed w r :
    Reachable env w -> Reachable env (state (readerClosed env r w)).

End Wrapper.


(** ** main.ts: the web component *)

Module Comp.
Import Js.

(** The option record an inline-config function returns
    ([Record<string, unknown>], of which the component reads these
    keys and casts them to [string]). *)
Record InlineOptions := {
  o_code : option string;
  o_languageId : option string;
  o_modifiedCode : option string;
  o_modifiedLanguageId : option string;
  o_theme : option string
}.

(** Own properties of [window]. *)
Inductive WindowValue :=
| WFunction (returns : option InlineOptions)   (* typeof v === 'function' *)
| WOther.

Inductive Child := ScriptElement | OtherElement.

(** Class MonacoWrapper of packages/monaco-editor-comp/src/wrapper.ts
    is not among the sources; main.ts shows the shape of its
    configuration object, section 4.3 of the specification what its
    methods do. *)
Module MonacoWrapper.
(** Modelled from the spec: the configuration object of the absent
    MonacoWrapper, with the fields main.ts assigns: the original and
    the modified [code, languageId] pairs, the theme, the two inline
    option records, and the diff-mode flag. *)
Record EditorConfig := {
  codeOriginal : string * string;
  codeModified : string * string;
  theme : string;
  useDiffEditor : bool;
  monacoEditorOptions : option InlineOptions;
  monacoDiffEditorOptions : option InlineOptions
}.

(** Modelled from the spec: the state of the absent MonacoWrapper, its
    configuration and the editor instance it owns. *)
Record t := {
  editorConfig : EditorConfig;
  editor : option nat;          (* identity of the live editor instance *)
  editorTheme : option string   (* theme the live editor shows *)
}.

(** Modelled from the spec: [getEditorConfig()] of the absent
    MonacoWrapper hands out its configuration object (main.ts assigns
    through the result). *)
Definition getEditorConfig (m : t) : EditorConfig := editorConfig m.

Definition withConfig (f : EditorConfig -> EditorConfig) (m : t) : t :=
  {| editorConfig := f (editorConfig m); editor := editor m;
     editorTheme := editorTheme m |}.

(** Modelled from the spec: [setUseDiffEditor(flag)] of the absent
    MonacoWrapper stores the diff-mode flag in the configuration
    (section 4.3: the flag is reflected into the configuration). *)
Definition setUseDiffEditor (b : bool) (m : t) : t :=
  withConfig (fun c =>
    {| codeOriginal := codeOriginal c; codeModified := codeModified c;
       theme := theme c; useDiffEditor := b;
       monacoEditorOptions := monacoEditorOptions c;
       monacoDiffEditorOptions := monacoDiffEditorOptions c |}) m.

(** Modelled from the spec: [updateTheme()] of the absent
    MonacoWrapper "pushes a theme-only update to the editor without a
    full reload" (section 4.3): the live editor, if any, shows the
    configured theme and stays the same instance. *)
Definition updateTheme (m : t) : t :=
  {| editorConfig := editorConfig m; editor := editor m;
     editorTheme := match editor m with
                    | Some _ => Some (theme (editorConfig m))
                    | None => editorTheme m
                    end |}.

(** Modelled from the spec: [startEditor(container, dispatch)] of the
    absent MonacoWrapper creates the editor instance from the
    configuration (section 4.3, "triggers editor startup"). *)
Definition startEditor (fresh : nat) (m : t) : t :=
  {| editorConfig := editorConfig m; editor := Some fresh;
     editorTheme := Some (theme (editorConfig m)) |}.

(** Assignments through the reference [getEditorConfig()] returns. *)
Definition set_codeOriginal0 (v : string) (c : EditorConfig) : EditorConfig :=
  {| codeOriginal := (v, snd (codeOriginal c)); codeModified := codeModified c;
     theme := theme c; useDiffEditor := useDiffEditor c;
     monacoEditorOptions := monacoEditorOptions c;
     monacoDiffEditorOptions := monacoDiffEditorOptions c |}.

Definition set_codeOriginal1 (v : string) (c : EditorConfig) : EditorConfig :=
  {| codeOriginal := (fst (codeOriginal c), v); codeModified := codeModified c;
     theme := theme c; useDiffEditor := useDiffEditor c;
     monacoEditorOptions := monacoEditorOptions c;
     monacoDiffEditorOptions := monacoDiffEditorOptions c |}.

Definition set_codeModified0 (v : string) (c : EditorConfig) : EditorConfig :=
  {| codeOriginal := codeOriginal c; codeModified := (v, snd (codeModified c));
     theme := theme c; useDiffEditor := useDiffEditor c;
     monacoEditorOptions := monacoEditorOptions c;
     monacoDiffEditorOptions := monacoDiffEditorOptions c |}.

Definition set_codeModified1 (v : string) (c : EditorConfig) : EditorConfig :=
  {| codeOriginal := codeOriginal c; codeModified := (fst (codeModified c), v);
     theme := theme c; useDiffEditor := useDiffEditor c;
     monacoEditorOptions := monacoEditorOptions c;
     monacoDiffEditorOptions := monacoDiffEditorOptions c |}.

Definition set_theme (v : string) (c : EditorConfig) : EditorConfig :=
  {| codeOriginal := codeOriginal c; codeModified := codeModified c;
     theme := v; useDiffEditor := useDiffEditor c;
     monacoEditorOptions := monacoEditorOptions c;
     monacoDiffEditorOptions := monacoDiffEditorOptions c |}.

Definition set_monacoEditorOptions (v : option InlineOptions) (c : EditorConfig)
  : EditorConfig :=
  {| codeOriginal := codeOriginal c; codeModified := codeModified c;
     theme := theme c; useDiffEditor := useDiffEditor c;
     monacoEditorOptions := v;
     monacoDiffEditorOptions := monacoDiffEditorOptions c |}.

Definition set_monacoDiffEditorOptions (v : option InlineOptions) (c : EditorConfig)
  : EditorConfig :=
  {| codeOriginal := codeOriginal c; codeModified := codeModified c;
     theme := theme c; useDiffEditor := useDiffEditor c;
     monacoEditorOptions := monacoEditorOptions c;
     monacoDiffEditorOptions := v |}.
End MonacoWrapper.

(** The reflected properties and private fields of [CodeEditor]. *)
Record CodeEditor := {
  id : string;                       (* HTMLElement.id *)
  children : list Child;
  monacoWrapper : MonacoWrapper.t;
  code : string;
  languageId : string;
  modifiedCode : option string;
  modifiedLanguageId : option string;
  theme : string;
  enableInlineConfig : option bool;
  useDiffEditor : option bool
}.

(** The component and the page state it touches. *)
Record World := {
  this : CodeEditor;
  schemeListeners : nat;
    (* listeners this component added to
       matchMedia('(prefers-color-scheme: dark)') *)
  nextObject : nat
}.

Inductive Event :=
| EvLog (s : string)
| EvCall (name : string)             (* a window function was called *)
| EvSetUseDiffEditor (b : bool)      (* monacoWrapper.setUseDiffEditor(b) *)
| EvStartEditor (instance : nat)     (* monacoWrapper.startEditor(..) *)
| EvUpdateTheme                      (* monacoWrapper.updateTheme() *)
| EvAddListener.                     (* addEventListener('change', ..) *)

Definition M := Js.M World Event.

Definition on_this (f : CodeEditor -> CodeEditor) (w : World) : World :=
  {| this := f (this w); schemeListeners := schemeListeners w;
     nextObject := nextObject w |}.

Definition update (f : CodeEditor -> CodeEditor) : M unit := modify (on_this f).
Definition read {A} (f : CodeEditor -> A) : M A := gets (fun w => f (this w)).

Definition on_wrapper (f : MonacoWrapper.t -> MonacoWrapper.t) (c : CodeEditor)
  : CodeEditor :=
  {| id := id c; children := children c; monacoWrapper := f (monacoWrapper c);
     code := code c; languageId := languageId c; modifiedCode := modifiedCode c;
     modifiedLanguageId := modifiedLanguageId c; theme := theme c;
     enableInlineConfig := enableInlineConfig c; useDiffEditor := useDiffEditor c |}.

Definition on_config (f : MonacoWrapper.EditorConfig -> MonacoWrapper.EditorConfig)
  : CodeEditor -> CodeEditor := on_wrapper (MonacoWrapper.withConfig f).

Definition set_code (v : string) (c : CodeEditor) : CodeEditor :=
  {| id := id c; children := children c; monacoWrapper := monacoWrapper c;
     code := v; languageId := languageId c; modifiedCode := modifiedCode c;
     modifiedLanguageId := modifiedLanguageId c; theme := theme c;
     enableInlineConfig := enableInlineConfig c; useDiffEditor := useDiffEditor c |}.

Definition set_languageId (v : string) (c : CodeEditor) : CodeEditor :=
  {| id := id c; children := children c; monacoWrapper := monacoWrapper c;
     code := code c; languageId := v; modifiedCode := modifiedCode c;
     modifiedLanguageId := modifiedLanguageId c; theme := theme c;
     enableInlineConfig := enableInlineConfig c; useDiffEditor := useDiffEditor c |}.

Definition set_modifiedCode (v : option string) (c : CodeEditor) : CodeEditor :=
  {| id := id c; children := children c; monacoWrapper := monacoWrapper c;
     code := code c; languageId := languageId c; modifiedCode := v;
     modifiedLanguageId := modifiedLanguageId c; theme := theme c;
     enableInlineConfig := enableInlineConfig c; useDiffEditor := useDiffEditor c |}.

Definition set_modifiedLanguageId (v : option string) (c : CodeEditor) : CodeEditor :=
  {| id := id c; children := children c; monacoWrapper := monacoWrapper c;
     code := code c; languageId := languageId c; modifiedCode := modifiedCode c;
     modifiedLanguageId := v; theme := theme c;
     enableInlineConfig := enableInlineConfig c; useDiffEditor := useDiffEditor c |}.

Definition set_theme (v : string) (c : CodeEditor) : CodeEditor :=
  {| id := id c; children := children c; monacoWrapper := monacoWrapper c;
     code := code c; languageId := languageId c; modifiedCode := modifiedCode c;
     modifiedLanguageId := modifiedLanguageId c; theme := v;
     enableInlineConfig := enableInlineConfig c; useDiffEditor := useDiffEditor c |}.

Definition set_useDiffEditor (v : option bool) (c : CodeEditor) : CodeEditor :=
  {| id := id c; children := children c; monacoWrapper := monacoWrapper c;
     code := code c; languageId := languageId c; modifiedCode := modifiedCode c;
     modifiedLanguageId := modifiedLanguageId c; theme := theme c;
     enableInlineConfig := enableInlineConfig c; useDiffEditor := v |}.

(** *** The methods *)

Definition setCode (v : string) : M unit :=
  update (set_code v) ;;
  update (on_config (MonacoWrapper.set_codeOriginal0 v)).

Definition setLanguageId (v : string) : M unit :=
  update (set_languageId v) ;;
  update (on_config (MonacoWrapper.set_codeOriginal1 v)).

Definition setModifiedCode (v : string) : M unit :=
  update (set_modifiedCode (Some v)) ;;
  update (on_config (MonacoWrapper.set_codeModified0 v)).

Definition setModifiedLanguageId (v : string) : M unit :=
  update (set_modifiedLanguageId (Some v)) ;;
  update (on_config (MonacoWrapper.set_codeModified1 v)).

Definition setTheme (v : string) : M unit :=
  update (set_theme v) ;;
  update (on_config (MonacoWrapper.set_theme v)).


(** [private isEnableInlineConfig()] *)
Definition isEnableInlineConfig (c : CodeEditor) : bool :=
  match children c with
  | [ScriptElement] => truthyb (enableInlineConfig c)
  | _ => false
  end.

Definition isFunction (v : option WindowValue) : bool :=
  match v with Some (WFunction _) => true | _ => false end.

Definition callFunction (name : string) (v : option WindowValue)
  : M (option InlineOptions) :=
  emit (EvCall name) ;;
  ret (match v with Some (WFunction r) => r | _ => None end).

(** [private buildAndCallConfigFunction(basename, loggingName)] *)
Definition buildAndCallConfigFunction (win : gmap string WindowValue)
    (basename loggingName : string) : M (option InlineOptions) :=
  i <- read id ;;
  let funcName := basename in
  let funcNamePlusId := funcName +:+ i in
  if isFunction (win !! funcName) then
    emit (EvLog ("Using config supplied by " +:+ funcName +:+ " for "
                 +:+ loggingName +:+ ".")) ;;
    callFunction funcName (win !! funcName)
  else if isFunction (win !! funcNamePlusId) then
    emit (EvLog ("Using config supplied by " +:+ funcNamePlusId +:+ " for "
                 +:+ loggingName +:+ ".")) ;;
    callFunction funcNamePlusId (win !! funcNamePlusId)
  else ret None.

Definition when (b : bool) (m : M unit) : M unit := if b then m else ret tt.

(** [if (options.key) this.setter(options.key as string)] *)
Definition applyOption (v : option string) (setter : string -> M unit) : M unit :=
  when (truthy v) (setter (default "" v)).

Definition setMonacoEditorOptions (options : option InlineOptions) : M unit :=
  match options with
  | None => ret tt
  | Some o =>
      applyOption (o_code o) setCode ;;
      applyOption (o_languageId o) setLanguageId ;;
      applyOption (o_theme o) setTheme ;;
      update (on_config (MonacoWrapper.set_monacoEditorOptions (Some o)))
  end.

Definition setMonacoDiffEditorOptions (options : option InlineOptions) : M unit :=
  match options with
  | None => ret tt
  | Some o =>
      applyOption (o_code o) setCode ;;
      applyOption (o_languageId o) setLanguageId ;;
      applyOption (o_modifiedCode o) setModifiedCode ;;
      applyOption (o_modifiedLanguageId o) setModifiedLanguageId ;;
      applyOption (o_theme o) setTheme ;;
      update (on_config (MonacoWrapper.set_monacoDiffEditorOptions (Some o)))
  end.

Definition retrieveMonacoEditorOptions (win : gmap string WindowValue) : M unit :=
  enabled <- read isEnableInlineConfig ;;
  if (enabled : bool) then
    options <- buildAndCallConfigFunction win "getMonacoEditorOptions" "editor" ;;
    setMonacoEditorOptions options
  else ret tt.

Definition retrieveMonacoDiffEditorOptions (win : gmap string WindowValue) : M unit :=
  enabled <- read isEnableInlineConfig ;;
  if (enabled : bool) then
    options <- buildAndCallConfigFunction win "getMonacoDiffEditorOptions"
                                          "diff editor" ;;
    setMonacoDiffEditorOptions options
  else ret tt.

Definition loadInlineConfig (win : gmap string WindowValue) : M unit :=
  enabled <- read isEnableInlineConfig ;;
  when enabled
    (retrieveMonacoEditorOptions win ;; retrieveMonacoDiffEditorOptions win).

(** [private syncPropertiesAndEditorConfig(reloadInlineConfig)] *)
Definition syncPropertiesAndEditorConfig (win : gmap string WindowValue)
    (reloadInlineConfig : bool) : M unit :=
  when reloadInlineConfig (loadInlineConfig win) ;;
  c <- gets this ;;
  update (on_config (MonacoWrapper.set_codeOriginal0 (code c))) ;;
  update (on_config (MonacoWrapper.set_codeOriginal1 (languageId c))) ;;
  when (truthy (modifiedCode c))
    (update (on_config (MonacoWrapper.set_codeModified0
                          (default "" (modifiedCode c))))) ;;
  when (truthy (modifiedLanguageId c))
    (update (on_config (MonacoWrapper.set_codeModified1
                          (default "" (modifiedLanguageId c))))) ;;
  update (on_config (MonacoWrapper.set_theme (theme c))) ;;
  (* this.useDiffEditor || false *)
  emit (EvSetUseDiffEditor (truthyb (useDiffEditor c))) ;;
  update (on_wrapper (MonacoWrapper.setUseDiffEditor (truthyb (useDiffEditor c)))).

(** The listener [registerListeners] installs. *)
Definition onSchemeChange (matches : bool) : M unit :=
  setTheme (if matches then "vs-dark" else "vs-light") ;;
  emit EvUpdateTheme ;;
  update (on_wrapper MonacoWrapper.updateTheme).

Definition registerListeners : M unit :=
  emit EvAddListener ;;
  modify (fun w => {| this := this w; schemeListeners := S (schemeListeners w);
                      nextObject := nextObject w |}).

Definition startEditor (win : gmap string WindowValue) (reloadInlineConfig : bool)
  : M unit :=
  syncPropertiesAndEditorConfig win reloadInlineConfig ;;
  n <- gets nextObject ;;
  modify (fun w => {| this := this w; schemeListeners := schemeListeners w;
                      nextObject := S n |}) ;;
  emit (EvStartEditor n) ;;
  update (on_wrapper (MonacoWrapper.startEditor n)) ;;
  registerListeners.

Definition firstUpdated (win : gmap string WindowValue) : M unit :=
  startEditor win true.

(** A [change] event of the media query: every registered listener
    runs with [e.matches]. *)
Fixpoint runListeners (n : nat) (matches : bool) : M unit :=
  match n with
  | 0 => ret tt
  | S n' => onSchemeChange matches ;; runListeners n' matches
  end.

Definition schemeChanged (matches : bool) : M unit :=
  n <- gets schemeListeners ;;
  runListeners n matches.

(** *** Views used in the statements below *)

Definition config (w : World) : MonacoWrapper.EditorConfig :=
  MonacoWrapper.editorConfig (monacoWrapper (this w)).

Definition schemeTheme (matches : bool) : string :=
  if matches then "vs-dark" else "vs-light".

(** The world after one run of the colour-scheme listener. *)
Definition themed (matches : bool) (w : World) : World :=
  on_this (fun c => on_wrapper MonacoWrapper.updateTheme
                      (on_config (MonacoWrapper.set_theme (schemeTheme matches))
                         (set_theme (schemeTheme matches) c))) w.

Definition usingMsg (name loggingName : string) : string :=
  "Using config supplied by " +:+ name +:+ " for " +:+ loggingName +:+ ".".

(** The reflected properties that take part in the sync. *)
Definition properties (c : CodeEditor)
  : string * string * option string * option string * string * option bool :=
  (code c, languageId c, modifiedCode c, modifiedLanguageId c, theme c, useDiffEditor c).

(** [if (v) slot = v]: the value of the slot afterwards. *)
Definition truthyOr (v : option string) (old : string) : string :=
  if truthy v then default "" v else old.

(** A step that completes normally and relates its initial and final
    world by [R]. *)
Definition Step (R : World -> World -> Prop) {A} (m : M A) : Prop :=
  forall w, (exists a, result (m w) = Normal a) /\ R w (state (m w)).

(** The modified slots are either untouched together with their
    property, or the property now holds a truthy value. *)
Definition slotsKept (w w' : World) : Prop :=
  ((modifiedCode (this w') = modifiedCode (this w)
    /\ fst (MonacoWrapper.codeModified (config w'))
       = fst (MonacoWrapper.codeModified (config w)))
   \/ truthy (modifiedCode (this w')) = true)
  /\ ((modifiedLanguageId (this w') = modifiedLanguageId (this w)
       /\ snd (MonacoWrapper.codeModified (config w'))
          = snd (MonacoWrapper.codeModified (config w)))
      \/ truthy (modifiedLanguageId (this w')) = true).

(** What the write-through part of [syncPropertiesAndEditorConfig]
    makes of the world [w]. *)
Definition writtenThrough (w w' : World) : Prop :=
  let c := this w in
  properties (this w') = properties c
  /\ MonacoWrapper.codeOriginal (config w') = (code c, languageId c)
  /\ MonacoWrapper.theme (config w') = theme c
  /\ MonacoWrapper.useDiffEditor (config w') = truthyb (useDiffEditor c)
  /\ fst (MonacoWrapper.codeModified (config w'))
     = truthyOr (modifiedCode c) (fst (MonacoWrapper.codeModified (config w)))
  /\ snd (MonacoWrapper.codeModified (config w'))
     = truthyOr (modifiedLanguageId c) (snd (MonacoWrapper.codeModified (config w))).

End Comp.

(** ** Concrete configurations used to exercise the model *)

Module Samples.
Import Js Wrapper.

(** The URL builder of utils.js as section 6 describes it
    ([ws://] or [wss://] per [secured], or the literal URL). *)
Definition sampleUrl (c : ConfigOptions) : string :=
  match c with
  | WebSocket secured host _ _ _ _ =>
      (if secured then "wss://" else "ws://") +:+ host
  | WebSocketUrl url _ _ => url
  | _ => ""
  end.

(** Every call into the language client succeeds, sockets open. *)
Definition calm : Env :=
  {| createUrl := sampleUrl;
     lc_start := fun _ => Succeeds;
     lc_stop := fun _ => Succeeds;
     lc_dispose := fun _ => Succeeds;
     socket_opens := fun _ => true;
     random_id := "42" |}.

Definition failing (e : Reason) : Env :=
  {| createUrl := sampleUrl;
     lc_start := fun _ => Fails e;
     lc_stop := fun _ => Fails e;
     lc_dispose := fun _ => Fails e;
     socket_opens := fun _ => true;
     random_id := "42" |}.

Definition blank : Wrapper :=
  {| languageClient := None; worker := None; editorApp := None;
     id := None; htmlElement := None; serviceConfig := None;
     languageClientConfig := None |}.

Definition world0 : World :=
  {| this := blank; vscodeApiInitialized := false;
     closeHandlers := []; nextObject := 0 |}.

Definition jsonApp (diff : bool) (original : option string) : EditorAppConfig :=
  {| editorAppType := Classic; languageId := "json";
     useDiffEditor := diff; codeOriginal := original |}.

Definition userConfig (app : EditorAppConfig) (lc : option ConfigOptions) : UserConfig :=
  {| uc_id := Some "editor1"; uc_htmlElement := 7;
     wrapperConfig := {| wc_serviceConfig := None; editorAppConfig := app |};
     uc_languageClientConfig :=
       (fun o => {| options := o; initializationOptions := None |}) <$> lc |}.

Definition workerCfg : ConfigOptions := WorkerConfig "./worker.js" module None.

Definition hook (cb : nat) (status : bool) : WebSocketCallOptions :=
  {| CallOptions.onCall := cb; CallOptions.reportStatus := Some status |}.

Definition socketCfg : ConfigOptions :=
  WebSocket false "localhost" (Some 3000) (Some "/ls")
            (Some (hook 1 false)) (Some (hook 2 true)).

(** The world after [start] with a worker-based language client. *)
Definition workerWorld : World :=
  state (start calm (userConfig (jsonApp false None) (Some workerCfg)) world0).

(** The world after [start] with a socket-based language client. *)
Definition socketWorld : World :=
  state (start calm (userConfig (jsonApp false None) (Some socketCfg)) world0).

(** As [calm], except that one call into the language client rejects. *)
Definition boom : Reason := RError "boom".

Definition unstartable : Env :=
  {| createUrl := sampleUrl;
     lc_start := fun _ => Fails boom;
     lc_stop := fun _ => Succeeds;
     lc_dispose := fun _ => Succeeds;
     socket_opens := fun _ => true;
     random_id := "42" |}.


Definition undisposable : Env :=
  {| createUrl := sampleUrl;
     lc_start := fun _ => Succeeds;
     lc_stop := fun _ => Succeeds;
     lc_dispose := fun _ => Fails boom;
     socket_opens := fun _ => true;
     random_id := "42" |}.

(** The world after a [start] whose language client failed to start. *)
Definition failedWorld : World :=
  state (start unstartable (userConfig (jsonApp false None) (Some workerCfg)) world0).

(** [socketWorld] after its client was disposed: configured, with an
    editor, and not running. *)
Definition reconnectWorld : World :=
  state (disposeLanguageClient calm None socketWorld).

(** The client a new connection start creates in [reconnectWorld]. *)
Definition reconnectedClient : LanguageClient :=
  {| lc_id := 6; lc_running := true;
     lc_transports := {| reader := (5, SocketChannel 4); writer := SocketChannel 4 |};
     lc_documentSelector := ["json"]; lc_initializationOptions := None |}.

End Samples.


Module CompSamples.
Import Js Comp.

Definition plainOptions : InlineOptions :=
  {| o_code := Some "const a = 1;"; o_languageId := Some "typescript";
     o_modifiedCode := None; o_modifiedLanguageId := None;
     o_theme := Some "vs-dark" |}.

Definition suffixedOptions : InlineOptions :=
  {| o_code := Some "print(1)"; o_languageId := Some "python";
     o_modifiedCode := Some "print(2)"; o_modifiedLanguageId := None;
     o_theme := None |}.

(** A page that defines the plain and the id-suffixed function. *)
Definition page : gmap string WindowValue :=
  <["getMonacoEditorOptions" := WFunction (Some plainOptions)]>
    (<["getMonacoEditorOptionsed1" := WFunction (Some suffixedOptions)]> ∅).

(** A page that defines only id-suffixed functions. *)
Definition suffixedPage : gmap string WindowValue :=
  <["getMonacoEditorOptions" := WOther]>
    (<["getMonacoDiffEditorOptionsed1" := WFunction (Some suffixedOptions)]> ∅).

Definition freshWrapper : MonacoWrapper.t :=
  {| MonacoWrapper.editorConfig :=
       {| MonacoWrapper.codeOriginal := ("", "javascript");
          MonacoWrapper.codeModified := ("old", "javascript");
          MonacoWrapper.theme := "vs-light";
          MonacoWrapper.useDiffEditor := false;
          MonacoWrapper.monacoEditorOptions := None;
          MonacoWrapper.monacoDiffEditorOptions := None |};
     MonacoWrapper.editor := None;
     MonacoWrapper.editorTheme := None |}.

(** <monaco-editor-comp id="ed1" code="x" language-id="json"
     theme="vs-light" enable-inline-config> with one script child. *)
Definition component : CodeEditor :=
  {| id := "ed1"; children := [ScriptElement]; monacoWrapper := freshWrapper;
     code := "x"; languageId := "json";
     modifiedCode := Some ""; modifiedLanguageId := Some "javascript";
     theme := "vs-light";
     enableInlineConfig := Some true; useDiffEditor := Some false |}.

Definition world0 : World :=
  {| this := component; schemeListeners := 0; nextObject := 0 |}.

(** The world after the first render on a page without inline
    functions. *)
Definition renderedWorld : World := state (firstUpdated ∅ world0).

End CompSamples.


(** ** wrapper.ts: the remaining methods *)

Module WrapperMore.
Import Js Wrapper.

(** [getEditor()] and [getDiffEditor()]: [this.editorApp?.getEditor()]. *)
Definition getEditor (t : Wrapper) : option nat := editorApp t ≫= app_editor.
Definition getDiffEditor (t : Wrapper) : option nat := editorApp t ≫= app_diffEditor.

(** [getMonacoEditorApp()] *)
Definition getMonacoEditorApp (t : Wrapper) : option EditorApp := editorApp t.

(** [async updateModel(modelUpdate)]: [await this.editorApp?.updateModel(..)].
    The method of the editor app class is not among the sources and is a
    parameter. *)
Definition updateModel (appUpdateModel : EditorApp -> M unit) : M (Promise unit) :=
  async (
    a <- read editorApp ;;
    match a with
    | Some a => appUpdateModel a
    | None => ret tt
    end).

(** [async updateDiffModel(modelUpdate)] *)
Definition updateDiffModel (appUpdateDiffModel : EditorApp -> M unit)
  : M (Promise unit) :=
  async (
    a <- read editorApp ;;
    match a with
    | Some a => appUpdateDiffModel a
    | None => ret tt
    end).

(** [async updateEditorOptions(options)]; [updateConfig] of the editor
    app class is a parameter. *)
Definition updateEditorOptions (appUpdateConfig : EditorApp -> M unit)
  : M (Promise unit) :=
  async (
    a <- read editorApp ;;
    match a with
    | Some a => appUpdateConfig a
    | None =>
        throw (RString
          "Update was called when editor wrapper was not correctly configured.")
    end).

(** [updateLayout()]: [this.editorApp?.updateLayout()]. *)
Definition updateLayout (appUpdateLayout : EditorApp -> M unit) : M unit :=
  a <- read editorApp ;;
  match a with
  | Some a => appUpdateLayout a
  | None => ret tt
  end.

(** *** Views used in the statements below *)

Definition noConfigMsg : string :=
  "Unable to restart languageclient. No configuration was provided.".

Definition notConfiguredMsg : string :=
  "Update was called when editor wrapper was not correctly configured.".

(** The events of [this.editorApp?.disposeEditor()] and
    [this.editorApp?.disposeDiffEditor()] in wrapper state [t]. *)
Definition disposeEditorsTrace (t : Wrapper) : list Event :=
  match editorApp t with
  | Some _ => [EvDisposeEditor; EvDisposeDiffEditor]
  | None => []
  end.

(** The wrapper after both editors of its editor app were disposed. *)
Definition editorsDisposed (t : Wrapper) : Wrapper :=
  match editorApp t with
  | Some a => set_editorApp (Some (app_disposeDiffEditor (app_disposeEditor a))) t
  | None => t
  end.

Definition isInitServices (e : Event) : bool :=
  match e with EvInitServices => true | _ => false end.

Definition isOnCall (e : Event) : bool :=
  match e with EvOnCall _ => true | _ => false end.

(** What an async body that ends in [await p] (and returns nothing)
    makes of the completion [r] of the call that produced [p]. *)
Definition awaited {A} (r : Completion (Promise A)) : Completion (Promise unit) :=
  match r with
  | Normal (Resolved _) => Normal (Resolved tt)
  | Normal (Rejected e) => Normal (Rejected e)
  | Normal Pending => Normal Pending
  | Throw e => Normal (Rejected e)
  | Hang => Normal Pending
  end.

Definition misconfigured (userConfig : UserConfig) : bool :=
  useDiffEditor (editorAppConfig (wrapperConfig userConfig))
  && negb (truthy (codeOriginal (editorAppConfig (wrapperConfig userConfig)))).

(** The wrapper once [init(userConfig)] has run. *)
Definition initialised (env : Env) (userConfig : UserConfig) (t : Wrapper) : Wrapper :=
  {| languageClient := languageClient t;
     worker := worker t;
     editorApp := editorApp t;
     id := Some (default (random_id env) (uc_id userConfig));
     htmlElement := Some (uc_htmlElement userConfig);
     serviceConfig :=
       Some (requiredServices
               (default emptyServiceConfig
                        (wc_serviceConfig (wrapperConfig userConfig))));
     languageClientConfig :=
       match uc_languageClientConfig userConfig with
       | Some c => Some c
       | None => languageClientConfig t
       end |}.

(** The editor app [start] constructs, with its editors created. *)
Definition startedApp (env : Env) (userConfig : UserConfig) (n : nat) : EditorApp :=
  let appConfig := editorAppConfig (wrapperConfig userConfig) in
  app_createEditors n
    {| app_type := editorAppType appConfig;
       app_id := default (random_id env) (uc_id userConfig);
       app_config := appConfig;
       app_editor := None; app_diffEditor := None |}.

(** The world in which [start] reaches its language client part. *)
Definition startPrepared (env : Env) (userConfig : UserConfig) (w : World) : World :=
  {| this := set_editorApp (Some (startedApp env userConfig (nextObject w)))
               (initialised env userConfig (this w));
     vscodeApiInitialized := true;
     closeHandlers := closeHandlers w;
     nextObject := S (nextObject w) |}.

(** The trace of [start] up to there. *)
Definition startPrefix (env : Env) (userConfig : UserConfig) (w : World) : list Event :=
  disposeEditorsTrace (this w)
  ++ EvNewEditorApp (editorAppType (editorAppConfig (wrapperConfig userConfig)))
                    (default (random_id env) (uc_id userConfig))
     :: (if vscodeApiInitialized w then [] else [EvInitServices])
  ++ [EvEditorAppInit; EvCreateEditors (Some (uc_htmlElement userConfig))].

(** The handlers registered on reader [r]. *)
Definition handlersOf (r : nat) (hs : list (nat * option ConfigOptions))
  : list (option ConfigOptions) :=
  snd <$> List.filter (fun h => Nat.eqb r (fst h)) hs.

(** What every world reachable through the public methods satisfies:
    a stored client comes with an editor app and a configuration, and
    a client over a worker channel talks over the stored worker. *)
Definition clientOk (w : World) : Prop :=
  forall lc, languageClient (this w) = Some lc ->
    editorApp (this w) <> None
    /\ languageClientConfig (this w) <> None
    /\ (forall wk, writer (lc_transports lc) = WorkerChannel wk ->
                   worker (this w) = Some wk).

(** Events of a connection start: transports, sockets and the client. *)
Definition connectionEvent (e : Event) : bool :=
  match e with
  | EvSocketOpen _ => true
  | _ => transportEvent e || clientEvent e
  end.

(** Events of a close handler. *)
Definition stopEvent (e : Event) : bool :=
  match e with
  | EvLcStop _ | EvOnCall _ | EvLog _ => true
  | _ => false
  end.

(** Events of a client disposal. *)
Definition disposalEvent (e : Event) : bool :=
  match e with
  | EvLcDispose _ | EvTerminate _ => true
  | _ => false
  end.

(** *** Sequences of calls *)

(** The calls a user of the wrapper can make, and the close event of a
    reader. *)
Inductive Call : Type :=
| CallStart (userConfig : UserConfig)
| CallRestart (updatedWorker : option Worker) (keepWorker : option bool)
| CallDisposeLanguageClient (keepWorker : option bool)
| CallDispose
| ReaderClosed (r : nat).

Definition perform (env : Env) (c : Call) (w : World) : World * list Event :=
  match c with
  | CallStart userConfig =>
      let out := start env userConfig w in (state out, trace out)
  | CallRestart updatedWorker keepWorker =>
      let out := restartLanguageClient env updatedWorker keepWorker w in
      (state out, trace out)
  | CallDisposeLanguageClient keepWorker =>
      let out := disposeLanguageClient env keepWorker w in (state out, trace out)
  | CallDispose => let out := dispose env w in (state out, trace out)
  | ReaderClosed r => let out := readerClosed env r w in (state out, trace out)
  end.

(** A call of [start] whose configuration passes the check of [init]. *)
Definition starts (c : Call) : bool :=
  match c with
  | CallStart userConfig => negb (misconfigured userConfig)
  | _ => false
  end.

(** The client configuration stored after the call [c]. *)
Definition configAfter (c : Call) (before : option LanguageClientConfig)
  : option LanguageClientConfig :=
  match c with
  | CallStart userConfig =>
      if misconfigured userConfig then before
      else match uc_languageClientConfig userConfig with
           | Some cfg => Some cfg
           | None => before
           end
  | _ => before
  end.

Fixpoint performAll (env : Env) (cs : list Call) (w : World) : World * list Event :=
  match cs with
  | [] => (w, [])
  | c :: cs' =>
      let '(w1, ev1) := perform env c w in
      let '(w2, ev2) := performAll env cs' w1 in
      (w2, ev1 ++ ev2)
  end.

End WrapperMore.

(** ** Further sample worlds *)

Module MoreSamples.
Import Js Wrapper Samples.

(** The world after [start] without a language client. *)
Definition plainWorld : World :=
  state (start calm (userConfig (jsonApp false None) None) world0).


(** The running client [n] with reader [r] over the worker [wk]. *)
Definition workerClient (n r wk : nat) : LanguageClient :=
  {| lc_id := n; lc_running := true;
     lc_transports := {| reader := (r, WorkerChannel (WorkerObj wk));
                         writer := WorkerChannel (WorkerObj wk) |};
     lc_documentSelector := ["json"]; lc_initializationOptions := None |}.

End MoreSamples.


(** ** main.ts: the remaining methods *)

Module CompMore.
Import Js Comp.

(** [updateEditor(reloadInlineConfig)]; [updateEditor()] of the absent
    MonacoWrapper is a parameter. *)
Definition updateEditor (win : gmap string WindowValue)
    (wrapperUpdateEditor : M unit) (reloadInlineConfig : bool) : M unit :=
  syncPropertiesAndEditorConfig win reloadInlineConfig ;;
  wrapperUpdateEditor.

(** [swapEditors(useDiffEditor, reloadInlineConfig)]; [swapEditors(..)]
    of the absent MonacoWrapper is a parameter. *)
Definition swapEditors (win : gmap string WindowValue)
    (wrapperSwapEditors : M unit) (useDiffEditor reloadInlineConfig : bool) : M unit :=
  update (set_useDiffEditor (Some useDiffEditor)) ;;
  syncPropertiesAndEditorConfig win reloadInlineConfig ;;
  wrapperSwapEditors.

(** *** Views used in the statements below *)

Definition isSetUseDiffEditor (e : Event) : bool :=
  match e with EvSetUseDiffEditor _ => true | _ => false end.

(** [if (v) this.property = v] for an optional property. *)
Definition truthyOrOption (v : option string) (old : option string) : option string :=
  if truthy v then v else old.

(** What a method leaves alone: the element's id and children, the
    inline-config switch, the diff switch and the listeners. *)
Definition sameShell (w w' : World) : Prop :=
  id (this w') = id (this w)
  /\ children (this w') = children (this w)
  /\ enableInlineConfig (this w') = enableInlineConfig (this w)
  /\ useDiffEditor (this w') = useDiffEditor (this w)
  /\ schemeListeners w' = schemeListeners w
  /\ nextObject w' = nextObject w.

(** The component after [setCode(v)], [setLanguageId(v)], ... *)
Definition withCode (v : string) (c : CodeEditor) : CodeEditor :=
  on_config (MonacoWrapper.set_codeOriginal0 v) (set_code v c).
Definition withLanguageId (v : string) (c : CodeEditor) : CodeEditor :=
  on_config (MonacoWrapper.set_codeOriginal1 v) (set_languageId v c).
Definition withModifiedCode (v : string) (c : CodeEditor) : CodeEditor :=
  on_config (MonacoWrapper.set_codeModified0 v) (set_modifiedCode (Some v) c).
Definition withModifiedLanguageId (v : string) (c : CodeEditor) : CodeEditor :=
  on_config (MonacoWrapper.set_codeModified1 v) (set_modifiedLanguageId (Some v) c).
Definition withTheme (v : string) (c : CodeEditor) : CodeEditor :=
  on_config (MonacoWrapper.set_theme v) (set_theme v c).

(** [if (options.key) this.setter(options.key)] on the component. *)
Definition applied (v : option string) (setter : string -> CodeEditor -> CodeEditor)
    (c : CodeEditor) : CodeEditor :=
  if truthy v then setter (default "" v) c else c.

(** The component after [setMonacoEditorOptions(o)]. *)
Definition editorOptionsApplied (o : InlineOptions) (c : CodeEditor) : CodeEditor :=
  on_config (MonacoWrapper.set_monacoEditorOptions (Some o))
    (applied (o_theme o) withTheme
       (applied (o_languageId o) withLanguageId
          (applied (o_code o) withCode c))).

(** The component after [setMonacoDiffEditorOptions(o)]. *)
Definition diffOptionsApplied (o : InlineOptions) (c : CodeEditor) : CodeEditor :=
  on_config (MonacoWrapper.set_monacoDiffEditorOptions (Some o))
    (applied (o_theme o) withTheme
       (applied (o_modifiedLanguageId o) withModifiedLanguageId
          (applied (o_modifiedCode o) withModifiedCode
             (applied (o_languageId o) withLanguageId
                (applied (o_code o) withCode c))))).

(** The write-through part of [syncPropertiesAndEditorConfig]. *)
Definition writeThrough (c : CodeEditor) (cfg : MonacoWrapper.EditorConfig)
  : MonacoWrapper.EditorConfig :=
  let cfg1 := MonacoWrapper.set_codeOriginal1 (languageId c)
                (MonacoWrapper.set_codeOriginal0 (code c) cfg) in
  let cfg2 := if truthy (modifiedCode c)
              then MonacoWrapper.set_codeModified0 (default "" (modifiedCode c)) cfg1
              else cfg1 in
  let cfg3 := if truthy (modifiedLanguageId c)
              then MonacoWrapper.set_codeModified1
                     (default "" (modifiedLanguageId c)) cfg2
              else cfg2 in
  MonacoWrapper.set_theme (theme c) cfg3.

Definition synced (w : World) : World :=
  on_this (fun c =>
    on_wrapper (MonacoWrapper.setUseDiffEditor (truthyb (useDiffEditor c)))
      (on_config (writeThrough c) c)) w.

(** Properties and configuration slots agree. *)
Definition inSync (w : World) : Prop :=
  MonacoWrapper.codeOriginal (config w) = (code (this w), languageId (this w))
  /\ MonacoWrapper.theme (config w) = theme (this w)
  /\ (truthy (modifiedCode (this w)) = true ->
      fst (MonacoWrapper.codeModified (config w)) = default "" (modifiedCode (this w)))
  /\ (truthy (modifiedLanguageId (this w)) = true ->
      snd (MonacoWrapper.codeModified (config w))
      = default "" (modifiedLanguageId (this w))).

(** A computation that emits no event of the kind [q]. *)
Definition Silent (q : Event -> bool) {A} (m : M A) : Prop :=
  forall w, List.filter q (trace (m w)) = [].

End CompMore.

(** ** Further sample pages and elements *)

Module MoreCompSamples.
Import Js Comp CompSamples.

(** A page that defines both plain functions. *)
Definition diffPage : gmap string WindowValue :=
  <["getMonacoEditorOptions" := WFunction (Some plainOptions)]>
    (<["getMonacoDiffEditorOptions" := WFunction (Some suffixedOptions)]> ∅).

(** <monaco-editor-comp id="ed2" enable-inline-config> without a
    script child. *)
Definition bare : CodeEditor :=
  {| id := "ed2"; children := []; monacoWrapper := freshWrapper;
     code := ""; languageId := "javascript";
     modifiedCode := Some ""; modifiedLanguageId := Some "javascript";
     theme := "vs-light";
     enableInlineConfig := Some true; useDiffEditor := Some false |}.

Definition bareWorld : World :=
  {| this := bare; schemeListeners := 0; nextObject := 0 |}.

End MoreCompSamples.


(** * Properties of wrapper.ts *)

(** ** Symbolic execution of the methods *)

Module WrapperFacts.
Import Js Wrapper.

Ltac run :=
  unfold callLanguageClient, callHook, logStatus, awaiting, fresh, update, read,
    async, try_catch, bind, ret, gets, modify, emit, throw, await in *;
  simpl in *.

Ltac members H :=
  repeat first [ rewrite elem_of_app in H | rewrite elem_of_cons in H
               | rewrite elem_of_nil in H ].

Lemma callHook_run opts w : callHook opts w = (Normal tt, w, hookTrace opts (this w)).
Proof.
  destruct opts as [o|]; run; [|reflexivity].
  destruct (truthyb (CallOptions.reportStatus o)); reflexivity.
Qed.

(** *** handleLanguageClientStart *)

Lemma handle_no_app env mt w :
  editorApp (this w) = None ->
  handleLanguageClientStart env mt w = (Normal Pending, w, []).
Proof.
  intros H. unfold handleLanguageClientStart, createLanguageClient. run.
  rewrite H. reflexivity.
Qed.

Lemma handle_run env mt w a :
  editorApp (this w) = Some a ->
  handleLanguageClientStart env mt w =
  let lc := newClient mt w a in
  let pre := [EvNewLanguageClient (lc_id lc); EvOnClose (fst (reader mt));
              EvLcStart (lc_id lc)] in
  match lc_start env (lc_id lc) with
  | Succeeds =>
      let w1 := attached mt (set_running true lc) w in
      (Normal (Resolved startedMsg), w1,
       pre ++ hookTrace (socketStartOptions (lcOptions w)) (this w1))
  | Fails e => (Normal (Rejected (RString (failedMsg e))), attached mt lc w, pre)
  | Never => (Normal Pending, attached mt lc w, pre)
  end.
Proof.
  intros H. unfold handleLanguageClientStart, createLanguageClient, lcOptions. run.
  rewrite H. simpl.
  destruct (lc_start env (nextObject w)); simpl; try reflexivity.
  destruct (socketStartOptions _) as [o|]; simpl; [|reflexivity].
  destruct (truthyb _); reflexivity.
Qed.

Lemma handle_normal env mt w :
  exists p, result (handleLanguageClientStart env mt w) = Normal p.
Proof.
  destruct (editorApp (this w)) as [a|] eqn:Ha.
  - rewrite (handle_run _ _ _ _ Ha). simpl.
    destruct (lc_start env (nextObject w)); eauto.
  - rewrite handle_no_app by done. eauto.
Qed.

Lemma handle_resolved env mt w msg w1 ev :
  handleLanguageClientStart env mt w = (Normal (Resolved msg), w1, ev) ->
  exists a, editorApp (this w) = Some a
            /\ lc_start env (nextObject w) = Succeeds
            /\ w1 = attached mt (set_running true (newClient mt w a)) w.
Proof.
  destruct (editorApp (this w)) as [a|] eqn:Ha.
  - rewrite (handle_run _ _ _ _ Ha). simpl.
    destruct (lc_start env (nextObject w)); intros H; try discriminate.
    injection H as _ <- _. eauto.
  - rewrite handle_no_app by done. discriminate.
Qed.

Lemma handle_failure env mt w n e :
  EvLcStart n ∈ trace (handleLanguageClientStart env mt w) ->
  lc_start env n = Fails e ->
  result (handleLanguageClientStart env mt w)
  = Normal (Rejected (RString (failedMsg e))).
Proof.
  destruct (editorApp (this w)) as [a|] eqn:Ha.
  - rewrite (handle_run _ _ _ _ Ha). simpl.
    destruct (lc_start env (nextObject w)) eqn:Hs; unfold trace, result; simpl;
      intros Hin Hn; (assert (n = nextObject w) as ->; [|congruence]).
    + destruct (socketStartOptions _) as [o|]; simpl in Hin;
        [destruct (truthyb _)|]; members Hin; intuition congruence.
    + members Hin; intuition congruence.
    + members Hin; intuition congruence.
  - rewrite (handle_no_app _ _ _ Ha). unfold trace; simpl.
    intros Hin. members Hin. done.
Qed.

Lemma hookTrace_client opts t : forallb clientEvent (hookTrace opts t) = true.
Proof. destruct opts as [o|]; simpl; [destruct (truthyb _)|]; reflexivity. Qed.

Lemma handle_client_events env mt w :
  forallb clientEvent (trace (handleLanguageClientStart env mt w)) = true.
Proof.
  destruct (editorApp (this w)) as [a|] eqn:Ha.
  - rewrite (handle_run _ _ _ _ Ha). simpl.
    destruct (lc_start env (nextObject w)); try reflexivity.
    unfold trace; simpl. apply hookTrace_client.
  - rewrite handle_no_app by done. reflexivity.
Qed.

Lemma handle_keeps_worker env mt w :
  worker (this (state (handleLanguageClientStart env mt w))) = worker (this w).
Proof.
  destruct (editorApp (this w)) as [a|] eqn:Ha.
  - rewrite (handle_run _ _ _ _ Ha). simpl.
    destruct (lc_start env (nextObject w)); reflexivity.
  - rewrite handle_no_app by done. reflexivity.
Qed.

(** *** Reading traces *)

Lemma client_events_quiet evs wk :
  forallb clientEvent evs = true ->
  terminations wk evs = 0 /\ channelsUsed evs = [] /\ List.filter isNewWorker evs = [].
Proof.
  unfold terminations, channelsUsed.
  induction evs as [|e evs IH]; simpl; [done|].
  intros [He Hevs]%andb_prop. destruct (IH Hevs) as (IH1 & IH2 & IH3).
  destruct e; try discriminate; simpl; auto.
Qed.

Lemma terminations_cons wk e evs :
  terminations wk (e :: evs)
  = (if isTerminate wk e then 1 else 0) + terminations wk evs.
Proof. unfold terminations. simpl. by destruct (isTerminate wk e). Qed.


(** *** startLanguageClientConnection *)

Lemma connect_running env w :
  isRunning (this w) = true ->
  startLanguageClientConnection env w = (Normal (Resolved alreadyRunningMsg), w, []).
Proof. intros H. unfold startLanguageClientConnection. run. rewrite H. reflexivity. Qed.

Lemma connect_socket env w c :
  isRunning (this w) = false ->
  lcOptions w = Some c ->
  isSocketConfig c = true ->
  startLanguageClientConnection env w =
  let ws := nextObject w in
  if socket_opens env ws then
    let '(r, s, ev) :=
      handleLanguageClientStart env (socketTransports ws) (bump (bump w)) in
    (r, s, [EvNewWebSocket ws (createUrl env c); EvSocketOpen ws;
            EvNewReader (S ws) (SocketChannel ws);
            EvNewWriter (SocketChannel ws)] ++ ev)
  else (Normal Pending, bump w, [EvNewWebSocket ws (createUrl env c)]).
Proof.
  intros Hr Hc Hs. unfold startLanguageClientConnection, lcOptions in *. run.
  rewrite Hr, Hc.
  destruct c; try discriminate; simpl;
    (destruct (socket_opens env (nextObject w)); [|reflexivity]);
    unfold socketTransports, bump; simpl;
    destruct (handleLanguageClientStart _ _ _) as [[r s] ev]; reflexivity.
Qed.

Lemma connect_worker env w :
  isRunning (this w) = false ->
  socketBased w = false ->
  startLanguageClientConnection env w =
  match obtainWorker w with
  | None => (Normal (Rejected (RTypeError "Cannot read properties of undefined")),
             w, [])
  | Some (wk, w1, pre) =>
      let '(r, s, ev) :=
        handleLanguageClientStart env (workerTransports (nextObject w1) wk) (bump w1) in
      (r, s, pre ++ [EvNewReader (nextObject w1) (WorkerChannel wk);
                     EvNewWriter (WorkerChannel wk)] ++ ev)
  end.
Proof.
  intros Hr Hs.
  unfold startLanguageClientConnection, socketBased, obtainWorker, lcOptions in *. run.
  rewrite Hr.
  destruct (languageClientConfig (this w)) as [[c i]|]; simpl in *;
    [destruct c; try discriminate|];
    destruct (worker (this w)) as [wk|]; simpl;
    unfold workerTransports, bump; simpl;
    try (destruct (handleLanguageClientStart _ _ _) as [[r s] ev]); reflexivity.
Qed.

Lemma obtainWorker_frame w wk w1 pre :
  obtainWorker w = Some (wk, w1, pre) ->
  nextObject w <= nextObject w1
  /\ closeHandlers w1 = closeHandlers w
  /\ languageClientConfig (this w1) = languageClientConfig (this w)
  /\ worker (this w1) = Some wk.
Proof.
  unfold obtainWorker. destruct (worker (this w)) eqn:Hw.
  - intros [= <- <- <-]. auto.
  - destruct (lcOptions w) as [[]|]; try discriminate; intros [= <- <- <-];
      simpl; auto.
Qed.

Lemma connect_failure env w n e :
  EvLcStart n ∈ trace (startLanguageClientConnection env w) ->
  lc_start env n = Fails e ->
  result (startLanguageClientConnection env w)
  = Normal (Rejected (RString (failedMsg e))).
Proof.
  destruct (isRunning (this w)) eqn:Hr.
  { rewrite connect_running by done. intros Hin; members Hin; done. }
  destruct (socketBased w) eqn:Hs.
  - unfold socketBased in Hs. destruct (lcOptions w) as [c|] eqn:Hc; [|done].
    rewrite (connect_socket env w c) by done. simpl.
    destruct (socket_opens env (nextObject w)).
    + pose proof (handle_failure env (socketTransports (nextObject w))
                    (bump (bump w)) n e) as Hh.
      destruct (handleLanguageClientStart _ _ _) as [[r s] ev].
      unfold trace, result in *; simpl in *. intros Hin Hn.
      apply Hh; [|done]. members Hin. intuition congruence.
    + unfold trace; simpl. intros Hin. members Hin. intuition congruence.
  - rewrite connect_worker by done.
    destruct (obtainWorker w) as [[[wk w1] pre]|] eqn:Ho.
    + pose proof (handle_failure env (workerTransports (nextObject w1) wk)
                    (bump w1) n e) as Hh.
      destruct (handleLanguageClientStart _ _ _) as [[r s] ev].
      unfold trace, result in *; simpl in *. intros Hin Hn.
      apply Hh; [|done].
      members Hin.
      destruct Hin as [Hin|[?|[?|?]]]; try done.
      exfalso. unfold obtainWorker in Ho.
      destruct (worker (this w)); [injection Ho as <- <- <-; members Hin; done|].
      destruct (lcOptions w) as [[]|]; try done; injection Ho as <- <- <-;
        members Hin; intuition congruence.
    + unfold trace; simpl. intros Hin; members Hin; done.
Qed.

(** A connection start that resolved after actually connecting. *)
Lemma connect_resolved env w msg w1 ev :
  isRunning (this w) = false ->
  startLanguageClientConnection env w = (Normal (Resolved msg), w1, ev) ->
  exists mt w' a,
    nextObject w <= fst (reader mt)
    /\ closeHandlers w' = closeHandlers w
    /\ languageClientConfig (this w') = languageClientConfig (this w)
    /\ editorApp (this w') = Some a
    /\ w1 = attached mt (set_running true (newClient mt w' a)) w'.
Proof.
  intros Hr. destruct (socketBased w) eqn:Hs.
  - unfold socketBased in Hs. destruct (lcOptions w) as [c|] eqn:Hc; [|done].
    rewrite (connect_socket env w c) by done. simpl.
    destruct (socket_opens env (nextObject w)); [|discriminate].
    destruct (handleLanguageClientStart _ _ _) as [[r s] ev'] eqn:Hh.
    intros [= -> -> <-].
    destruct (handle_resolved _ _ _ _ _ _ Hh) as (a & Ha & _ & ->).
    exists (socketTransports (nextObject w)), (bump (bump w)), a.
    simpl. auto with lia.
  - rewrite connect_worker by done.
    destruct (obtainWorker w) as [[[wk w'] pre]|] eqn:Ho; [|discriminate].
    destruct (handleLanguageClientStart _ _ _) as [[r s] ev'] eqn:Hh.
    intros [= -> -> <-].
    destruct (handle_resolved _ _ _ _ _ _ Hh) as (a & Ha & _ & ->).
    destruct (obtainWorker_frame _ _ _ _ Ho) as (Hn & Hcl & Hcfg & _).
    exists (workerTransports (nextObject w') wk), (bump w'), a. simpl. auto.
Qed.

Lemma connect_resolved_client env w msg w1 ev :
  isRunning (this w) = false ->
  startLanguageClientConnection env w = (Normal (Resolved msg), w1, ev) ->
  exists lc, languageClient (this w1) = Some lc /\ lc_running lc = true.
Proof.
  intros Hr Hc.
  destruct (connect_resolved _ _ _ _ _ Hr Hc) as (mt & w' & a & _ & _ & _ & _ & ->).
  eexists. split; reflexivity.
Qed.

(** *** disposeLanguageClient and restartLanguageClient *)

Lemma dispose_not_running env keepWorker w :
  isRunning (this w) = false ->
  disposeLanguageClient env keepWorker w
  = (Normal (Rejected (RString notStartedMsg)), w, []).
Proof.
  intros H. unfold disposeLanguageClient, isRunning in *. run.
  destruct (languageClient (this w)) as [lc|]; [rewrite H|]; reflexivity.
Qed.

Lemma dispose_run env keepWorker w lc :
  languageClient (this w) = Some lc ->
  lc_running lc = true ->
  disposeLanguageClient env keepWorker w =
  match lc_dispose env (lc_id lc) with
  | Succeeds => (Normal (Resolved tt), on_this (disposed keepWorker) w,
                 disposeTrace keepWorker lc (this w))
  | Fails e => (Normal (Rejected (RString (disposeFailedMsg e))), w,
                [EvLcDispose (lc_id lc)])
  | Never => (Normal Pending, w, [EvLcDispose (lc_id lc)])
  end.
Proof.
  intros Hl Hr. unfold disposeLanguageClient, disposeTrace, disposed. run.
  rewrite Hl, Hr.
  destruct (lc_dispose env (lc_id lc)); simpl; try (destruct w; reflexivity).
  destruct keepWorker as [[]|]; simpl; try reflexivity;
    destruct (worker (this w)); reflexivity.
Qed.



(** The sibling path: [disposeLanguageClient(true)] followed by a
    connection start runs the new connection over the worker that was
    kept, and constructs none. *)
Lemma dispose_keep_reconnect_reuses_worker env w lc old c :
  languageClient (this w) = Some lc ->
  lc_running lc = true ->
  worker (this w) = Some old ->
  lcOptions w = Some c ->
  isSocketConfig c = false ->
  lc_dispose env (lc_id lc) = Succeeds ->
  let w1 := state (disposeLanguageClient env (Some true) w) in
  let out := startLanguageClientConnection env w1 in
  worker (this w1) = Some old
  /\ terminations old (trace (disposeLanguageClient env (Some true) w)) = 0
  /\ channelsUsed (trace out) = [WorkerChannel old; WorkerChannel old]
  /\ List.filter isNewWorker (trace out) = []
  /\ worker (this (state out)) = Some old.
Proof.
  intros Hl Hr Hw Hc Hs Hd w1 out. subst out w1.
  rewrite (dispose_run env (Some true) w lc Hl Hr), Hd.
  cbn [state trace fst snd disposeTrace truthyb].
  split; [exact Hw|]. split; [reflexivity|].
  rewrite connect_worker; [|reflexivity|].
  2:{ unfold socketBased, lcOptions in *. simpl. by rewrite Hc. }
  unfold obtainWorker. simpl. rewrite Hw.
  set (mt := workerTransports _ _). set (w2 := bump _).
  pose proof (handle_client_events env mt w2) as Hq.
  pose proof (handle_keeps_worker env mt w2) as Hk.
  destruct (handleLanguageClientStart env mt w2) as [[r s] ev].
  unfold trace, state in *; simpl in *.
  destruct (client_events_quiet ev old Hq) as (_ & Q2 & Q3).
  unfold channelsUsed in *. simpl. rewrite Q2, Q3, Hk, Hw. done.
Qed.

(** *** Close handlers *)

Lemma onClose_run env lcConfig w lc :
  languageClient (this w) = Some lc ->
  onCloseHandler env lcConfig w =
  match lc_stop env (lc_id lc) with
  | Succeeds => (Normal (Resolved tt), stopped lc w,
                 EvLcStop (lc_id lc)
                 :: hookTrace (socketStopOptions lcConfig) (this (stopped lc w)))
  | Fails e => (Normal (Rejected e), w, [EvLcStop (lc_id lc)])
  | Never => (Normal Pending, w, [EvLcStop (lc_id lc)])
  end.
Proof.
  intros Hl. unfold onCloseHandler, stopped. run. rewrite Hl. simpl.
  destruct (lc_stop env (lc_id lc)); simpl; try (destruct w; reflexivity).
  destruct (socketStopOptions lcConfig) as [o|]; simpl; [|reflexivity].
  destruct (truthyb _); reflexivity.
Qed.




(** The registry invariant survives a connection start. *)
Lemma handle_registryOk env mt w :
  registryOk w -> fst (reader mt) < nextObject w ->
  registryOk (state (handleLanguageClientStart env mt w)).
Proof.
  intros Hok Hlt. destruct (editorApp (this w)) as [a|] eqn:Ha.
  - rewrite (handle_run _ _ _ _ Ha). simpl.
    assert (registryOk (attached mt (newClient mt w a) w)) as Hatt.
    { unfold registryOk in *. simpl. apply Forall_app. split.
      - eapply Forall_impl; [exact Hok|]. simpl. intros; lia.
      - repeat constructor. simpl. lia. }
    destruct (lc_start env (nextObject w)); exact Hatt.
  - rewrite handle_no_app by done. exact Hok.
Qed.

Lemma bump_registryOk w : registryOk w -> registryOk (bump w).
Proof.
  unfold registryOk. simpl. intros H. eapply Forall_impl; [exact H|].
  simpl. intros; lia.
Qed.

Lemma connect_registryOk env w :
  registryOk w -> registryOk (state (startLanguageClientConnection env w)).
Proof.
  intros Hok. destruct (isRunning (this w)) eqn:Hr.
  { by rewrite connect_running. }
  destruct (socketBased w) eqn:Hs.
  - unfold socketBased in Hs. destruct (lcOptions w) as [c|] eqn:Hc; [|done].
    rewrite (connect_socket env w c) by done. simpl.
    destruct (socket_opens env (nextObject w)); [|by apply bump_registryOk].
    pose proof (handle_registryOk env (socketTransports (nextObject w))
                  (bump (bump w))) as Hh.
    destruct (handleLanguageClientStart _ _ _) as [[r s] ev]. simpl in *.
    apply Hh; [by do 2 apply bump_registryOk|lia].
  - rewrite connect_worker by done.
    destruct (obtainWorker w) as [[[wk w1] pre]|] eqn:Ho; [|done].
    destruct (obtainWorker_frame _ _ _ _ Ho) as (Hn & Hcl & _).
    pose proof (handle_registryOk env (workerTransports (nextObject w1) wk)
                  (bump w1)) as Hh.
    destruct (handleLanguageClientStart _ _ _) as [[r s] ev]. simpl in *.
    apply Hh; [|lia].
    unfold registryOk in *. simpl. rewrite Hcl.
    eapply Forall_impl; [exact Hok|]. simpl. intros; lia.
Qed.

(** *** The registry invariant along every run *)

Section Keeping.
Variable P : World -> Prop.

Lemma Keeps_bind {A B} (m : M A) (k : A -> M B) :
  Keeps P m -> (forall a, Keeps P (k a)) -> Keeps P (Js.bind m k).
Proof.
  intros Hm Hk w Hw. specialize (Hm w Hw). unfold bind, state in *.
  destruct (m w) as [[[a|r|] s] ev]; simpl in *; try done.
  specialize (Hk a s Hm). destruct (k a s) as [[c s'] ev']. done.
Qed.

Lemma Keeps_async {A} (m : M A) : Keeps P m -> Keeps P (async m).
Proof.
  intros Hm w Hw. specialize (Hm w Hw). unfold async, state in *.
  by destruct (m w) as [[[a|r|] s] ev].
Qed.

Lemma Keeps_try_catch {A} (m : M A) (h : Reason -> M A) :
  Keeps P m -> (forall r, Keeps P (h r)) -> Keeps P (try_catch m h).
Proof.
  intros Hm Hh w Hw. specialize (Hm w Hw). unfold try_catch, state in *.
  destruct (m w) as [[[a|r|] s] ev]; simpl in *; try done.
  specialize (Hh r s Hm). destruct (h r s) as [[c s'] ev']. done.
Qed.

Lemma Keeps_pure {A} (m : M A) : (forall w, state (m w) = w) -> Keeps P m.
Proof. intros H w Hw. by rewrite H. Qed.

Lemma Keeps_awaiting {A} (m : M (Promise A)) : Keeps P m -> Keeps P (awaiting m).
Proof.
  intros Hm. apply Keeps_bind; [done|]. intros p. apply Keeps_pure.
  intros w. by destruct p.
Qed.
End Keeping.

Lemma Keeps_update f : Keeps registryOk (update f).
Proof. intros w Hw. done. Qed.

Lemma Keeps_fresh : Keeps registryOk fresh.
Proof. intros w Hw. by apply bump_registryOk. Qed.

Lemma Keeps_connect env : Keeps registryOk (startLanguageClientConnection env).
Proof. intros w Hw. by apply connect_registryOk. Qed.

Lemma Keeps_initServicesOnce : Keeps registryOk initServicesOnce.
Proof.
  intros w Hw. unfold initServicesOnce, bind, gets, state. simpl.
  by destruct (vscodeApiInitialized w).
Qed.

Ltac keep :=
  repeat match goal with
  | |- Keeps _ (Js.bind _ _) => apply Keeps_bind; [|intros ?]
  | |- Keeps _ (async _) => apply Keeps_async
  | |- Keeps _ (awaiting _) => apply Keeps_awaiting
  | |- Keeps _ (try_catch _ _) => apply Keeps_try_catch; [|intros ?]
  | |- Keeps _ (update _) => apply Keeps_update
  | |- Keeps _ fresh => apply Keeps_fresh
  | |- Keeps _ initServicesOnce => apply Keeps_initServicesOnce
  | |- Keeps _ (startLanguageClientConnection _) => apply Keeps_connect
  | |- Keeps _ (match ?x with _ => _ end) => destruct x
  | |- Keeps _ _ => by apply Keeps_pure
  end.

Lemma Keeps_disposeLanguageClient env keepWorker :
  Keeps registryOk (disposeLanguageClient env keepWorker).
Proof. unfold disposeLanguageClient, callLanguageClient. keep. Qed.

Lemma Keeps_restartLanguageClient env updatedWorker keepWorker :
  Keeps registryOk (restartLanguageClient env updatedWorker keepWorker).
Proof.
  unfold restartLanguageClient.
  apply Keeps_async. apply Keeps_bind.
  { destruct updatedWorker; apply Keeps_awaiting, Keeps_disposeLanguageClient. }
  intros _. keep.
Qed.

Lemma Keeps_start env userConfig : Keeps registryOk (start env userConfig).
Proof. unfold start, init, disposeEditor, disposeDiffEditor. keep. Qed.

Lemma Keeps_dispose env : Keeps registryOk (dispose env).
Proof.
  unfold dispose, disposeEditor, disposeDiffEditor.
  apply Keeps_async. apply Keeps_bind; [keep|]. intros _.
  apply Keeps_bind; [keep|]. intros _.
  apply Keeps_bind; [keep|]. intros [cfg|]; [|keep].
  apply Keeps_bind; [apply Keeps_awaiting, Keeps_disposeLanguageClient|].
  intros _. keep.
Qed.

Lemma Keeps_onCloseHandler env lcConfig :
  Keeps registryOk (onCloseHandler env lcConfig).
Proof. unfold onCloseHandler, callLanguageClient, callHook, logStatus. keep. Qed.

Lemma Keeps_readerClosed env r : Keeps registryOk (readerClosed env r).
Proof.
  unfold readerClosed. apply Keeps_bind; [keep|]. intros hs.
  induction hs as [|[r' c] hs IH]; simpl; [keep|].
  apply Keeps_bind; [|intros _; exact IH].
  destruct (Nat.eqb r r'); [|keep].
  apply Keeps_bind; [apply Keeps_onCloseHandler|]. intros _. keep.
Qed.

(** Every reachable world satisfies the registry invariant. *)
Lemma Reachable_registryOk env w : Reachable env w -> registryOk w.
Proof.
  induction 1 as [w Hnil| | | | |].
  - unfold registryOk. rewrite Hnil. constructor.
  - by apply Keeps_start.
  - by apply Keeps_restartLanguageClient.
  - by apply Keeps_disposeLanguageClient.
  - by apply Keeps_dispose.
  - by apply Keeps_readerClosed.
Qed.

(** *** start *)

Lemma init_misconfigured env userConfig w :
  useDiffEditor (editorAppConfig (wrapperConfig userConfig)) = true ->
  truthy (codeOriginal (editorAppConfig (wrapperConfig userConfig))) = false ->
  init env userConfig w = (Throw (RError misconfiguredMsg), w, []).
Proof. intros Hd Ho. unfold init. rewrite Hd, Ho. reflexivity. Qed.

(** The public [start] passes a failed client start on to its caller. *)
Lemma start_failure env userConfig w n e :
  EvLcStart n ∈ trace (start env userConfig w) ->
  lc_start env n = Fails e ->
  result (start env userConfig w) = Normal (Rejected (RString (failedMsg e))).
Proof.
  unfold start, init, disposeEditor, disposeDiffEditor, initServicesOnce. run.
  destruct (_ && _); [intros Hin; members Hin; done|].
  destruct (uc_languageClientConfig userConfig) as [cfg|];
    destruct (editorApp (this w)) as [a|] eqn:Ha;
    destruct (vscodeApiInitialized w) eqn:Hv;
    destruct (languageClientConfig (this w)) as [cfg'|] eqn:Hl;
    repeat (progress (simpl; rewrite ?Ha, ?Hv, ?Hl)).
  all: try (match goal with
    | |- context [startLanguageClientConnection ?E ?W] =>
        pose proof (connect_failure E W) as Hc;
        destruct (startLanguageClientConnection E W) as [[c s] ev]
    end).
  all: intros Hin Hn.
  all: try destruct c as [[a1|r|]|r|]; unfold trace, result in *; simpl in *;
    members Hin;
    try (assert (EvLcStart n ∈ ev) as He by (intuition congruence);
         specialize (Hc n e He Hn));
    first [ congruence | intuition congruence ].
Qed.

(** The public [start] on a wrapper whose client is running replaces
    the editor app and opens no second transport. *)
Lemma start_running_opens_no_transport env userConfig w :
  isRunning (this w) = true ->
  let out := start env userConfig w in
  List.filter transportEvent (trace out) = []
  /\ languageClient (this (state out)) = languageClient (this w)
  /\ worker (this (state out)) = worker (this w).
Proof.
  intros Hr out. subst out.
  unfold start, init, disposeEditor, disposeDiffEditor, initServicesOnce. run.
  destruct (_ && _); [done|].
  destruct (uc_languageClientConfig userConfig) as [cfg|];
    destruct (editorApp (this w)) as [a|] eqn:Ha;
    destruct (vscodeApiInitialized w) eqn:Hv;
    destruct (languageClientConfig (this w)) as [cfg'|] eqn:Hl;
    repeat (progress (simpl; rewrite ?Ha, ?Hv, ?Hl)); try done.
  all: rewrite connect_running by exact Hr; done.
Qed.

End WrapperFacts.

(** * Properties of main.ts *)

Module CompFacts.
Import Js Comp.

Ltac run :=
  unfold setCode, setLanguageId, setModifiedCode, setModifiedLanguageId, setTheme,
    callFunction, applyOption, when, update, read,
    bind, ret, gets, modify, emit in *;
  simpl in *.

(** *** Theme switching *)

Lemma onSchemeChange_run matches w :
  onSchemeChange matches w = (Normal tt, themed matches w, [EvUpdateTheme]).
Proof. reflexivity. Qed.

Lemma themed_idem matches w : themed matches (themed matches w) = themed matches w.
Proof.
  unfold themed, on_this, on_wrapper, on_config, MonacoWrapper.updateTheme. simpl.
  destruct (MonacoWrapper.editor (monacoWrapper (this w))); reflexivity.
Qed.

Lemma runListeners_run n matches w :
  runListeners (S n) matches w
  = (Normal tt, themed matches w, repeat EvUpdateTheme (S n)).
Proof.
  revert w. induction n as [|n IH]; intros w.
  - reflexivity.
  - change (runListeners (S (S n)) matches)
      with (Js.bind (onSchemeChange matches) (fun _ => runListeners (S n) matches)).
    unfold bind. rewrite onSchemeChange_run, IH, themed_idem. reflexivity.
Qed.

(** *** Inline configuration lookup *)

Lemma build_plain win basename loggingName w f :
  win !! basename = Some (WFunction f) ->
  buildAndCallConfigFunction win basename loggingName w
  = (Normal f, w, [EvLog (usingMsg basename loggingName); EvCall basename]).
Proof. intros H. unfold buildAndCallConfigFunction. run. rewrite H. reflexivity. Qed.

Lemma build_suffixed win basename loggingName w g :
  isFunction (win !! basename) = false ->
  win !! (basename +:+ id (this w)) = Some (WFunction g) ->
  buildAndCallConfigFunction win basename loggingName w
  = (Normal g, w, [EvLog (usingMsg (basename +:+ id (this w)) loggingName);
                   EvCall (basename +:+ id (this w))]).
Proof.
  intros H1 H2. unfold buildAndCallConfigFunction. run. rewrite H1, H2. reflexivity.
Qed.

Lemma build_none win basename loggingName w :
  isFunction (win !! basename) = false ->
  isFunction (win !! (basename +:+ id (this w))) = false ->
  buildAndCallConfigFunction win basename loggingName w = (Normal None, w, []).
Proof.
  intros H1 H2. unfold buildAndCallConfigFunction. run. rewrite H1, H2. reflexivity.
Qed.

Lemma build_calls win basename loggingName w name :
  EvCall name ∈ trace (buildAndCallConfigFunction win basename loggingName w) ->
  (name = basename /\ isFunction (win !! basename) = true)
  \/ (name = basename +:+ id (this w)
      /\ isFunction (win !! basename) = false
      /\ isFunction (win !! name) = true).
Proof.
  destruct (isFunction (win !! basename)) eqn:H1.
  - destruct (win !! basename) as [[f|]|] eqn:Hb; try discriminate.
    rewrite (build_plain _ _ _ _ _ Hb). unfold trace; simpl.
    rewrite !elem_of_cons, elem_of_nil. intros [?|[[= ->]|[]]]; [discriminate|]. auto.
  - destruct (isFunction (win !! (basename +:+ id (this w)))) eqn:H2.
    + destruct (win !! (basename +:+ id (this w))) as [[g|]|] eqn:Hs; try discriminate.
      rewrite (build_suffixed _ _ _ _ _ H1 Hs). unfold trace; simpl.
      rewrite !elem_of_cons, elem_of_nil. intros [?|[[= ->]|[]]]; [discriminate|].
      right. rewrite Hs. auto.
    + rewrite build_none by done. unfold trace; simpl. by rewrite elem_of_nil.
Qed.

(** *** Property synchronisation *)

Section Steps.
Variable R : World -> World -> Prop.
Hypothesis R_refl : forall w, R w w.
Hypothesis R_trans : forall w1 w2 w3, R w1 w2 -> R w2 w3 -> R w1 w3.

Lemma Step_ret {A} (a : A) : Step R (ret a).
Proof using R_refl. intros w. split; [by exists a|apply R_refl]. Qed.

Lemma Step_emit e : Step R (emit e).
Proof using R_refl. intros w. split; [by exists tt|apply R_refl]. Qed.

Lemma Step_read {A} (f : CodeEditor -> A) : Step R (read f).
Proof using R_refl. intros w. split; [by eexists|apply R_refl]. Qed.

Lemma Step_bind {A B} (m : M A) (k : A -> M B) :
  Step R m -> (forall a, Step R (k a)) -> Step R (Js.bind m k).
Proof using R_trans.
  intros Hm Hk w. destruct (Hm w) as [[a Ha] HR].
  unfold bind, result, state in *.
  destruct (m w) as [[c s] ev]. simpl in *. subst c.
  destruct (Hk a s) as [[b Hb] HR'].
  destruct (k a s) as [[c' s'] ev']. simpl in *. eauto.
Qed.

Lemma Step_when b (m : M unit) : Step R m -> Step R (when b m).
Proof using R_refl. destruct b; [done|]. intros _. apply Step_ret. Qed.
End Steps.

Lemma slotsKept_refl w : slotsKept w w.
Proof. split; left; done. Qed.

Lemma slotsKept_trans w1 w2 w3 : slotsKept w1 w2 -> slotsKept w2 w3 -> slotsKept w1 w3.
Proof.
  intros [A1 B1] [A2 B2]. split.
  - destruct A2 as [[E1 E2]|?]; [|by right].
    destruct A1 as [[E3 E4]|?]; [left; split; congruence|right; congruence].
  - destruct B2 as [[E1 E2]|?]; [|by right].
    destruct B1 as [[E3 E4]|?]; [left; split; congruence|right; congruence].
Qed.

Ltac seq := apply Step_bind; [exact slotsKept_trans| |intros ?].
Ltac stop := first [ apply Step_ret | apply Step_emit | apply Step_read ];
             exact slotsKept_refl.

Lemma Step_update_other (f : CodeEditor -> CodeEditor) :
  (forall c, modifiedCode (f c) = modifiedCode c
             /\ modifiedLanguageId (f c) = modifiedLanguageId c
             /\ MonacoWrapper.codeModified (MonacoWrapper.editorConfig (monacoWrapper (f c)))
                = MonacoWrapper.codeModified (MonacoWrapper.editorConfig (monacoWrapper c))) ->
  Step slotsKept (update f).
Proof.
  intros Hf w. split; [by exists tt|].
  destruct (Hf (this w)) as (E1 & E2 & E3).
  unfold slotsKept, config, state; simpl. rewrite E1, E2, E3. split; left; done.
Qed.

Lemma Step_setCode v : Step slotsKept (setCode v).
Proof. unfold setCode. seq; apply Step_update_other; done. Qed.

Lemma Step_setLanguageId v : Step slotsKept (setLanguageId v).
Proof. unfold setLanguageId. seq; apply Step_update_other; done. Qed.

Lemma Step_setTheme v : Step slotsKept (setTheme v).
Proof. unfold setTheme. seq; apply Step_update_other; done. Qed.

Lemma Step_applyModifiedCode v : Step slotsKept (applyOption v setModifiedCode).
Proof.
  unfold applyOption, when. destruct (truthy v) eqn:Hv; [|stop].
  destruct v as [s|]; [|done]. intros w. split; [by exists tt|].
  unfold slotsKept, config, state; simpl. split; [right; done|left; done].
Qed.

Lemma Step_applyModifiedLanguageId v :
  Step slotsKept (applyOption v setModifiedLanguageId).
Proof.
  unfold applyOption, when. destruct (truthy v) eqn:Hv; [|stop].
  destruct v as [s|]; [|done]. intros w. split; [by exists tt|].
  unfold slotsKept, config, state; simpl. split; [left; done|right; done].
Qed.

Lemma Step_applyOption v (setter : string -> M unit) :
  (forall s, Step slotsKept (setter s)) -> Step slotsKept (applyOption v setter).
Proof.
  intros H. unfold applyOption. apply Step_when; [exact slotsKept_refl|apply H].
Qed.

Lemma Step_build win basename loggingName :
  Step slotsKept (buildAndCallConfigFunction win basename loggingName).
Proof.
  unfold buildAndCallConfigFunction, callFunction. seq; [stop|].
  destruct (isFunction _); [seq; [stop|seq; stop]|].
  destruct (isFunction _); [seq; [stop|seq; stop]|stop].
Qed.

Lemma Step_setMonacoEditorOptions o : Step slotsKept (setMonacoEditorOptions o).
Proof.
  unfold setMonacoEditorOptions. destruct o as [o|]; [|stop].
  seq; [apply Step_applyOption, Step_setCode|].
  seq; [apply Step_applyOption, Step_setLanguageId|].
  seq; [apply Step_applyOption, Step_setTheme|].
  apply Step_update_other; done.
Qed.

Lemma Step_setMonacoDiffEditorOptions o : Step slotsKept (setMonacoDiffEditorOptions o).
Proof.
  unfold setMonacoDiffEditorOptions. destruct o as [o|]; [|stop].
  seq; [apply Step_applyOption, Step_setCode|].
  seq; [apply Step_applyOption, Step_setLanguageId|].
  seq; [apply Step_applyModifiedCode|].
  seq; [apply Step_applyModifiedLanguageId|].
  seq; [apply Step_applyOption, Step_setTheme|].
  apply Step_update_other; done.
Qed.

Lemma Step_loadInlineConfig win : Step slotsKept (loadInlineConfig win).
Proof.
  unfold loadInlineConfig, retrieveMonacoEditorOptions, retrieveMonacoDiffEditorOptions.
  seq; [stop|]. apply Step_when; [exact slotsKept_refl|].
  seq.
  - seq; [stop|]. destruct a0; [|stop].
    seq; [apply Step_build|apply Step_setMonacoEditorOptions].
  - seq; [stop|]. destruct a1; [|stop].
    seq; [apply Step_build|apply Step_setMonacoDiffEditorOptions].
Qed.

Lemma sync_plain win w :
  exists w',
    syncPropertiesAndEditorConfig win false w
    = (Normal tt, w', [EvSetUseDiffEditor (truthyb (useDiffEditor (this w)))])
    /\ writtenThrough w w'.
Proof.
  unfold syncPropertiesAndEditorConfig, writtenThrough, truthyOr, config. run.
  destruct (truthy (modifiedCode (this w)));
    destruct (truthy (modifiedLanguageId (this w)));
    (eexists; split; [reflexivity|]); simpl; auto 10.
Qed.

Lemma sync_reload win w :
  exists w1 ev w',
    loadInlineConfig win w = (Normal tt, w1, ev)
    /\ syncPropertiesAndEditorConfig win true w
       = (Normal tt, w', ev ++ [EvSetUseDiffEditor (truthyb (useDiffEditor (this w1)))])
    /\ writtenThrough w1 w'.
Proof.
  destruct (Step_loadInlineConfig win w) as [[[] Ha] _].
  destruct (sync_plain win) with (w := state (loadInlineConfig win w)) as (w' & Hp & Hw).
  unfold result, state in *. destruct (loadInlineConfig win w) as [[c w1] ev] eqn:Hl.
  simpl in *. subst c.
  exists w1, ev, w'. split; [done|]. split; [|done].
  unfold syncPropertiesAndEditorConfig in *.
  unfold when at 1. unfold bind at 1. rewrite Hl.
  unfold when at 1 in Hp. unfold bind at 1, ret at 1 in Hp.
  destruct (bind _ _ w1) as [[c s] ev'].
  injection Hp as -> -> ->. reflexivity.
Qed.

End CompFacts.

(** * The contract of the language client wrapper *)

Module WrapperSpec.
Import Js Wrapper Samples WrapperFacts.

(** ** Restart and the worker handle *)

(** C1 (the code departs from it): [restartLanguageClient(undefined, true)]
    on a wrapper whose client runs over a worker built from a
    [WorkerConfig] descriptor does not terminate the stored worker,
    yet drops the handle: [this.worker = updatedWorker] stores
    [undefined], the connection start then constructs a new Worker,
    stores it and binds the reader and the writer to it. *)
Theorem restart_keepWorker_constructs_new_worker env w lc old url type name :
  languageClient (this w) = Some lc ->
  lc_running lc = true ->
  worker (this w) = Some old ->
  lcOptions w = Some (WorkerConfig url type name) ->
  lc_dispose env (lc_id lc) = Succeeds ->
  let out := restartLanguageClient env None (Some true) w in
  let made := WorkerObj (nextObject w) in
  terminations old (trace out) = 0
  /\ List.filter isNewWorker (trace out) = [EvNewWorker made url type name]
  /\ channelsUsed (trace out) = [WorkerChannel made; WorkerChannel made]
  /\ worker (this (state out)) = Some made.
Proof.
  intros Hl Hr Hw Hc Hd out made. subst out made.
  unfold restartLanguageClient. run.
  rewrite (dispose_run env (Some true) w lc Hl Hr), Hd. simpl.
  unfold lcOptions in Hc.
  destruct (languageClientConfig (this w)) as [cfg|] eqn:Hcfg; [|done]. simpl.
  simpl in Hc. injection Hc as Hc.
  rewrite connect_worker; [| reflexivity | ].
  2:{ unfold socketBased, lcOptions. simpl. rewrite Hcfg. simpl. by rewrite Hc. }
  unfold obtainWorker, lcOptions; simpl. rewrite Hcfg. simpl. rewrite Hc.
  set (mt := workerTransports _ _). set (w2 := bump _).
  pose proof (handle_client_events env mt w2) as Hq.
  pose proof (handle_keeps_worker env mt w2) as Hk.
  destruct (handle_normal env mt w2) as [p Hp].
  destruct (handleLanguageClientStart env mt w2) as [[r s] ev].
  unfold trace, state, result in *; simpl in *. subst r.
  destruct (client_events_quiet ev old Hq) as (Q1 & Q2 & Q3).
  destruct p; simpl; rewrite ?app_nil_r;
    rewrite !terminations_cons, Q1; simpl;
    unfold channelsUsed in *; simpl; rewrite Q2, Q3; done.
Qed.

Lemma restart_keepWorker_constructs_new_worker_witness :
  worker (this workerWorld) = Some (WorkerObj 1)
  /\ let out := restartLanguageClient calm None (Some true) workerWorld in
     terminations (WorkerObj 1) (trace out) = 0
     /\ List.filter isNewWorker (trace out)
        = [EvNewWorker (WorkerObj 4) "./worker.js" module None]
     /\ channelsUsed (trace out)
        = [WorkerChannel (WorkerObj 4); WorkerChannel (WorkerObj 4)]
     /\ worker (this (state out)) = Some (WorkerObj 4).
Proof.
  split; [reflexivity|].
  eapply (restart_keepWorker_constructs_new_worker calm workerWorld);
    vm_compute; reflexivity.
Defined.




(** ** Starting the connection *)

(** C2: with a running client, [startLanguageClientConnection]
    returns a promise that is already resolved, records no event (no
    WebSocket, worker, reader or writer is constructed) and leaves
    the world, hence the stored client and worker, as they were; and
    the public [start], which ends in that call, constructs no
    transport and no client either and keeps the stored client and
    worker. *)
Theorem connection_start_idempotent env w :
  isRunning (this w) = true ->
  (let out := startLanguageClientConnection env w in
   result out = Normal (Resolved "monaco-languageclient already running!")
   /\ trace out = []
   /\ state out = w)
  /\ (forall userConfig,
        let out := start env userConfig w in
        List.filter transportEvent (trace out) = []
        /\ languageClient (this (state out)) = languageClient (this w)
        /\ worker (this (state out)) = worker (this w)).
Proof.
  intros H. split.
  - unfold startLanguageClientConnection. run. rewrite H. repeat split.
  - intros userConfig. exact (start_running_opens_no_transport env userConfig w H).
Qed.

Lemma connection_start_idempotent_witness :
  isRunning (this workerWorld) = true
  /\ let out := startLanguageClientConnection calm workerWorld in
     result out = Normal (Resolved "monaco-languageclient already running!")
     /\ trace out = []
     /\ state out = workerWorld.
Proof.
  split; [reflexivity|].
  apply (proj1 (connection_start_idempotent calm workerWorld eq_refl)).
Defined.

(** C6: if the connection start reaches [languageClient.start()] and
    that call rejects with [e], the promise of the connection start
    is rejected with the string
    "monaco-languageclient start was unsuccessful: " followed by [e];
    the [resolve] that follows the [catch] block does not undo it.
    The public [start] awaits that promise, so its own promise is
    rejected with the same string. *)
Theorem connection_start_failure_rejects env w n e :
  EvLcStart n ∈ trace (startLanguageClientConnection env w) ->
  lc_start env n = Fails e ->
  result (startLanguageClientConnection env w)
  = Normal (Rejected (RString ("monaco-languageclient start was unsuccessful: "
                               +:+ toString e)))
  /\ (forall userConfig w',
        EvLcStart n ∈ trace (start env userConfig w') ->
        result (start env userConfig w')
        = Normal (Rejected (RString ("monaco-languageclient start was unsuccessful: "
                                     +:+ toString e)))).
Proof.
  intros Hin Hn. split.
  - exact (connect_failure env w n e Hin Hn).
  - intros userConfig w' Hin'. exact (start_failure env userConfig w' n e Hin' Hn).
Qed.

Lemma connection_start_failure_rejects_witness :
  EvLcStart 5 ∈ trace (startLanguageClientConnection unstartable failedWorld)
  /\ result (startLanguageClientConnection unstartable failedWorld)
     = Normal (Rejected (RString
         "monaco-languageclient start was unsuccessful: Error: boom")).
Proof.
  assert (EvLcStart 5 ∈ trace (startLanguageClientConnection unstartable failedWorld))
    as Hin by (vm_compute; repeat constructor).
  split; [exact Hin|].
  exact (proj1 (connection_start_failure_rejects unstartable failedWorld 5 boom
                  Hin eq_refl)).
Defined.

(** ** Misconfiguration *)

(** C3, as amended: with the diff-editor flag set and no (or an
    empty) original code, [init] throws the misconfiguration error
    synchronously, and [start], being an async function, returns a
    promise rejected with that error; no event is recorded (no editor
    is disposed or created) and the world is unchanged. *)
Theorem start_misconfigured_rejects env userConfig w :
  useDiffEditor (editorAppConfig (wrapperConfig userConfig)) = true ->
  truthy (codeOriginal (editorAppConfig (wrapperConfig userConfig))) = false ->
  init env userConfig w
  = (Throw (RError "Use diff editor was used without a valid config."), w, [])
  /\ start env userConfig w
     = (Normal (Rejected (RError "Use diff editor was used without a valid config.")),
        w, []).
Proof.
  intros Hd Ho.
  pose proof (init_misconfigured env userConfig w Hd Ho) as Hi.
  split; [exact Hi|].
  unfold start, async, bind. rewrite Hi. reflexivity.
Qed.

Lemma start_misconfigured_rejects_witness :
  let bad := userConfig (jsonApp true (Some "")) (Some workerCfg) in
  init calm bad workerWorld
  = (Throw (RError "Use diff editor was used without a valid config."), workerWorld, [])
  /\ start calm bad workerWorld
     = (Normal (Rejected (RError "Use diff editor was used without a valid config.")),
        workerWorld, []).
Proof.
  apply (start_misconfigured_rejects calm
           (userConfig (jsonApp true (Some "")) (Some workerCfg)) workerWorld);
    reflexivity.
Defined.

(** C3 as stated fails: the call [start(userConfig)] with the
    diff-editor flag set and no original code does not complete by
    throwing; it returns a rejected promise. *)
Lemma start_misconfigured_returns_promise :
  let bad := userConfig (jsonApp true None) None in
  useDiffEditor (editorAppConfig (wrapperConfig bad)) = true
  /\ codeOriginal (editorAppConfig (wrapperConfig bad)) = None
  /\ result (start calm bad world0)
     = Normal (Rejected (RError "Use diff editor was used without a valid config."))
  /\ ~ (exists r, result (start calm bad world0) = Throw r).
Proof.
  repeat split. intros [r Hr]. vm_compute in Hr. discriminate Hr.
Qed.

(** ** Disposal in the wrong state *)

(** C4: without a running client, [disposeLanguageClient] returns a
    promise rejected with the state-mismatch message; the call itself
    completes normally, records no event and leaves the world (so the
    client and worker handles) unchanged. *)
Theorem dispose_not_started_rejects env keepWorker w :
  isRunning (this w) = false ->
  disposeLanguageClient env keepWorker w
  = (Normal (Rejected (RString
       "Unable to dispose monaco-languageclient: It is not yet started.")), w, []).
Proof.
  unfold isRunning, disposeLanguageClient, async, bind, gets. simpl.
  destruct (languageClient (this w)) as [lc|]; [intros ->|intros _]; reflexivity.
Qed.

Lemma dispose_not_started_rejects_witness :
  isRunning (this world0) = false
  /\ isRunning (this failedWorld) = false
  /\ disposeLanguageClient calm None world0
     = (Normal (Rejected (RString
          "Unable to dispose monaco-languageclient: It is not yet started.")),
        world0, [])
  /\ disposeLanguageClient calm (Some true) failedWorld
     = (Normal (Rejected (RString
          "Unable to dispose monaco-languageclient: It is not yet started.")),
        failedWorld, []).
Proof.
  split; [reflexivity|]. split; [reflexivity|]. split.
  - apply (dispose_not_started_rejects calm None world0). reflexivity.
  - apply (dispose_not_started_rejects calm (Some true) failedWorld). reflexivity.
Defined.

(** ** Transport close *)




End WrapperSpec.

(** * The contract of the web component *)

Module CompSpec.
Import Js Comp CompSamples CompFacts.

(** ** Theme auto-switching *)

(** C8: once the component has registered its listener, a change of
    the colour-scheme preference sets the [theme] property to
    ['vs-dark'] when dark is preferred and to ['vs-light'] otherwise,
    stores it in the wrapper's configuration, and does nothing but
    call [updateTheme] (once per registered listener): the editor
    instance is the same as before and shows the new theme. *)
Theorem scheme_change_updates_theme matches w :
  0 < schemeListeners w ->
  let out := schemeChanged matches w in
  let c' := this (state out) in
  result out = Normal tt
  /\ theme c' = (if matches then "vs-dark" else "vs-light")
  /\ MonacoWrapper.theme (config (state out)) = theme c'
  /\ trace out = repeat EvUpdateTheme (schemeListeners w)
  /\ MonacoWrapper.editor (monacoWrapper c')
     = MonacoWrapper.editor (monacoWrapper (this w))
  /\ (forall i, MonacoWrapper.editor (monacoWrapper (this w)) = Some i ->
                MonacoWrapper.editorTheme (monacoWrapper c') = Some (theme c')).
Proof.
  intros Hn out c'. subst c' out.
  destruct (schemeListeners w) as [|n] eqn:Hs; [inversion Hn|].
  assert (schemeChanged matches w
          = (Normal tt, themed matches w, repeat EvUpdateTheme (S n))) as ->.
  { unfold schemeChanged, bind, gets. cbn beta iota. rewrite Hs.
    by rewrite runListeners_run. }
  cbn [result state trace fst snd].
  do 5 (split; [reflexivity|]).
  intros i Hi. unfold themed, on_this, on_wrapper, MonacoWrapper.updateTheme. simpl.
  rewrite Hi. reflexivity.
Qed.

Lemma scheme_change_updates_theme_witness :
  schemeListeners renderedWorld = 1
  /\ MonacoWrapper.editor (monacoWrapper (this renderedWorld)) = Some 0
  /\ let out := schemeChanged true renderedWorld in
     theme (this (state out)) = "vs-dark"
     /\ trace out = [EvUpdateTheme]
     /\ MonacoWrapper.editor (monacoWrapper (this (state out))) = Some 0
     /\ MonacoWrapper.editorTheme (monacoWrapper (this (state out))) = Some "vs-dark".
Proof.
  assert (0 < schemeListeners renderedWorld) as Hn by (vm_compute; lia).
  destruct (scheme_change_updates_theme true renderedWorld Hn)
    as (_ & Ht & _ & Htr & He & Hshown).
  split; [reflexivity|]. split; [reflexivity|]. cbv zeta.
  split; [exact Ht|]. split; [exact Htr|]. split; [exact He|].
  rewrite (Hshown 0 eq_refl), Ht. reflexivity.
Defined.

(** ** Inline configuration *)

(** C9: when the plain function and the id-suffixed function are both
    functions on [window], the plain one is called, its options are
    returned and no other function is called.  For any window, a
    function under another name than the plain one is called only if
    the plain name holds no function, and then it is the id-suffixed
    name; and when the plain name holds no function and the suffixed
    one does, the suffixed one is called. *)
Theorem inline_config_prefers_plain win basename loggingName w f g :
  win !! basename = Some (WFunction f) ->
  win !! (basename +:+ id (this w)) = Some (WFunction g) ->
  buildAndCallConfigFunction win basename loggingName w
  = (Normal f, w,
     [EvLog ("Using config supplied by " +:+ basename +:+ " for "
             +:+ loggingName +:+ "."); EvCall basename])
  /\ (forall (win' : gmap string WindowValue) name,
        EvCall name ∈ trace (buildAndCallConfigFunction win' basename loggingName w) ->
        name <> basename ->
        isFunction (win' !! basename) = false /\ name = basename +:+ id (this w))
  /\ (forall (win' : gmap string WindowValue),
        isFunction (win' !! basename) = false ->
        win' !! (basename +:+ id (this w)) = Some (WFunction g) ->
        result (buildAndCallConfigFunction win' basename loggingName w) = Normal g
        /\ EvCall (basename +:+ id (this w))
           ∈ trace (buildAndCallConfigFunction win' basename loggingName w)).
Proof.
  intros Hplain _. split; [exact (build_plain win basename loggingName w f Hplain)|].
  split.
  - intros win' name Hin Hne.
    destruct (build_calls win' basename loggingName w name Hin)
      as [[Heq _]|(Heq & Hno & _)]; [contradiction|auto].
  - intros win' Hno Hsuf.
    rewrite (build_suffixed win' basename loggingName w g Hno Hsuf).
    split; [reflexivity|]. unfold trace; simpl.
    apply elem_of_cons. right. apply list_elem_of_singleton. reflexivity.
Qed.

Lemma inline_config_prefers_plain_witness :
  page !! "getMonacoEditorOptions" = Some (WFunction (Some plainOptions))
  /\ page !! "getMonacoEditorOptionsed1" = Some (WFunction (Some suffixedOptions))
  /\ buildAndCallConfigFunction page "getMonacoEditorOptions" "editor" world0
     = (Normal (Some plainOptions), world0,
        [EvLog "Using config supplied by getMonacoEditorOptions for editor.";
         EvCall "getMonacoEditorOptions"]).
Proof.
  assert (page !! "getMonacoEditorOptions" = Some (WFunction (Some plainOptions)))
    as Hplain by (vm_compute; reflexivity).
  assert (page !! ("getMonacoEditorOptions" +:+ id (this world0))
          = Some (WFunction (Some suffixedOptions)))
    as Hsuf by (vm_compute; reflexivity).
  split; [exact Hplain|]. split; [exact Hsuf|].
  exact (proj1 (inline_config_prefers_plain page "getMonacoEditorOptions" "editor"
                  world0 _ _ Hplain Hsuf)).
Defined.

(** ** Property synchronisation *)

(** C10: after [syncPropertiesAndEditorConfig], whatever the flag and
    the page, the configuration holds the [code], [languageId] and
    [theme] properties, the diff-editor flag was handed to the
    wrapper ([useDiffEditor || false]) and is stored, and a modified
    slot whose property is falsy is the one from before the call.
    Without inline reload the properties themselves are unchanged. *)
Theorem sync_writes_through win reloadInlineConfig w :
  let out := syncPropertiesAndEditorConfig win reloadInlineConfig w in
  let c' := this (state out) in
  let cfg' := config (state out) in
  result out = Normal tt
  /\ MonacoWrapper.codeOriginal cfg' = (code c', languageId c')
  /\ MonacoWrapper.theme cfg' = theme c'
  /\ MonacoWrapper.useDiffEditor cfg' = truthyb (useDiffEditor c')
  /\ EvSetUseDiffEditor (truthyb (useDiffEditor c')) ∈ trace out
  /\ (truthy (modifiedCode c') = false ->
      fst (MonacoWrapper.codeModified cfg') = fst (MonacoWrapper.codeModified (config w)))
  /\ (truthy (modifiedLanguageId c') = false ->
      snd (MonacoWrapper.codeModified cfg') = snd (MonacoWrapper.codeModified (config w)))
  /\ (reloadInlineConfig = false -> properties c' = properties (this w)).
Proof.
  destruct reloadInlineConfig.
  - destruct (sync_reload win w) as (w1 & ev & w' & Hl & -> & Hw).
    destruct (Step_loadInlineConfig win w) as [_ [HA HB]].
    rewrite Hl in HA, HB. unfold state in HA, HB; simpl in HA, HB.
    destruct Hw as (Hp & H1 & H2 & H3 & H4 & H5).
    unfold properties in Hp. injection Hp as P1 P2 P3 P4 P5 P6.
    unfold state, result, trace; simpl.
    rewrite P1, P2, P3, P4, P5, P6, H1, H2, H3, H4, H5. unfold truthyOr.
    repeat split; try done.
    + rewrite elem_of_app, list_elem_of_singleton. by right.
    + intros Hf. rewrite Hf. destruct HA as [[_ ?]|?]; congruence.
    + intros Hf. rewrite Hf. destruct HB as [[_ ?]|?]; congruence.
  - destruct (sync_plain win w) as (w' & -> & Hw).
    destruct Hw as (Hp & H1 & H2 & H3 & H4 & H5).
    pose proof Hp as Hp'.
    unfold properties in Hp. injection Hp as P1 P2 P3 P4 P5 P6.
    unfold state, result, trace; simpl.
    rewrite P1, P2, P3, P4, P5, P6, H1, H2, H3, H4, H5. unfold truthyOr.
    repeat split; try done.
    + by rewrite list_elem_of_singleton.
    + by intros ->.
    + by intros ->.
Qed.

Lemma sync_writes_through_witness :
  let out := syncPropertiesAndEditorConfig page true world0 in
  modifiedCode (this (state out)) = Some ""
  /\ MonacoWrapper.codeModified (config world0) = ("old", "javascript")
  /\ fst (MonacoWrapper.codeModified (config (state out))) = "old"
  /\ MonacoWrapper.codeOriginal (config (state out))
     = (code (this (state out)), languageId (this (state out))).
Proof.
  destruct (sync_writes_through page true world0)
    as (_ & Horig & _ & _ & _ & Hcode & _ & _).
  split; [vm_compute; reflexivity|]. split; [reflexivity|].
  split; [|exact Horig].
  rewrite Hcode; [reflexivity|]. vm_compute. reflexivity.
Defined.

End CompSpec.

(** * The model at work *)

Module WrapperExamples.
Import Js Wrapper Samples.

Example start_worker_trace :
  start calm (userConfig (jsonApp false None) (Some workerCfg)) world0
  = (Normal (Resolved tt), workerWorld,
     [ EvNewEditorApp Classic "editor1"; EvInitServices; EvEditorAppInit;
       EvCreateEditors (Some 7); EvLog "Starting monaco-languageclient";
       EvNewWorker (WorkerObj 1) "./worker.js" module None;
       EvNewReader 2 (WorkerChannel (WorkerObj 1));
       EvNewWriter (WorkerChannel (WorkerObj 1));
       EvNewLanguageClient 3; EvOnClose 2; EvLcStart 3 ]).
Proof. vm_compute. reflexivity. Qed.

Example workerWorld_running :
  isStarted (this workerWorld) = true
  /\ getWorker (this workerWorld) = Some (WorkerObj 1)
  /\ closeHandlers workerWorld = [(2, Some workerCfg)].
Proof. vm_compute. repeat split. Qed.

Example start_socket_trace :
  trace (start calm (userConfig (jsonApp false None) (Some socketCfg)) world0)
  = [ EvNewEditorApp Classic "editor1"; EvInitServices; EvEditorAppInit;
      EvCreateEditors (Some 7); EvLog "Starting monaco-languageclient";
      EvNewWebSocket 1 "ws://localhost"; EvSocketOpen 1;
      EvNewReader 2 (SocketChannel 1); EvNewWriter (SocketChannel 1);
      EvNewLanguageClient 3; EvOnClose 2; EvLcStart 3; EvOnCall 1 ].
Proof. vm_compute. reflexivity. Qed.

(** A second [start] on a running wrapper replaces the editor app but
    opens no second transport. *)
Example start_twice_trace :
  trace (start calm (userConfig (jsonApp false None) (Some workerCfg)) workerWorld)
  = [ EvDisposeEditor; EvDisposeDiffEditor; EvNewEditorApp Classic "editor1";
      EvEditorAppInit; EvCreateEditors (Some 7);
      EvLog "Starting monaco-languageclient" ].
Proof. vm_compute. reflexivity. Qed.

(** With a [WorkerDirect] configuration the kept worker is fetched
    again from the configuration, so a restart that keeps the worker
    ends up on the same handle. *)
Example restart_keep_direct :
  let w := state (start calm (userConfig (jsonApp false None)
                                (Some (WorkerDirect (WorkerObj 8)))) world0) in
  let out := restartLanguageClient calm None (Some true) w in
  worker (this w) = Some (WorkerObj 8)
  /\ worker (this (state out)) = Some (WorkerObj 8)
  /\ channelsUsed (trace out)
     = [WorkerChannel (WorkerObj 8); WorkerChannel (WorkerObj 8)]
  /\ terminations (WorkerObj 8) (trace out) = 0.
Proof. vm_compute. repeat split. Qed.

(** A socket that never opens leaves the start pending. *)
Example start_socket_never_opens :
  let deaf := {| createUrl := sampleUrl; lc_start := fun _ => Succeeds;
                 lc_stop := fun _ => Succeeds; lc_dispose := fun _ => Succeeds;
                 socket_opens := fun _ => false; random_id := "42" |} in
  result (start deaf (userConfig (jsonApp false None) (Some socketCfg)) world0)
  = Normal Pending.
Proof. vm_compute. reflexivity. Qed.

Example dispose_then_restart_rejects :
  let w := state (dispose calm workerWorld) in
  editorApp (this w) = None
  /\ result (restartLanguageClient calm None None w)
     = Normal (Rejected (RString notStartedMsg)).
Proof. vm_compute. repeat split. Qed.

End WrapperExamples.

Module CompExamples.
Import Js Comp CompSamples.

(** First render with attributes code="x", language-id="json",
    theme="vs-light": the configuration holds exactly these, and
    diff mode is off. *)
Example first_render_config :
  let cfg := config renderedWorld in
  MonacoWrapper.codeOriginal cfg = ("x", "json")
  /\ MonacoWrapper.theme cfg = "vs-light"
  /\ MonacoWrapper.useDiffEditor cfg = false
  /\ schemeListeners renderedWorld = 1.
Proof. vm_compute. repeat split. Qed.

Example suffixed_function_used :
  trace (buildAndCallConfigFunction suffixedPage "getMonacoDiffEditorOptions"
           "diff editor" world0)
  = [EvLog "Using config supplied by getMonacoDiffEditorOptionsed1 for diff editor.";
     EvCall "getMonacoDiffEditorOptionsed1"].
Proof. vm_compute. reflexivity. Qed.

(** Inline options with a modified code make the property truthy, so
    the slot is written. *)
Example sync_with_inline_modified_code :
  let out := syncPropertiesAndEditorConfig suffixedPage true world0 in
  modifiedCode (this (state out)) = Some "print(2)"
  /\ MonacoWrapper.codeModified (config (state out)) = ("print(2)", "javascript")
  /\ MonacoWrapper.codeOriginal (config (state out)) = ("print(1)", "python").
Proof. vm_compute. repeat split. Qed.

End CompExamples.


(** * Further facts about wrapper.ts *)

Module WrapperMoreFacts.
Import Js Wrapper WrapperMore WrapperFacts.

(** ** dispose *)

Lemma disposeEditors_run w :
  (disposeEditor ;; disposeDiffEditor) w
  = (Normal tt, on_this editorsDisposed w, disposeEditorsTrace (this w)).
Proof.
  destruct w as [t v c n].
  unfold disposeEditor, disposeDiffEditor, editorsDisposed, disposeEditorsTrace,
    on_this. run.
  destruct (editorApp t) as [a|] eqn:Ha; simpl; rewrite ?Ha; reflexivity.
Qed.

Lemma bind_assoc {S E A B C} (m : Js.M S E A) (k : A -> Js.M S E B)
    (h : B -> Js.M S E C) w :
  Js.bind (Js.bind m k) h w = Js.bind m (fun a => Js.bind (k a) h) w.
Proof.
  unfold bind. destruct (m w) as [[[a|r|] s] ev]; try reflexivity.
  destruct (k a s) as [[[b|r|] s'] ev']; try reflexivity.
  destruct (h b s') as [[c s''] ev'']. by rewrite app_assoc.
Qed.

Lemma dispose_split env w :
  dispose env w =
  match languageClientConfig (this w) with
  | Some _ =>
      let '(r, s, ev) := disposeLanguageClient env (Some false)
                           (on_this editorsDisposed w) in
      (awaited r,
       match r with
       | Normal (Resolved _) => on_this (set_editorApp None) s
       | _ => s
       end,
       disposeEditorsTrace (this w) ++ ev)
  | None => (Normal (Resolved tt), on_this editorsDisposed w,
             disposeEditorsTrace (this w))
  end.
Proof.
  unfold dispose, async. rewrite <- bind_assoc.
  unfold bind at 1. rewrite disposeEditors_run.
  assert (languageClientConfig (this (on_this editorsDisposed w))
          = languageClientConfig (this w)) as Hcfg.
  { unfold editorsDisposed. simpl. by destruct (editorApp (this w)). }
  unfold bind at 1. unfold read, gets. rewrite Hcfg.
  destruct (languageClientConfig (this w)); simpl.
  - unfold awaiting, bind, await, update, modify.
    destruct (disposeLanguageClient env (Some false) (on_this editorsDisposed w))
      as [[[[[]|e|]|e|] s] ev]; simpl; rewrite ?app_nil_r; reflexivity.
  - by rewrite app_nil_r.
Qed.

(** A full [dispose()] of a wrapper with a running client. *)
Lemma dispose_resolved env w cfg lc :
  languageClientConfig (this w) = Some cfg ->
  languageClient (this w) = Some lc ->
  lc_running lc = true ->
  lc_dispose env (lc_id lc) = Succeeds ->
  let out := dispose env w in
  result out = Normal (Resolved tt)
  /\ trace out = disposeEditorsTrace (this w)
                 ++ EvLcDispose (lc_id lc)
                    :: match worker (this w) with
                       | Some wk => [EvTerminate wk]
                       | None => []
                       end
  /\ languageClient (this (state out)) = None
  /\ worker (this (state out)) = None
  /\ editorApp (this (state out)) = None
  /\ isStarted (this (state out)) = false.
Proof.
  intros Hcfg Hl Hr Hd out. subst out. rewrite dispose_split, Hcfg.
  assert (languageClient (this (on_this editorsDisposed w)) = Some lc) as Hl'.
  { unfold editorsDisposed. simpl. by destruct (editorApp (this w)). }
  assert (worker (this (on_this editorsDisposed w)) = worker (this w)) as Hw.
  { unfold editorsDisposed. simpl. by destruct (editorApp (this w)). }
  rewrite (dispose_run env (Some false) _ lc Hl' Hr), Hd.
  unfold disposeTrace. cbn [truthyb]. rewrite Hw.
  unfold result, trace, state. simpl. done.
Qed.

(** [dispose()] with a configuration but no running client. *)
Lemma dispose_idle env w cfg :
  languageClientConfig (this w) = Some cfg ->
  isRunning (this w) = false ->
  dispose env w
  = (Normal (Rejected (RString notStartedMsg)), on_this editorsDisposed w,
     disposeEditorsTrace (this w)).
Proof.
  intros Hcfg Hr. rewrite dispose_split, Hcfg.
  assert (isRunning (this (on_this editorsDisposed w)) = false) as Hr'.
  { unfold editorsDisposed, isRunning in *. simpl. by destruct (editorApp (this w)). }
  rewrite (dispose_not_running env (Some false) _ Hr'). by rewrite app_nil_r.
Qed.

Lemma editorsDisposed_app t :
  editorApp (editorsDisposed t) = None <-> editorApp t = None.
Proof.
  unfold editorsDisposed. destruct (editorApp t) as [a|] eqn:Ha; simpl; rewrite ?Ha; done.
Qed.

(** ** start *)

Lemma start_split env userConfig w :
  start env userConfig w =
  if misconfigured userConfig
  then (Normal (Rejected (RError misconfiguredMsg)), w, [])
  else
    let w1 := startPrepared env userConfig w in
    match languageClientConfig (this w1) with
    | Some _ =>
        let '(r, s, ev) := startLanguageClientConnection env w1 in
        (awaited r, s,
         startPrefix env userConfig w ++ EvLog "Starting monaco-languageclient" :: ev)
    | None => (Normal (Resolved tt), w1, startPrefix env userConfig w)
    end.
Proof.
  unfold start. generalize (startLanguageClientConnection env). intros conn.
  destruct w as [[lc wk app i h sc cfg] v c n].
  unfold init, disposeEditor, disposeDiffEditor, initServicesOnce,
    misconfigured, startPrepared, startPrefix, startedApp, initialised,
    disposeEditorsTrace.
  run.
  destruct (_ && _); [reflexivity|].
  destruct (uc_languageClientConfig userConfig) as [c'|];
    destruct app as [a|]; destruct v; try destruct cfg as [cfg'|]; simpl;
    try reflexivity;
    match goal with
    | |- context [conn ?W] => remember (conn W) as out eqn:Hout
    end;
    match goal with
    | |- context [conn ?W] => replace (conn W) with out by (rewrite Hout; reflexivity)
    end;
    destruct out as [[[[x|e|]|e|] s] ev]; simpl; rewrite ?app_nil_r; reflexivity.
Qed.

Lemma restart_split env updatedWorker keepWorker w :
  restartLanguageClient env updatedWorker keepWorker w =
  let '(r, w1, ev) :=
    disposeLanguageClient env
      (match updatedWorker with Some _ => Some false | None => keepWorker end) w in
  match r with
  | Normal (Resolved _) =>
      let w2 := on_this (set_worker updatedWorker) w1 in
      match languageClientConfig (this w1) with
      | Some _ =>
          let '(r2, s, ev2) := startLanguageClientConnection env w2 in
          (awaited r2, s, ev ++ EvLog "Re-Starting monaco-languageclient" :: ev2)
      | None => (Normal (Rejected (RString noConfigMsg)), w2, ev)
      end
  | _ => (awaited r, w1, ev)
  end.
Proof.
  unfold restartLanguageClient.
  generalize (startLanguageClientConnection env) (disposeLanguageClient env).
  intros conn disp.
  destruct updatedWorker as [u|]; run;
    match goal with
    | |- context [disp ?K w] => destruct (disp K w) as [[[[[]|e|]|e|] w1] ev]
    end; simpl; rewrite ?app_nil_r; try reflexivity;
    destruct w1 as [t v c n]; simpl;
    (destruct (languageClientConfig t) as [cfg|]; simpl;
      [|rewrite ?app_nil_r; reflexivity]);
    match goal with
    | |- context [conn ?W] => destruct (conn W) as [[[[x|e|]|e|] s] ev2]
    end; simpl; rewrite ?app_nil_r; reflexivity.
Qed.

(** What a connection start leaves alone. *)
Lemma handle_frame env mt w :
  let s := state (handleLanguageClientStart env mt w) in
  editorApp (this s) = editorApp (this w)
  /\ languageClientConfig (this s) = languageClientConfig (this w)
  /\ vscodeApiInitialized s = vscodeApiInitialized w
  /\ nextObject w <= nextObject s.
Proof.
  destruct (editorApp (this w)) as [a|] eqn:Ha.
  - rewrite (handle_run _ _ _ _ Ha). simpl.
    destruct (lc_start env (nextObject w)); simpl; auto with lia.
  - rewrite handle_no_app by done. simpl. auto.
Qed.

Lemma obtainWorker_keeps w wk w1 pre :
  obtainWorker w = Some (wk, w1, pre) ->
  editorApp (this w1) = editorApp (this w)
  /\ languageClient (this w1) = languageClient (this w)
  /\ vscodeApiInitialized w1 = vscodeApiInitialized w
  /\ forallb isNewWorker pre = true.
Proof.
  unfold obtainWorker. destruct (worker (this w)) eqn:Hw.
  - intros [= <- <- <-]. auto.
  - destruct (lcOptions w) as [[]|]; try discriminate; intros [= <- <- <-];
      simpl; auto.
Qed.

Lemma connect_frame env w :
  let s := state (startLanguageClientConnection env w) in
  editorApp (this s) = editorApp (this w)
  /\ languageClientConfig (this s) = languageClientConfig (this w)
  /\ vscodeApiInitialized s = vscodeApiInitialized w
  /\ nextObject w <= nextObject s.
Proof.
  destruct (isRunning (this w)) eqn:Hr.
  { rewrite connect_running by done. simpl. auto. }
  destruct (socketBased w) eqn:Hs.
  - unfold socketBased in Hs. destruct (lcOptions w) as [c|] eqn:Hc; [|done].
    rewrite (connect_socket env w c) by done. simpl.
    destruct (socket_opens env (nextObject w)); [|simpl; auto].
    pose proof (handle_frame env (socketTransports (nextObject w)) (bump (bump w)))
      as Hh.
    destruct (handleLanguageClientStart _ _ _) as [[r s] ev].
    unfold state in *; simpl in *. intuition lia.
  - rewrite connect_worker by done.
    destruct (obtainWorker w) as [[[wk w1] pre]|] eqn:Ho; [|simpl; auto].
    destruct (obtainWorker_frame _ _ _ _ Ho) as (Hn & _ & Hcfg & _).
    destruct (obtainWorker_keeps _ _ _ _ Ho) as (Happ & _ & Hv & _).
    pose proof (handle_frame env (workerTransports (nextObject w1) wk) (bump w1))
      as Hh.
    destruct (handleLanguageClientStart _ _ _) as [[r s] ev].
    unfold state in *; simpl in *. rewrite <- Happ, <- Hcfg, <- Hv. intuition lia.
Qed.

Lemma clientEvent_connectionEvent e : clientEvent e = true -> connectionEvent e = true.
Proof. destruct e; simpl; done. Qed.

Lemma connect_events env w :
  forallb connectionEvent (trace (startLanguageClientConnection env w)) = true.
Proof.
  assert (forall evs, forallb clientEvent evs = true ->
                      forallb connectionEvent evs = true) as Hce.
  { induction evs as [|e evs IH]; simpl; [done|].
    intros [He Hevs]%andb_prop. by rewrite clientEvent_connectionEvent, IH. }
  destruct (isRunning (this w)) eqn:Hr.
  { by rewrite connect_running. }
  destruct (socketBased w) eqn:Hs.
  - unfold socketBased in Hs. destruct (lcOptions w) as [c|] eqn:Hc; [|done].
    rewrite (connect_socket env w c) by done. simpl.
    destruct (socket_opens env (nextObject w)); [|done].
    pose proof (handle_client_events env (socketTransports (nextObject w))
                  (bump (bump w))) as Hh.
    destruct (handleLanguageClientStart _ _ _) as [[r s] ev].
    unfold trace in *; simpl in *. by apply Hce.
  - rewrite connect_worker by done.
    destruct (obtainWorker w) as [[[wk w1] pre]|] eqn:Ho; [|done].
    destruct (obtainWorker_keeps _ _ _ _ Ho) as (_ & _ & _ & Hpre).
    pose proof (handle_client_events env (workerTransports (nextObject w1) wk)
                  (bump w1)) as Hh.
    destruct (handleLanguageClientStart _ _ _) as [[r s] ev].
    unfold trace in *; simpl in *. rewrite forallb_app. simpl.
    rewrite (Hce _ Hh), andb_true_r.
    clear -Hpre. induction pre as [|e pre IH]; simpl in *; [done|].
    apply andb_prop in Hpre as [He Hpre]. rewrite IH by done.
    destruct e; done.
Qed.

(** A filter that rejects every event of a kind finds nothing in a
    trace of that kind. *)
Lemma filter_none (p q : Event -> bool) evs :
  forallb p evs = true -> (forall e, p e = true -> q e = false) ->
  List.filter q evs = [].
Proof.
  intros Hp Hq. induction evs as [|e evs IH]; simpl in *; [done|].
  apply andb_prop in Hp as [He Hp]. by rewrite (Hq e He), IH.
Qed.

(** ** Restart *)

Lemma restart_not_running env updatedWorker keepWorker w :
  isRunning (this w) = false ->
  restartLanguageClient env updatedWorker keepWorker w
  = (Normal (Rejected (RString notStartedMsg)), w, []).
Proof.
  intros Hr. rewrite restart_split.
  rewrite dispose_not_running by done. reflexivity.
Qed.

(** ** isStarted and start *)

Lemma connect_resolved_running env w :
  (isRunning (this (state (startLanguageClientConnection env w))) = true
   <-> exists msg, result (startLanguageClientConnection env w) = Normal (Resolved msg)).
Proof.
  destruct (isRunning (this w)) eqn:Hr.
  { rewrite connect_running by done. cbn [state result fst snd]. split; eauto. }
  assert (forall mt w', isRunning (this w') = false ->
            let o := handleLanguageClientStart env mt w' in
            isRunning (this (state o)) = true
            <-> exists msg, result o = Normal (Resolved msg)) as Hh.
  { intros mt w' Hr'. destruct (editorApp (this w')) as [a|] eqn:Ha.
    - rewrite (handle_run _ _ _ _ Ha). simpl.
      destruct (lc_start env (nextObject w')); simpl; split; eauto;
        try discriminate; intros [? ?]; discriminate.
    - rewrite handle_no_app by done. cbn [state result fst snd]. rewrite Hr'.
      split; [discriminate|intros [? ?]; discriminate]. }
  destruct (socketBased w) eqn:Hs.
  - unfold socketBased in Hs. destruct (lcOptions w) as [c|] eqn:Hc; [|done].
    rewrite (connect_socket env w c) by done. simpl.
    destruct (socket_opens env (nextObject w));
      [|cbn [state result fst snd]; change (isRunning (this (bump w))) with (isRunning (this w));
        rewrite Hr; split; [done|intros [? ?]; discriminate]].
    specialize (Hh (socketTransports (nextObject w)) (bump (bump w)) Hr).
    destruct (handleLanguageClientStart _ _ _) as [[r s] ev]. exact Hh.
  - rewrite connect_worker by done.
    destruct (obtainWorker w) as [[[wk w1] pre]|] eqn:Ho.
    + destruct (obtainWorker_keeps _ _ _ _ Ho) as (_ & Hlc & _).
      assert (isRunning (this (bump w1)) = false) as Hr1.
      { unfold isRunning in *. simpl. by rewrite Hlc. }
      specialize (Hh (workerTransports (nextObject w1) wk) (bump w1) Hr1).
      destruct (handleLanguageClientStart _ _ _) as [[r s] ev]. exact Hh.
    + cbn [state result fst snd]. rewrite Hr. split; [done|intros [? ?]; discriminate].
Qed.

(** ** Close handlers, however many are registered *)

Lemma onClose_no_client env lcConfig w :
  languageClient (this w) = None ->
  onCloseHandler env lcConfig w
  = (Normal (Resolved tt), w, hookTrace (socketStopOptions lcConfig) (this w)).
Proof.
  intros Hl. unfold onCloseHandler. run. rewrite Hl. simpl.
  destruct (socketStopOptions lcConfig) as [o|]; simpl; [|reflexivity].
  destruct (truthyb _); reflexivity.
Qed.

Lemma hookTrace_stop opts t : forallb stopEvent (hookTrace opts t) = true.
Proof. destruct opts as [o|]; simpl; [destruct (truthyb _)|]; reflexivity. Qed.

Lemma onClose_cases env lcConfig w :
  let out := onCloseHandler env lcConfig w in
  (exists p, result out = Normal p)
  /\ (state out = w
      \/ exists lc, languageClient (this w) = Some lc /\ state out = stopped lc w)
  /\ forallb stopEvent (trace out) = true.
Proof.
  destruct (languageClient (this w)) as [lc|] eqn:Hl.
  - rewrite (onClose_run _ _ _ _ Hl).
    destruct (lc_stop env (lc_id lc)); cbn [state result trace fst snd];
      (split; [eauto|]); (split; [eauto|]); simpl; try done.
    apply hookTrace_stop.
  - rewrite onClose_no_client by done. cbn [state result trace fst snd].
    split; [eauto|]. split; [auto|]. apply hookTrace_stop.
Qed.

Lemma runCloseHandlers_cons env r r' lcConfig hs w :
  runCloseHandlers env r ((r', lcConfig) :: hs) w =
  if Nat.eqb r r' then
    let '(_, s, ev) := onCloseHandler env lcConfig w in
    let '(c, s', ev') := runCloseHandlers env r hs s in
    (c, s', ev ++ ev')
  else runCloseHandlers env r hs w.
Proof.
  simpl. unfold bind at 1. destruct (Nat.eqb r r').
  - unfold bind at 1.
    destruct (onClose_cases env lcConfig w) as ([p Hp] & _).
    destruct (onCloseHandler env lcConfig w) as [[c s] ev].
    unfold result in Hp. simpl in Hp. subst c.
    unfold ret at 1. rewrite app_nil_r.
    destruct (runCloseHandlers env r hs s) as [[c' s'] ev']. reflexivity.
  - unfold ret at 1.
    destruct (runCloseHandlers env r hs w) as [[c' s'] ev']. reflexivity.
Qed.

Lemma runCloseHandlers_keeps (P : World -> Prop) env r hs :
  (forall w lc, P w -> languageClient (this w) = Some lc -> P (stopped lc w)) ->
  forall w, P w ->
    P (state (runCloseHandlers env r hs w))
    /\ forallb stopEvent (trace (runCloseHandlers env r hs w)) = true
    /\ result (runCloseHandlers env r hs w) = Normal tt.
Proof.
  intros HP. induction hs as [|[r' c] hs IH]; intros w Hw; [by simpl|].
  rewrite runCloseHandlers_cons. destruct (Nat.eqb r r'); [|by apply IH].
  destruct (onClose_cases env c w) as (_ & Hs & Hev).
  destruct (onCloseHandler env c w) as [[c0 s] ev]. cbn [state trace fst snd] in *.
  assert (P s) as Hs'. { destruct Hs as [->|(lc & Hl & ->)]; eauto. }
  destruct (IH s Hs') as (I1 & I2 & I3).
  destruct (runCloseHandlers env r hs s) as [[c' s'] ev'].
  cbn [state trace result fst snd] in *. rewrite forallb_app, Hev, I2. done.
Qed.

Lemma readerClosed_keeps (P : World -> Prop) env r w :
  (forall w lc, P w -> languageClient (this w) = Some lc -> P (stopped lc w)) ->
  P w ->
  P (state (readerClosed env r w))
  /\ forallb stopEvent (trace (readerClosed env r w)) = true.
Proof.
  intros HP Hw. unfold readerClosed, bind, gets. simpl.
  destruct (runCloseHandlers_keeps P env r (closeHandlers w) HP w Hw) as (H1 & H2 & _).
  destruct (runCloseHandlers env r (closeHandlers w) w) as [[c s] ev]. done.
Qed.

(** The handlers of one reader run in the order of their registration;
    handlers of other readers are skipped. *)
Lemma runCloseHandlers_filter env r hs w :
  runCloseHandlers env r hs w
  = runCloseHandlers env r (List.filter (fun h => Nat.eqb r (fst h)) hs) w.
Proof.
  revert w. induction hs as [|[r' c] hs IH]; intros w; [done|].
  rewrite runCloseHandlers_cons. simpl List.filter. cbn [fst].
  destruct (Nat.eqb r r') eqn:He; [|by apply IH].
  rewrite runCloseHandlers_cons, He.
  destruct (onCloseHandler env c w) as [[c0 s] ev]. by rewrite IH.
Qed.

Lemma readerClosed_one env r w lcConfig :
  handlersOf r (closeHandlers w) = [lcConfig] ->
  readerClosed env r w =
  let '(_, s, ev) := onCloseHandler env lcConfig w in (Normal tt, s, ev).
Proof.
  intros Hh. unfold readerClosed, bind, gets. cbn [fst snd].
  rewrite runCloseHandlers_filter. unfold handlersOf in Hh.
  destruct (List.filter _ (closeHandlers w)) as [|[r' c] [|? ?]] eqn:Hf;
    try discriminate.
  simpl in Hh. injection Hh as ->.
  assert (Nat.eqb r r' = true) as He.
  { assert (In (r', lcConfig) [(r', lcConfig)]) as Hin by (left; reflexivity).
    rewrite <- Hf in Hin. apply filter_In in Hin. exact (proj2 Hin). }
  rewrite runCloseHandlers_cons, He.
  destruct (onCloseHandler env lcConfig w) as [[c0 s] ev]. simpl.
  by rewrite !app_nil_r.
Qed.

(** ** What each call leaves alone *)

Lemma disposeLc_frame env keepWorker w :
  let out := disposeLanguageClient env keepWorker w in
  editorApp (this (state out)) = editorApp (this w)
  /\ languageClientConfig (this (state out)) = languageClientConfig (this w)
  /\ vscodeApiInitialized (state out) = vscodeApiInitialized w
  /\ closeHandlers (state out) = closeHandlers w
  /\ forallb disposalEvent (trace out) = true.
Proof.
  destruct (isRunning (this w)) eqn:Hr.
  - unfold isRunning in Hr. destruct (languageClient (this w)) as [lc|] eqn:Hl; [|done].
    rewrite (dispose_run env keepWorker w lc Hl Hr).
    destruct (lc_dispose env (lc_id lc)); cbn [state trace fst snd]; try done.
    unfold disposed, disposeTrace.
    destruct (truthyb keepWorker); simpl; [done|].
    by destruct (worker (this w)).
  - rewrite dispose_not_running by done. done.
Qed.

Lemma startPrefix_init env userConfig w :
  List.filter isInitServices (startPrefix env userConfig w)
  = if vscodeApiInitialized w then [] else [EvInitServices].
Proof.
  unfold startPrefix, disposeEditorsTrace.
  destruct (editorApp (this w)), (vscodeApiInitialized w); reflexivity.
Qed.

Lemma connect_no_init env w :
  List.filter isInitServices (trace (startLanguageClientConnection env w)) = [].
Proof.
  apply (filter_none connectionEvent); [apply connect_events|].
  by intros [].
Qed.

Lemma perform_setup env c w :
  let out := perform env c w in
  languageClientConfig (this (fst out)) = configAfter c (languageClientConfig (this w))
  /\ vscodeApiInitialized (fst out) = vscodeApiInitialized w || starts c
  /\ List.filter isInitServices (snd out)
     = if starts c && negb (vscodeApiInitialized w) then [EvInitServices] else [].
Proof.
  destruct c as [uc|uw kw|kw| |r]; cbn [perform starts configAfter].
  - rewrite start_split. destruct (misconfigured uc); cbn [negb].
    { cbn. by rewrite orb_false_r. }
    cbn zeta. cbn [startPrepared this languageClientConfig set_editorApp initialised].
    set (cfg := match uc_languageClientConfig uc with
                | Some c => Some c | None => languageClientConfig (this w) end).
    assert (languageClientConfig (this (startPrepared env uc w)) = cfg) as Hcfg
      by reflexivity.
    pose proof (startPrefix_init env uc w) as Hpre.
    destruct cfg as [c|].
    + destruct (connect_frame env (startPrepared env uc w)) as (_ & F2 & F3 & _).
      pose proof (connect_no_init env (startPrepared env uc w)) as Hq.
      destruct (startLanguageClientConnection env (startPrepared env uc w))
        as [[r s] ev].
      unfold state, trace in *. cbn [fst snd] in *.
      rewrite F2, F3, Hcfg, orb_true_r, List.filter_app, Hpre. simpl. rewrite Hq.
      by destruct (vscodeApiInitialized w).
    + cbn [fst snd state trace]. rewrite Hcfg, orb_true_r, Hpre.
      by destruct (vscodeApiInitialized w).
  - rewrite restart_split.
    destruct (disposeLc_frame env (match uw with Some _ => Some false | None => kw end) w)
      as (_ & D2 & D3 & _ & D5).
    destruct (disposeLanguageClient env _ w) as [[r w1] ev].
    unfold state, trace in D2, D3, D5. cbn [fst snd] in D2, D3, D5.
    assert (List.filter isInitServices ev = []) as Hev
      by (apply (filter_none disposalEvent); [done|by intros []]).
    rewrite orb_false_r. cbn [andb].
    destruct r as [[[]|e|]|e|]; cbn [state trace fst snd]; try done.
    destruct (languageClientConfig (this w1)) as [c|] eqn:Hc; [|by rewrite <- D2].
    destruct (connect_frame env (on_this (set_worker uw) w1)) as (_ & F2 & F3 & _).
    pose proof (connect_no_init env (on_this (set_worker uw) w1)) as Hq.
    destruct (startLanguageClientConnection env _) as [[r s] ev2].
    unfold state, trace in *. cbn [fst snd] in *.
    rewrite F2, F3, List.filter_app, Hev. simpl. rewrite Hq.
    split; [|done]. by rewrite <- D2.
  - destruct (disposeLc_frame env kw w) as (_ & D2 & D3 & _ & D5).
    rewrite orb_false_r. cbn [andb]. cbn zeta. cbn [fst snd].
    split; [done|]. split; [done|].
    apply (filter_none disposalEvent); [done|by intros []].
  - rewrite dispose_split. rewrite orb_false_r. cbn [andb].
    assert (List.filter isInitServices (disposeEditorsTrace (this w)) = []) as Hpre
      by (unfold disposeEditorsTrace; by destruct (editorApp (this w))).
    assert (languageClientConfig (this (on_this editorsDisposed w))
            = languageClientConfig (this w)) as He
      by (unfold editorsDisposed, on_this; simpl; by destruct (editorApp (this w))).
    assert (vscodeApiInitialized (on_this editorsDisposed w)
            = vscodeApiInitialized w) as Hv by reflexivity.
    destruct (languageClientConfig (this w)) as [c|] eqn:Hc; [|done].
    destruct (disposeLc_frame env (Some false) (on_this editorsDisposed w))
      as (_ & D2 & D3 & _ & D5).
    destruct (disposeLanguageClient env _ _) as [[r w1] ev].
    unfold state, trace in *. cbn [fst snd] in *.
    assert (List.filter isInitServices ev = []) as Hev
      by (apply (filter_none disposalEvent); [done|by intros []]).
    rewrite List.filter_app, Hpre, Hev.
    destruct r as [[[]|e|]|e|]; cbn; rewrite ?D2, ?D3, ?He; done.
  - rewrite orb_false_r. cbn [andb].
    destruct (readerClosed_keeps
                (fun s => languageClientConfig (this s) = languageClientConfig (this w)
                          /\ vscodeApiInitialized s = vscodeApiInitialized w)
                env r w) as ((H1 & H2) & H3); [by intros ? ? [? ?] _|done|].
    cbn zeta. cbn [fst snd]. split; [done|]. split; [done|].
    apply (filter_none stopEvent); [done|by intros []].
Qed.

(** ** Sequences of calls *)

Lemma performAll_cons env c cs w :
  performAll env (c :: cs) w =
  (fst (performAll env cs (fst (perform env c w))),
   snd (perform env c w) ++ snd (performAll env cs (fst (perform env c w)))).
Proof.
  simpl. destruct (perform env c w) as [w1 ev1]. simpl.
  by destruct (performAll env cs w1).
Qed.

Lemma configAfter_is_Some c before : is_Some before -> is_Some (configAfter c before).
Proof.
  intros H. destruct c; simpl; try done.
  destruct (misconfigured _); [done|].
  by destruct (uc_languageClientConfig _).
Qed.

(** ** The stored client and its surroundings *)

Lemma handle_clientOk env mt w :
  languageClientConfig (this w) <> None ->
  (forall wk, writer mt = WorkerChannel wk -> worker (this w) = Some wk) ->
  clientOk w ->
  clientOk (state (handleLanguageClientStart env mt w)).
Proof.
  intros Hcfg Hwk Hok. destruct (editorApp (this w)) as [a|] eqn:Ha.
  - rewrite (handle_run _ _ _ _ Ha). cbn zeta.
    destruct (lc_start env _); cbn [state fst snd];
      intros lc0 [= <-]; simpl; rewrite Ha; done.
  - by rewrite handle_no_app.
Qed.

Lemma clientOk_bump w : clientOk w -> clientOk (bump w).
Proof. done. Qed.

Lemma connect_clientOk env w :
  languageClientConfig (this w) <> None ->
  clientOk w ->
  clientOk (state (startLanguageClientConnection env w)).
Proof.
  intros Hcfg Hok. destruct (isRunning (this w)) eqn:Hr.
  { by rewrite connect_running. }
  destruct (socketBased w) eqn:Hs.
  - unfold socketBased in Hs. destruct (lcOptions w) as [c|] eqn:Hc; [|done].
    rewrite (connect_socket env w c) by done. cbn zeta.
    destruct (socket_opens env (nextObject w)); [|done].
    pose proof (handle_clientOk env (socketTransports (nextObject w))
                  (bump (bump w)) Hcfg) as Hh.
    destruct (handleLanguageClientStart _ _ _) as [[r s] ev].
    apply Hh; [done|done].
  - rewrite connect_worker by done.
    destruct (obtainWorker w) as [[[wk w1] pre]|] eqn:Ho; [|done].
    destruct (obtainWorker_frame _ _ _ _ Ho) as (_ & _ & Hcfg1 & Hw1).
    destruct (obtainWorker_keeps _ _ _ _ Ho) as (Happ & Hlc & _).
    pose proof (handle_clientOk env (workerTransports (nextObject w1) wk)
                  (bump w1)) as Hh.
    destruct (handleLanguageClientStart _ _ _) as [[r s] ev].
    apply Hh.
    + simpl. by rewrite Hcfg1.
    + simpl. by intros ? [= <-].
    + intros lc Hl. simpl in Hl. rewrite Hlc in Hl.
      destruct (Hok lc Hl) as (O1 & O2 & O3). simpl.
      rewrite Happ, Hcfg1. split; [done|]. split; [done|].
      intros wk' Hwk'. specialize (O3 wk' Hwk').
      unfold obtainWorker in Ho. rewrite O3 in Ho. by injection Ho as <- <- <-.
Qed.

Lemma perform_clientOk env c w : clientOk w -> clientOk (fst (perform env c w)).
Proof.
  intros Hok. destruct c as [uc|uw kw|kw| |r]; cbn [perform fst].
  - rewrite start_split. destruct (misconfigured uc); [done|]. cbn zeta.
    assert (clientOk (startPrepared env uc w)) as Hok1.
    { intros lc Hl. destruct (Hok lc Hl) as (O1 & O2 & O3).
      simpl. split; [done|]. split; [|done].
      by destruct (uc_languageClientConfig uc). }
    destruct (languageClientConfig (this (startPrepared env uc w))) eqn:Hc; [|done].
    pose proof (connect_clientOk env (startPrepared env uc w)) as Hconn.
    destruct (startLanguageClientConnection env _) as [[r s] ev].
    apply Hconn; [by rewrite Hc|done].
  - rewrite restart_split.
    set (kw' := match uw with Some _ => Some false | None => kw end).
    destruct (isRunning (this w)) eqn:Hr.
    + unfold isRunning in Hr.
      destruct (languageClient (this w)) as [lc|] eqn:Hl; [|done].
      rewrite (dispose_run env kw' w lc Hl Hr).
      destruct (lc_dispose env (lc_id lc)); [|done|done].
      assert (languageClientConfig (this (on_this (disposed kw') w))
              = languageClientConfig (this w)) as Hcfg
        by (unfold disposed; by destruct (truthyb kw')).
      rewrite Hcfg.
      destruct (languageClientConfig (this w)) as [cfg|] eqn:Hc.
      * cbn zeta.
        pose proof (connect_clientOk env
                      (on_this (set_worker uw) (on_this (disposed kw') w))) as Hconn.
        destruct (startLanguageClientConnection env _) as [[r s] ev].
        apply Hconn.
        -- simpl. unfold disposed. destruct (truthyb kw'); simpl; by rewrite Hc.
        -- intros lc0 Hl0. unfold disposed in Hl0. by destruct (truthyb kw').
      * intros lc0 Hl0. unfold disposed in Hl0. by destruct (truthyb kw').
    + by rewrite dispose_not_running.
  - destruct (isRunning (this w)) eqn:Hr.
    + unfold isRunning in Hr.
      destruct (languageClient (this w)) as [lc|] eqn:Hl; [|done].
      rewrite (dispose_run env kw w lc Hl Hr).
      destruct (lc_dispose env (lc_id lc)); [|done|done].
      intros lc0 Hl0. unfold disposed in Hl0. by destruct (truthyb kw).
    + by rewrite dispose_not_running.
  - rewrite dispose_split.
    assert (clientOk (on_this editorsDisposed w)) as Hok1.
    { unfold editorsDisposed, on_this.
      destruct (editorApp (this w)) as [a|] eqn:Ha; [|by destruct w].
      intros lc Hl. destruct (Hok lc Hl) as (O1 & O2 & O3). done. }
    destruct (languageClientConfig (this w)); [|done].
    set (w1 := on_this editorsDisposed w) in *.
    destruct (isRunning (this w1)) eqn:Hr.
    + unfold isRunning in Hr.
      destruct (languageClient (this w1)) as [lc|] eqn:Hl; [|done].
      rewrite (dispose_run env (Some false) w1 lc Hl Hr).
      destruct (lc_dispose env (lc_id lc)); [|done|done].
      by intros lc0 Hl0.
    + by rewrite dispose_not_running.
  - apply (readerClosed_keeps clientOk); [|done].
    intros w' lc' Hw' Hl' lc0 [= <-]. destruct (Hw' lc' Hl') as (O1 & O2 & O3).
    done.
Qed.

(** ** How a connection start can end *)

Lemma handle_result_cases env mt w :
  let r := result (handleLanguageClientStart env mt w) in
  r = Normal (Resolved startedMsg) \/ r = Normal Pending
  \/ exists e, r = Normal (Rejected (RString (failedMsg e))).
Proof.
  destruct (editorApp (this w)) as [a|] eqn:Ha.
  - rewrite (handle_run _ _ _ _ Ha). cbn zeta.
    destruct (lc_start env _); cbn [result fst]; eauto.
  - rewrite handle_no_app by done. auto.
Qed.

Lemma connect_result_cases env w :
  let r := result (startLanguageClientConnection env w) in
  r = Normal (Resolved alreadyRunningMsg) \/ r = Normal (Resolved startedMsg)
  \/ r = Normal Pending
  \/ (exists e, r = Normal (Rejected (RString (failedMsg e))))
  \/ r = Normal (Rejected (RTypeError "Cannot read properties of undefined")).
Proof.
  destruct (isRunning (this w)) eqn:Hr.
  { rewrite connect_running by done. auto. }
  destruct (socketBased w) eqn:Hs.
  - unfold socketBased in Hs. destruct (lcOptions w) as [c|] eqn:Hc; [|done].
    rewrite (connect_socket env w c) by done. cbn zeta.
    destruct (socket_opens env (nextObject w)); [|auto].
    pose proof (handle_result_cases env (socketTransports (nextObject w))
                  (bump (bump w))) as Hh.
    destruct (handleLanguageClientStart _ _ _) as [[r s] ev].
    unfold result in *. cbn [fst] in *. intuition.
  - rewrite connect_worker by done.
    destruct (obtainWorker w) as [[[wk w1] pre]|] eqn:Ho; [|intuition].
    pose proof (handle_result_cases env (workerTransports (nextObject w1) wk)
                  (bump w1)) as Hh.
    destruct (handleLanguageClientStart _ _ _) as [[r s] ev].
    unfold result in *. cbn [fst] in *. intuition.
Qed.

Lemma restart_config_present env updatedWorker keepWorker w :
  clientOk w ->
  result (restartLanguageClient env updatedWorker keepWorker w)
  <> Normal (Rejected (RString noConfigMsg)).
Proof.
  intros Hok. rewrite restart_split.
  set (kw' := match updatedWorker with Some _ => Some false | None => keepWorker end).
  destruct (isRunning (this w)) eqn:Hr.
  - unfold isRunning in Hr.
    destruct (languageClient (this w)) as [lc|] eqn:Hl; [|done].
    destruct (Hok lc Hl) as (_ & Hcfg & _).
    rewrite (dispose_run env kw' w lc Hl Hr).
    destruct (lc_dispose env (lc_id lc)); [|done|done].
    assert (languageClientConfig (this (on_this (disposed kw') w))
            = languageClientConfig (this w)) as ->
      by (unfold disposed; by destruct (truthyb kw')).
    destruct (languageClientConfig (this w)) as [cfg|]; [|done]. cbn zeta.
    pose proof (connect_result_cases env
                  (on_this (set_worker updatedWorker) (on_this (disposed kw') w)))
      as Hres.
    destruct (startLanguageClientConnection env _) as [[r s] ev].
    unfold result in *. cbn [fst] in *.
    destruct Hres as [H|[H|[H|[[e H]|H]]]]; rewrite H; done.
  - rewrite dispose_not_running by done. done.
Qed.

(** ** Terminating workers *)

Lemma connect_no_terminate env w wk :
  terminations wk (trace (startLanguageClientConnection env w)) = 0.
Proof.
  unfold terminations.
  rewrite (filter_none connectionEvent); [done|apply connect_events|by intros []].
Qed.

Lemma terminations_app wk evs1 evs2 :
  terminations wk (evs1 ++ evs2) = terminations wk evs1 + terminations wk evs2.
Proof. unfold terminations. by rewrite List.filter_app, length_app. Qed.

Lemma disposeLc_terminations env keepWorker w wk :
  let n := terminations wk (trace (disposeLanguageClient env keepWorker w)) in
  n <= 1
  /\ (n <> 0 -> worker (this w) = Some wk /\ isRunning (this w) = true
                /\ truthyb keepWorker = false
                /\ worker (this (state (disposeLanguageClient env keepWorker w))) = None).
Proof.
  cbv zeta. destruct (isRunning (this w)) eqn:Hr.
  - unfold isRunning in Hr. destruct (languageClient (this w)) as [lc|] eqn:Hl; [|done].
    rewrite (dispose_run env keepWorker w lc Hl Hr).
    destruct (lc_dispose env (lc_id lc)); cbn [state trace fst snd];
      [|split; [unfold terminations; simpl; lia|unfold terminations; simpl; done]..].
    unfold disposeTrace, disposed. rewrite terminations_cons. cbn [isTerminate].
    destruct (truthyb keepWorker); [split; [unfold terminations; simpl; lia|unfold terminations; simpl; done]|].
    destruct (worker (this w)) as [wk'|]; [|split; [unfold terminations; simpl; lia|unfold terminations; simpl; done]].
    rewrite terminations_cons. cbn [isTerminate].
    destruct (decide (wk' = wk)) as [->|Hne].
    + rewrite bool_decide_eq_true_2 by done. unfold terminations. simpl. split; [lia|done].
    + rewrite bool_decide_eq_false_2 by done. unfold terminations. simpl. split; [lia|done].
  - rewrite dispose_not_running by done. unfold terminations. simpl. split; [lia|done].
Qed.

Lemma performAll_clientOk env cs w : clientOk w -> clientOk (fst (performAll env cs w)).
Proof.
  revert w. induction cs as [|c cs IH]; intros w Hok; [done|].
  rewrite performAll_cons. cbn [fst]. by apply IH, perform_clientOk.
Qed.

(** ** The client a connection start creates *)

Lemma handle_resolved_client env mt w msg w1 ev :
  handleLanguageClientStart env mt w = (Normal (Resolved msg), w1, ev) ->
  exists lc a,
    editorApp (this w) = Some a
    /\ languageClient (this w1) = Some lc
    /\ lc_running lc = true
    /\ lc_transports lc = mt
    /\ lc_documentSelector lc = [languageId (app_config a)]
    /\ lc_initializationOptions lc
       = languageClientConfig (this w) ≫= initializationOptions.
Proof.
  intros H. destruct (handle_resolved _ _ _ _ _ _ H) as (a & Ha & _ & ->).
  eexists _, a. split; [done|]. split; [reflexivity|]. done.
Qed.

Lemma connect_resolved_selector env w msg w1 ev :
  isRunning (this w) = false ->
  startLanguageClientConnection env w = (Normal (Resolved msg), w1, ev) ->
  exists lc a,
    editorApp (this w) = Some a
    /\ languageClient (this w1) = Some lc
    /\ lc_running lc = true
    /\ lc_documentSelector lc = [languageId (app_config a)]
    /\ lc_initializationOptions lc
       = languageClientConfig (this w) ≫= initializationOptions.
Proof.
  intros Hr. destruct (socketBased w) eqn:Hs.
  - unfold socketBased in Hs. destruct (lcOptions w) as [c|] eqn:Hc; [|done].
    rewrite (connect_socket env w c) by done. cbn zeta.
    destruct (socket_opens env (nextObject w)); [|discriminate].
    destruct (handleLanguageClientStart _ _ _) as [[r s] ev'] eqn:Hh.
    intros [= -> -> <-].
    destruct (handle_resolved_client _ _ _ _ _ _ Hh)
      as (lc & a & Ha & Hl & Hrun & _ & Hd & Hi).
    exists lc, a. auto.
  - rewrite connect_worker by done.
    destruct (obtainWorker w) as [[[wk w'] pre]|] eqn:Ho; [|discriminate].
    destruct (handleLanguageClientStart _ _ _) as [[r s] ev'] eqn:Hh.
    intros [= -> -> <-].
    destruct (handle_resolved_client _ _ _ _ _ _ Hh)
      as (lc & a & Ha & Hl & Hrun & _ & Hd & Hi).
    destruct (obtainWorker_frame _ _ _ _ Ho) as (_ & _ & Hcfg & _).
    destruct (obtainWorker_keeps _ _ _ _ Ho) as (Happ & _).
    exists lc, a. simpl in Ha, Hi. rewrite <- Happ, <- Hcfg. auto.
Qed.

End WrapperMoreFacts.


(** * Further properties of wrapper.ts *)

Module WrapperExtra.
Import Js Wrapper WrapperMore Samples MoreSamples WrapperFacts WrapperMoreFacts.

(** ** dispose *)

(** X1: [dispose()] on a wrapper that has a client configuration and a
    running client whose disposal succeeds resolves; the editors are
    disposed first, then the client, then the stored worker is
    terminated; afterwards the wrapper holds no client, no worker and
    no editor app, every getter answers [undefined] and [isStarted()]
    is false. *)
Theorem dispose_releases_everything env w cfg lc :
  languageClientConfig (this w) = Some cfg ->
  languageClient (this w) = Some lc ->
  lc_running lc = true ->
  lc_dispose env (lc_id lc) = Succeeds ->
  let out := dispose env w in
  result out = Normal (Resolved tt)
  /\ trace out = disposeEditorsTrace (this w)
                 ++ EvLcDispose (lc_id lc)
                    :: match worker (this w) with
                       | Some wk => [EvTerminate wk]
                       | None => []
                       end
  /\ getLanguageClient (this (state out)) = None
  /\ getWorker (this (state out)) = None
  /\ getMonacoEditorApp (this (state out)) = None
  /\ getEditor (this (state out)) = None
  /\ getDiffEditor (this (state out)) = None
  /\ isStarted (this (state out)) = false.
Proof.
  intros Hcfg Hl Hr Hd out.
  destruct (dispose_resolved env w cfg lc Hcfg Hl Hr Hd) as (R & T & L & W & A & S).
  fold out in R, T, L, W, A, S.
  unfold getLanguageClient, getWorker, getMonacoEditorApp, getEditor, getDiffEditor.
  rewrite A. done.
Qed.

Lemma dispose_releases_everything_witness :
  isRunning (this workerWorld) = true
  /\ result (dispose calm workerWorld) = Normal (Resolved tt)
  /\ trace (dispose calm workerWorld)
     = [EvDisposeEditor; EvDisposeDiffEditor; EvLcDispose 3; EvTerminate (WorkerObj 1)].
Proof.
  split; [reflexivity|].
  destruct (dispose_releases_everything calm workerWorld
              {| options := workerCfg; initializationOptions := None |}
              (workerClient 3 2 1))
    as (R & T & _); [vm_compute; reflexivity..|].
  split; [exact R|]. rewrite T. vm_compute. reflexivity.
Defined.

(** X2: [dispose()] on a wrapper that has a client configuration but no
    running client disposes the editors and then rejects with the
    message of [disposeLanguageClient]; the assignment
    [this.editorApp = undefined] is not reached, so an editor app
    that was there stays stored. *)
Theorem dispose_not_running_keeps_app env w cfg :
  languageClientConfig (this w) = Some cfg ->
  isRunning (this w) = false ->
  let out := dispose env w in
  result out = Normal (Rejected (RString notStartedMsg))
  /\ trace out = disposeEditorsTrace (this w)
  /\ state out = on_this editorsDisposed w
  /\ (getMonacoEditorApp (this (state out)) = None
      <-> getMonacoEditorApp (this w) = None).
Proof.
  intros Hcfg Hr out. subst out. rewrite (dispose_idle env w cfg Hcfg Hr).
  unfold result, trace, state, getMonacoEditorApp. cbn [fst snd this on_this].
  repeat split; try done; apply editorsDisposed_app.
Qed.

Lemma dispose_not_running_keeps_app_witness :
  result (dispose calm failedWorld) = Normal (Rejected (RString notStartedMsg))
  /\ trace (dispose calm failedWorld) = [EvDisposeEditor; EvDisposeDiffEditor].
Proof.
  destruct (dispose_not_running_keeps_app calm failedWorld
              {| options := workerCfg; initializationOptions := None |})
    as (R & T & _); [vm_compute; reflexivity..|].
  split; [exact R|]. rewrite T. vm_compute. reflexivity.
Defined.

(** X3: [dispose()] on a wrapper without a client configuration only
    disposes the editors and resolves: a stored client and worker are
    not touched, and the editor app stays stored. *)
Theorem dispose_without_config env w :
  languageClientConfig (this w) = None ->
  let out := dispose env w in
  result out = Normal (Resolved tt)
  /\ trace out = disposeEditorsTrace (this w)
  /\ getLanguageClient (this (state out)) = getLanguageClient (this w)
  /\ getWorker (this (state out)) = getWorker (this w)
  /\ (getMonacoEditorApp (this (state out)) = None
      <-> getMonacoEditorApp (this w) = None).
Proof.
  intros Hcfg out. subst out. rewrite dispose_split, Hcfg.
  unfold result, trace, state, getLanguageClient, getWorker, getMonacoEditorApp.
  cbn [fst snd this on_this].
  split; [done|]. split; [done|].
  split; [unfold editorsDisposed; by destruct (editorApp (this w))|].
  split; [unfold editorsDisposed; by destruct (editorApp (this w))|].
  apply editorsDisposed_app.
Qed.

Lemma dispose_without_config_witness :
  result (dispose calm plainWorld) = Normal (Resolved tt)
  /\ getMonacoEditorApp (this (state (dispose calm plainWorld))) <> None.
Proof.
  destruct (dispose_without_config calm plainWorld) as (R & _ & _ & _ & A);
    [vm_compute; reflexivity|].
  split; [exact R|]. intros H. apply A in H. vm_compute in H. discriminate H.
Defined.


(** X4: when the disposal of the running client rejects, [dispose()]
    rejects with the wrapped message after it has disposed the
    editors; the client stays stored, the worker is neither
    terminated nor dropped, and the editor app stays stored. *)
Theorem dispose_failure_keeps_client env w cfg lc e :
  languageClientConfig (this w) = Some cfg ->
  languageClient (this w) = Some lc ->
  lc_running lc = true ->
  lc_dispose env (lc_id lc) = Fails e ->
  let out := dispose env w in
  result out = Normal (Rejected (RString (disposeFailedMsg e)))
  /\ trace out = disposeEditorsTrace (this w) ++ [EvLcDispose (lc_id lc)]
  /\ state out = on_this editorsDisposed w
  /\ languageClient (this (state out)) = Some lc
  /\ worker (this (state out)) = worker (this w)
  /\ (editorApp (this (state out)) = None <-> editorApp (this w) = None).
Proof.
  intros Hcfg Hl Hr Hd out. subst out. rewrite dispose_split, Hcfg.
  assert (languageClient (this (on_this editorsDisposed w)) = Some lc
          /\ worker (this (on_this editorsDisposed w)) = worker (this w)
          /\ (editorApp (this (on_this editorsDisposed w)) = None
              <-> editorApp (this w) = None)) as (Hl' & Hw & Ha).
  { unfold editorsDisposed, on_this. simpl.
    destruct (editorApp (this w)) eqn:Happ; simpl; rewrite ?Happ;
      intuition congruence. }
  rewrite (dispose_run env (Some false) _ lc Hl' Hr), Hd.
  unfold result, trace, state. cbn [fst snd awaited]. done.
Qed.

Lemma dispose_failure_keeps_client_witness :
  result (dispose undisposable workerWorld)
  = Normal (Rejected (RString (disposeFailedMsg boom)))
  /\ getWorker (this (state (dispose undisposable workerWorld))) = Some (WorkerObj 1).
Proof.
  destruct (dispose_failure_keeps_client undisposable workerWorld
              {| options := workerCfg; initializationOptions := None |}
              (workerClient 3 2 1) boom)
    as (R & _ & _ & _ & W & _); [vm_compute; reflexivity..|].
  split; [exact R|]. unfold getWorker. rewrite W. reflexivity.
Defined.


(** X5: a second [dispose()] after one that released everything
    rejects with "not yet started" and does nothing: the client
    configuration survives the first call, so the second one takes
    the language client branch again. *)
Theorem dispose_twice_rejects env w cfg lc :
  languageClientConfig (this w) = Some cfg ->
  languageClient (this w) = Some lc ->
  lc_running lc = true ->
  lc_dispose env (lc_id lc) = Succeeds ->
  let w1 := state (dispose env w) in
  dispose env w1 = (Normal (Rejected (RString notStartedMsg)), w1, []).
Proof.
  intros Hcfg Hl Hr Hd w1.
  destruct (dispose_resolved env w cfg lc Hcfg Hl Hr Hd) as (_ & _ & Hl1 & _ & Ha1 & _).
  destruct (perform_setup env CallDispose w) as (Hc1 & _).
  cbn [perform fst configAfter] in Hc1. fold w1 in Hl1, Ha1, Hc1.
  rewrite Hcfg in Hc1.
  assert (isRunning (this w1) = false) as Hr1 by (unfold isRunning; by rewrite Hl1).
  rewrite (dispose_idle env w1 cfg Hc1 Hr1).
  unfold disposeEditorsTrace, editorsDisposed, on_this. rewrite Ha1.
  by destruct w1.
Qed.

Lemma dispose_twice_rejects_witness :
  dispose calm (state (dispose calm workerWorld))
  = (Normal (Rejected (RString notStartedMsg)), state (dispose calm workerWorld), []).
Proof.
  apply (dispose_twice_rejects calm workerWorld
           {| options := workerCfg; initializationOptions := None |}
           (workerClient 3 2 1)); vm_compute; reflexivity.
Defined.

(** ** restartLanguageClient *)


(** X6: [restartLanguageClient] on a wrapper without a running client
    rejects with the message of [disposeLanguageClient] before
    anything else happens: the replacement worker is not stored and no
    connection is started. *)
Theorem restart_needs_running_client env updatedWorker keepWorker w :
  isRunning (this w) = false ->
  let out := restartLanguageClient env updatedWorker keepWorker w in
  result out = Normal (Rejected (RString notStartedMsg))
  /\ trace out = []
  /\ state out = w.
Proof. intros Hr. cbv zeta. by rewrite restart_not_running. Qed.

Lemma restart_needs_running_client_witness :
  restartLanguageClient calm (Some (WorkerObj 9)) None failedWorld
  = (Normal (Rejected (RString notStartedMsg)), failedWorld, []).
Proof.
  destruct (restart_needs_running_client calm (Some (WorkerObj 9)) None failedWorld)
    as (R & T & S); [reflexivity|].
  destruct (restartLanguageClient calm (Some (WorkerObj 9)) None failedWorld)
    as [[r s] ev].
  unfold result, trace, state in *. cbn [fst snd] in *. by subst.
Defined.


(** X7: no call terminates a worker more than once, and the only
    worker a call ever terminates is the one stored when the call is
    made, while a client is running; [start], a close event,
    [disposeLanguageClient(true)] and [restartLanguageClient(undefined, true)]
    terminate nothing. *)
Theorem only_stored_worker_terminated env c w wk :
  let n := terminations wk (snd (perform env c w)) in
  n <= 1
  /\ (n <> 0 ->
      worker (this w) = Some wk /\ isRunning (this w) = true
      /\ match c with
         | CallStart _ | ReaderClosed _ | CallDisposeLanguageClient (Some true)
         | CallRestart None (Some true) => False
         | _ => True
         end).
Proof.
  cbv zeta. destruct c as [uc|uw kw|kw| |r]; cbn [perform snd].
  - assert (terminations wk (trace (start env uc w)) = 0) as ->; [|by split; [lia|]].
    rewrite start_split. destruct (misconfigured uc); [done|]. cbn zeta.
    assert (terminations wk (startPrefix env uc w) = 0) as Hpre.
    { unfold startPrefix, disposeEditorsTrace.
      by destruct (editorApp (this w)), (vscodeApiInitialized w). }
    destruct (languageClientConfig _); [|done].
    pose proof (connect_no_terminate env (startPrepared env uc w) wk) as Hq.
    destruct (startLanguageClientConnection env _) as [[r s] ev].
    unfold trace in *. cbn [snd] in *.
    by rewrite terminations_app, terminations_cons, Hpre, Hq.
  - rewrite restart_split.
    set (kw' := match uw with Some _ => Some false | None => kw end).
    destruct (disposeLc_terminations env kw' w wk) as [D1 D2].
    assert (truthyb kw' = false ->
            match uw with
            | Some _ => True
            | None => match kw with Some true => False | _ => True end
            end) as Hk
      by (subst kw'; destruct uw; [done|by destruct kw as [[]|]]).
    destruct (disposeLanguageClient env kw' w) as [[r w1] ev].
    unfold state, trace in *. cbn [fst snd] in *.
    assert (forall n, n = terminations wk ev ->
              n <= 1 /\ (n <> 0 -> worker (this w) = Some wk
                                   /\ isRunning (this w) = true
                                   /\ match uw with
                                      | Some _ => True
                                      | None => match kw with
                                                | Some true => False
                                                | _ => True
                                                end
                                      end)) as Hfin.
    { intros n ->. split; [done|]. intros Hn. destruct (D2 Hn) as (? & ? & ? & _).
      split; [done|]. split; [done|]. by apply Hk. }
    destruct r as [[[]|e|]|e|]; cbv beta iota zeta; try (by apply Hfin).
    destruct (languageClientConfig (this w1)); [|by apply Hfin].
    pose proof (connect_no_terminate env (on_this (set_worker uw) w1) wk) as Hq.
    destruct (startLanguageClientConnection env _) as [[r2 s] ev2].
    unfold trace in *. cbn [snd] in *. apply Hfin.
    change (terminations wk (ev ++ EvLog "Re-Starting monaco-languageclient" :: ev2)
            = terminations wk ev).
    rewrite terminations_app, terminations_cons, Hq. simpl. lia.
  - destruct (disposeLc_terminations env kw w wk) as [D1 D2].
    split; [done|]. intros Hn. destruct (D2 Hn) as (? & ? & Hk & _).
    split; [done|]. split; [done|]. by destruct kw as [[]|].
  - rewrite dispose_split.
    assert (terminations wk (disposeEditorsTrace (this w)) = 0) as Hpre
      by (unfold disposeEditorsTrace; by destruct (editorApp (this w))).
    destruct (languageClientConfig (this w)); [|unfold trace; cbn [snd]; rewrite Hpre; split; [lia|done]].
    destruct (disposeLc_terminations env (Some false) (on_this editorsDisposed w) wk)
      as [D1 D2].
    assert (worker (this (on_this editorsDisposed w)) = worker (this w)
            /\ isRunning (this (on_this editorsDisposed w)) = isRunning (this w))
      as [Hw Hr]
      by (unfold editorsDisposed, on_this; simpl; by destruct (editorApp (this w))).
    rewrite Hw, Hr in D2.
    destruct (disposeLanguageClient env _ _) as [[r w1] ev].
    unfold state, trace in *. cbn [fst snd] in *.
    rewrite terminations_app, Hpre. cbn [Nat.add].
    split; [done|]. intros Hn. destruct (D2 Hn) as (? & ? & _). auto.
  - destruct (readerClosed_keeps (fun _ => True) env r w) as [_ Hev]; [done..|].
    assert (terminations wk (trace (readerClosed env r w)) = 0) as ->;
      [|by split; [lia|]].
    unfold terminations.
    rewrite (filter_none stopEvent); [done|done|by intros []].
Qed.

Lemma only_stored_worker_terminated_witness :
  terminations (WorkerObj 1)
    (snd (perform calm (CallRestart (Some (WorkerObj 9)) (Some true)) workerWorld)) = 1
  /\ terminations (WorkerObj 9)
       (snd (perform calm (CallRestart (Some (WorkerObj 9)) (Some true)) workerWorld)) = 0.
Proof.
  pose proof (only_stored_worker_terminated calm
                (CallRestart (Some (WorkerObj 9)) (Some true)) workerWorld
                (WorkerObj 9)) as [_ H9].
  split; [vm_compute; reflexivity|].
  destruct (terminations (WorkerObj 9) _) eqn:Hn; [reflexivity|].
  destruct H9 as (Hw & _); [discriminate|]. vm_compute in Hw. discriminate Hw.
Defined.

(** ** Starting a connection *)


(** X8: a connection start on a wrapper without a running client calls
    the start hook of the socket options only after the client has
    started, as the last thing it does, with the new client stored and
    running; a start that does not resolve calls no hook at all. *)
Theorem start_hook_follows_client_start env w :
  isRunning (this w) = false ->
  let out := startLanguageClientConnection env w in
  match result out with
  | Normal (Resolved _) =>
      exists pre lc,
        languageClient (this (state out)) = Some lc
        /\ lc_running lc = true
        /\ trace out
           = pre ++ EvLcStart (lc_id lc)
                 :: hookTrace (socketStartOptions (lcOptions w)) (this (state out))
        /\ List.filter isOnCall pre = []
  | _ => List.filter isOnCall (trace out) = []
  end.
Proof.
  intros Hr.
  assert (forall mt w' pre0,
            lcOptions w' = lcOptions w -> List.filter isOnCall pre0 = [] ->
            let '(r, s, ev) := handleLanguageClientStart env mt w' in
            match r with
            | Normal (Resolved _) =>
                exists pre lc,
                  languageClient (this s) = Some lc /\ lc_running lc = true
                  /\ pre0 ++ ev
                     = pre ++ EvLcStart (lc_id lc)
                           :: hookTrace (socketStartOptions (lcOptions w)) (this s)
                  /\ List.filter isOnCall pre = []
            | _ => List.filter isOnCall (pre0 ++ ev) = []
            end) as Hh.
  { intros mt w' pre0 Ho Hpre. destruct (editorApp (this w')) as [a|] eqn:Ha.
    - rewrite (handle_run _ _ _ _ Ha). cbn zeta.
      destruct (lc_start env _).
      + eexists (pre0 ++ [_; _]), _. split; [reflexivity|]. split; [reflexivity|].
        rewrite Ho. split; [by rewrite <- app_assoc|].
        by rewrite List.filter_app, Hpre.
      + by rewrite List.filter_app, Hpre.
      + by rewrite List.filter_app, Hpre.
    - rewrite handle_no_app by done. by rewrite app_nil_r. }
  cbv zeta. destruct (socketBased w) eqn:Hs.
  - unfold socketBased in Hs. destruct (lcOptions w) as [c|] eqn:Hc; [|done].
    rewrite (connect_socket env w c) by done. cbn zeta.
    destruct (socket_opens env (nextObject w)); [|done].
    specialize (Hh (socketTransports (nextObject w)) (bump (bump w))
                  [EvNewWebSocket (nextObject w) (createUrl env c);
                   EvSocketOpen (nextObject w);
                   EvNewReader (S (nextObject w)) (SocketChannel (nextObject w));
                   EvNewWriter (SocketChannel (nextObject w))] Hc eq_refl).
    destruct (handleLanguageClientStart _ _ _) as [[r s] ev]. exact Hh.
  - rewrite connect_worker by done.
    destruct (obtainWorker w) as [[[wk w1] pre]|] eqn:Ho; [|done].
    destruct (obtainWorker_frame _ _ _ _ Ho) as (_ & _ & Hcfg & _).
    destruct (obtainWorker_keeps _ _ _ _ Ho) as (_ & _ & _ & Hpre).
    specialize (Hh (workerTransports (nextObject w1) wk) (bump w1)
                  (pre ++ [EvNewReader (nextObject w1) (WorkerChannel wk);
                           EvNewWriter (WorkerChannel wk)])).
    destruct (handleLanguageClientStart _ _ _) as [[r s] ev].
    unfold result, state, trace. cbn [fst snd]. rewrite app_assoc. apply Hh.
    + unfold lcOptions. simpl. by rewrite Hcfg.
    + rewrite List.filter_app. simpl. rewrite app_nil_r.
      apply (filter_none isNewWorker); [done|by intros []].
Qed.

Lemma start_hook_follows_client_start_witness :
  exists pre,
    trace (startLanguageClientConnection calm reconnectWorld)
    = pre ++ [EvLcStart 6; EvOnCall 1]
    /\ List.filter isOnCall pre = [].
Proof.
  pose proof (start_hook_follows_client_start calm reconnectWorld eq_refl) as H.
  cbv zeta in H.
  assert (result (startLanguageClientConnection calm reconnectWorld)
          = Normal (Resolved startedMsg)) as Hr by (vm_compute; reflexivity).
  rewrite Hr in H. destruct H as (pre & lc & Hl & _ & Ht & Hp).
  exists pre. split; [|exact Hp]. rewrite Ht.
  assert (lc = reconnectedClient) as ->
    by (vm_compute in Hl; injection Hl as <-; reflexivity).
  vm_compute. reflexivity.
Defined.


(** X9: a worker-based connection start constructs no Worker when the
    wrapper already holds one, or when the configuration hands one
    over ([WorkerDirect]): the reader and the writer are bound to that
    worker, and it is the stored worker afterwards. *)
Theorem connect_uses_given_worker env w wk :
  isRunning (this w) = false ->
  socketBased w = false ->
  worker (this w) = Some wk
  \/ (worker (this w) = None /\ lcOptions w = Some (WorkerDirect wk)) ->
  let out := startLanguageClientConnection env w in
  List.filter isNewWorker (trace out) = []
  /\ channelsUsed (trace out) = [WorkerChannel wk; WorkerChannel wk]
  /\ worker (this (state out)) = Some wk.
Proof.
  intros Hr Hs Hwk. cbv zeta. rewrite connect_worker by done.
  assert (exists w1, obtainWorker w = Some (wk, w1, [])) as [w1 Ho].
  { unfold obtainWorker. destruct Hwk as [->|[-> ->]]; eauto. }
  rewrite Ho. destruct (obtainWorker_frame _ _ _ _ Ho) as (_ & _ & _ & Hw1).
  set (mt := workerTransports _ _). set (w2 := bump _).
  pose proof (handle_client_events env mt w2) as Hq.
  pose proof (handle_keeps_worker env mt w2) as Hk.
  destruct (handleLanguageClientStart env mt w2) as [[r s] ev].
  unfold trace, state in *; simpl in *.
  destruct (client_events_quiet ev wk Hq) as (_ & Q2 & Q3).
  unfold channelsUsed in *. simpl. rewrite Q2, Q3, Hk. done.
Qed.

Lemma connect_uses_given_worker_witness :
  channelsUsed (trace (startLanguageClientConnection calm failedWorld))
  = [WorkerChannel (WorkerObj 1); WorkerChannel (WorkerObj 1)]
  /\ List.filter isNewWorker (trace (startLanguageClientConnection calm failedWorld)) = [].
Proof.
  destruct (connect_uses_given_worker calm failedWorld (WorkerObj 1))
    as (N & C & _); [reflexivity|reflexivity|left; reflexivity|].
  split; [exact C|exact N].
Defined.

(** ** Close events *)





(** X11: when a reader closes while the wrapper holds no client (it was
    disposed meanwhile), nothing is stopped, and the stop hook is
    called all the same. *)
Theorem close_without_client_runs_hook env r w lcConfig :
  handlersOf r (closeHandlers w) = [lcConfig] ->
  languageClient (this w) = None ->
  readerClosed env r w
  = (Normal tt, w, hookTrace (socketStopOptions lcConfig) (this w)).
Proof.
  intros Hh Hl. rewrite (readerClosed_one env r w lcConfig Hh).
  by rewrite onClose_no_client.
Qed.

Lemma close_without_client_runs_hook_witness :
  readerClosed calm 2 reconnectWorld
  = (Normal tt, reconnectWorld, hookTrace (Some (hook 2 true)) (this reconnectWorld)).
Proof.
  apply (close_without_client_runs_hook calm 2 reconnectWorld (Some socketCfg));
    vm_compute; reflexivity.
Defined.

(** ** The editor app methods *)


(** X12: once [dispose()] has released everything, [updateEditorOptions]
    rejects with its own message, while [updateModel],
    [updateDiffModel] and [updateLayout] silently do nothing, whatever
    the methods of the editor app would do. *)
Theorem updates_after_dispose env w cfg lc
    (appUpdate : EditorApp -> M unit) :
  languageClientConfig (this w) = Some cfg ->
  languageClient (this w) = Some lc ->
  lc_running lc = true ->
  lc_dispose env (lc_id lc) = Succeeds ->
  let w1 := state (dispose env w) in
  updateEditorOptions appUpdate w1
  = (Normal (Rejected (RString notConfiguredMsg)), w1, [])
  /\ updateModel appUpdate w1 = (Normal (Resolved tt), w1, [])
  /\ updateDiffModel appUpdate w1 = (Normal (Resolved tt), w1, [])
  /\ updateLayout appUpdate w1 = (Normal tt, w1, []).
Proof.
  intros Hcfg Hl Hr Hd w1.
  destruct (dispose_resolved env w cfg lc Hcfg Hl Hr Hd) as (_ & _ & _ & _ & Ha1 & _).
  fold w1 in Ha1.
  unfold updateEditorOptions, updateModel, updateDiffModel, updateLayout. run.
  by rewrite Ha1.
Qed.

Lemma updates_after_dispose_witness :
  updateEditorOptions (fun _ => throw (RError "unreachable"))
    (state (dispose calm workerWorld))
  = (Normal (Rejected (RString notConfiguredMsg)), state (dispose calm workerWorld), []).
Proof.
  destruct (updates_after_dispose calm workerWorld
              {| options := workerCfg; initializationOptions := None |}
              (workerClient 3 2 1) (fun _ => throw (RError "unreachable")))
    as (H & _); [vm_compute; reflexivity..|].
  exact H.
Defined.

(** ** start *)


(** X13: a [start] whose configuration passes the check stores the new
    editor app; if [isStarted()] is true afterwards the promise of
    [start] resolved, and if that promise resolved then [isStarted()]
    is what [haveEditor()] of the new editor app says: a language
    client that was asked for is running. *)
Theorem start_resolves_iff_started env userConfig w :
  misconfigured userConfig = false ->
  let out := start env userConfig w in
  let app := startedApp env userConfig (nextObject w) in
  editorApp (this (state out)) = Some app
  /\ (isStarted (this (state out)) = true -> result out = Normal (Resolved tt))
  /\ (result out = Normal (Resolved tt) ->
      isStarted (this (state out)) = haveEditor app).
Proof.
  intros Hm. cbv zeta. rewrite start_split, Hm. cbn zeta.
  set (w1 := startPrepared env userConfig w).
  assert (editorApp (this w1) = Some (startedApp env userConfig (nextObject w)))
    as Ha by reflexivity.
  destruct (languageClientConfig (this w1)) as [cfg|] eqn:Hcfg.
  - destruct (connect_frame env w1) as (F1 & F2 & _).
    pose proof (connect_resolved_running env w1) as Hrun.
    destruct (startLanguageClientConnection env w1) as [[r s] ev].
    unfold result, state in *. cbn [fst snd] in *.
    rewrite F1, Ha. split; [done|]. unfold isStarted. rewrite F1, Ha, F2, Hcfg.
    split.
    + destruct (haveEditor _); [|done]. intros Hr.
      apply Hrun in Hr as [msg ->]. done.
    + intros Hr. assert (isRunning (this s) = true) as ->; [|by destruct (haveEditor _)].
      apply Hrun. destruct r as [[msg|?|]|?|]; try done. eauto.
  - unfold result, state. cbn [fst snd]. rewrite Ha. split; [done|].
    unfold isStarted. rewrite Ha, Hcfg. split; [done|]. by destruct (haveEditor _).
Qed.

Lemma start_resolves_iff_started_witness :
  let userConfig := userConfig (jsonApp false None) (Some workerCfg) in
  isStarted (this (state (start calm userConfig world0)))
  = haveEditor (startedApp calm userConfig (nextObject world0)).
Proof.
  intros userConfig.
  destruct (start_resolves_iff_started calm userConfig world0) as (_ & _ & H);
    [reflexivity|].
  apply H. vm_compute. reflexivity.
Defined.


(** X14: the client configuration is sticky. A [start] whose user
    configuration carries none, on a wrapper that has one from an
    earlier start, keeps that configuration and starts a language
    client connection with its options. *)
Theorem start_reuses_stored_config env userConfig w cfg :
  misconfigured userConfig = false ->
  uc_languageClientConfig userConfig = None ->
  languageClientConfig (this w) = Some cfg ->
  let out := start env userConfig w in
  let w1 := startPrepared env userConfig w in
  languageClientConfig (this (state out)) = Some cfg
  /\ lcOptions w1 = Some (options cfg)
  /\ trace out
     = startPrefix env userConfig w
       ++ EvLog "Starting monaco-languageclient"
          :: trace (startLanguageClientConnection env w1).
Proof.
  intros Hm Hu Hcfg. cbv zeta. rewrite start_split, Hm. cbn zeta.
  set (w1 := startPrepared env userConfig w).
  assert (languageClientConfig (this w1) = Some cfg) as Hc1.
  { subst w1. simpl. by rewrite Hu. }
  rewrite Hc1. destruct (connect_frame env w1) as (_ & F2 & _).
  destruct (startLanguageClientConnection env w1) as [[r s] ev].
  unfold trace, state in *. cbn [fst snd] in *.
  rewrite F2, Hc1. unfold lcOptions. by rewrite Hc1.
Qed.

Lemma start_reuses_stored_config_witness :
  lcOptions (startPrepared calm (userConfig (jsonApp false None) None) reconnectWorld)
  = Some socketCfg
  /\ isRunning (this (state (start calm (userConfig (jsonApp false None) None)
                               reconnectWorld))) = true.
Proof.
  destruct (start_reuses_stored_config calm (userConfig (jsonApp false None) None)
              reconnectWorld {| options := socketCfg; initializationOptions := None |})
    as (_ & O & _); [reflexivity..|].
  split; [exact O|vm_compute; reflexivity].
Defined.

(** X28: the client a [start] creates takes its document selector from
    the language id of the editor app that this start stored, and its
    initialization options from the stored client configuration; a
    [start] on a wrapper whose client is running keeps that client,
    and with it the selector it was created with. *)
Theorem new_client_selects_editor_language env userConfig w :
  misconfigured userConfig = false ->
  let out := start env userConfig w in
  (isRunning (this w) = true ->
   getLanguageClient (this (state out)) = getLanguageClient (this w))
  /\ (isRunning (this w) = false ->
      isRunning (this (state out)) = true ->
      exists lc a,
        getLanguageClient (this (state out)) = Some lc
        /\ getMonacoEditorApp (this (state out)) = Some a
        /\ lc_documentSelector lc = [languageId (app_config a)]
        /\ lc_initializationOptions lc
           = languageClientConfig (this (state out)) ≫= initializationOptions).
Proof.
  intros Hm out. split.
  { intros Hr. apply (start_running_opens_no_transport env userConfig w Hr). }
  subst out. rewrite start_split, Hm. cbn zeta.
  set (w1 := startPrepared env userConfig w).
  intros Hr.
  assert (isRunning (this w1) = false) as Hr1 by exact Hr.
  destruct (languageClientConfig (this w1)) as [cfg|] eqn:Hcfg.
  - destruct (connect_frame env w1) as (F1 & F2 & _).
    pose proof (connect_resolved_running env w1) as Hrun.
    pose proof (connect_resolved_selector env w1) as Hsel.
    destruct (startLanguageClientConnection env w1) as [[r s] ev].
    unfold result, state in *. cbn [fst snd] in *.
    intros Hs. apply Hrun in Hs as [msg ->].
    destruct (Hsel msg s ev Hr1 eq_refl) as (lc & a & Ha & Hl & _ & Hd & Hi).
    exists lc, a. unfold getLanguageClient, getMonacoEditorApp.
    rewrite F1, F2. done.
  - unfold state. cbn [fst snd]. intros Hs. congruence.
Qed.

Lemma new_client_selects_editor_language_witness :
  exists lc,
    getLanguageClient (this workerWorld) = Some lc
    /\ lc_documentSelector lc = ["json"].
Proof.
  destruct (new_client_selects_editor_language calm
              (userConfig (jsonApp false None) (Some workerCfg)) world0)
    as [_ H]; [reflexivity|].
  destruct H as (lc & a & Hl & Ha & Hd & _); [reflexivity..|].
  exists lc. split; [exact Hl|]. rewrite Hd.
  vm_compute in Ha. injection Ha as <-. reflexivity.
Defined.

(** ** Sequences of calls *)





(** X16: only a [start] whose configuration passes the check and
    carries a client configuration changes the stored one; no call
    clears it, so once a wrapper has a client configuration it has one
    after every further call. *)
Theorem config_only_replaced_by_start env cs w :
  languageClientConfig (this (fst (performAll env cs w)))
  = fold_left (fun cfg c => configAfter c cfg) cs (languageClientConfig (this w))
  /\ (is_Some (languageClientConfig (this w)) ->
      is_Some (languageClientConfig (this (fst (performAll env cs w))))).
Proof.
  revert w. induction cs as [|c cs IH]; intros w; [done|].
  rewrite performAll_cons. cbn [fst snd fold_left].
  destruct (perform_setup env c w) as (Hc & _).
  destruct (IH (fst (perform env c w))) as [IH1 IH2].
  rewrite IH1, Hc. split; [done|].
  intros H. rewrite <- Hc, <- IH1. apply IH2. rewrite Hc.
  by apply configAfter_is_Some.
Qed.

Lemma config_only_replaced_by_start_witness :
  is_Some (languageClientConfig
             (this (fst (performAll calm
                           [CallDispose; CallStart (userConfig (jsonApp false None) None)]
                           workerWorld)))).
Proof.
  apply (config_only_replaced_by_start calm
           [CallDispose; CallStart (userConfig (jsonApp false None) None)] workerWorld).
  vm_compute. eauto.
Defined.


(** X17: every call keeps this invariant: a stored client comes with an
    editor app and a client configuration, and a client that talks
    over a worker channel talks over the stored worker. A new wrapper
    satisfies it. *)
Theorem client_comes_with_app_and_config env cs w :
  clientOk w -> clientOk (fst (performAll env cs w)).
Proof.
  apply performAll_clientOk.
Qed.

Lemma client_comes_with_app_and_config_witness :
  clientOk (fst (performAll calm
                   [CallStart (userConfig (jsonApp false None) (Some workerCfg));
                    CallRestart None (Some true); ReaderClosed 2]
                   world0)).
Proof.
  apply (client_comes_with_app_and_config calm
           [CallStart (userConfig (jsonApp false None) (Some workerCfg));
            CallRestart None (Some true); ReaderClosed 2] world0).
  intros lc Hl. vm_compute in Hl. discriminate Hl.
Defined.


(** X18: on a wrapper that started out without a client, the rejection
    "No configuration was provided" of [restartLanguageClient] cannot
    happen after any sequence of calls: without a running client the
    disposal rejects first, and a running client comes with a
    configuration. *)
Theorem restart_never_lacks_config env cs w updatedWorker keepWorker :
  languageClient (this w) = None ->
  result (restartLanguageClient env updatedWorker keepWorker
            (fst (performAll env cs w)))
  <> Normal (Rejected (RString noConfigMsg)).
Proof.
  intros Hl. apply restart_config_present, performAll_clientOk.
  intros lc Hlc. congruence.
Qed.

Lemma restart_never_lacks_config_witness :
  result (restartLanguageClient calm None None
            (fst (performAll calm [CallStart (userConfig (jsonApp false None) None)]
                    world0)))
  <> Normal (Rejected (RString noConfigMsg)).
Proof.
  apply (restart_never_lacks_config calm
           [CallStart (userConfig (jsonApp false None) None)] world0).
  reflexivity.
Defined.

End WrapperExtra.


(** * Further facts about main.ts *)

Module CompMoreFacts.
Import Js Comp CompMore CompFacts.

(** ** Symbolic execution of the sync *)

Lemma sync_split win reloadInlineConfig w :
  syncPropertiesAndEditorConfig win reloadInlineConfig w =
  let '(r, w1, ev) := when reloadInlineConfig (loadInlineConfig win) w in
  match r with
  | Normal _ =>
      (Normal tt, synced w1,
       ev ++ [EvSetUseDiffEditor (truthyb (useDiffEditor (this w1)))])
  | Throw e => (Throw e, w1, ev)
  | Hang => (Hang, w1, ev)
  end.
Proof.
  unfold syncPropertiesAndEditorConfig.
  generalize (when reloadInlineConfig (loadInlineConfig win)). intros m.
  unfold bind at 1. destruct (m w) as [[[[]|e|] w1] ev]; [|done..].
  destruct w1 as [c l n]. unfold synced, writeThrough, on_this. run.
  destruct (truthy (modifiedCode c)) eqn:H1;
    destruct (truthy (modifiedLanguageId c)) eqn:H2; simpl; rewrite ?H1, ?H2;
    reflexivity.
Qed.

Lemma load_normal win w : result (loadInlineConfig win w) = Normal tt.
Proof. destruct (Step_loadInlineConfig win w) as [[[] Ha] _]. done. Qed.

Lemma sync_false win w :
  syncPropertiesAndEditorConfig win false w
  = (Normal tt, synced w, [EvSetUseDiffEditor (truthyb (useDiffEditor (this w)))]).
Proof. by rewrite sync_split. Qed.

Lemma sync_true win w :
  syncPropertiesAndEditorConfig win true w =
  let w1 := state (loadInlineConfig win w) in
  (Normal tt, synced w1,
   trace (loadInlineConfig win w)
   ++ [EvSetUseDiffEditor (truthyb (useDiffEditor (this w1)))]).
Proof.
  rewrite sync_split. cbn [when]. pose proof (load_normal win w) as Hn.
  destruct (loadInlineConfig win w) as [[r w1] ev]. unfold result in Hn.
  simpl in Hn. by subst r.
Qed.

(** ** Inline configuration *)

Lemma load_disabled win w :
  isEnableInlineConfig (this w) = false ->
  loadInlineConfig win w = (Normal tt, w, []).
Proof. intros H. unfold loadInlineConfig. run. by rewrite H. Qed.

(** ** The option setters *)

Lemma applyOption_run v (setter : string -> M unit) f w :
  (forall s w, setter s w = (Normal tt, on_this (f s) w, [])) ->
  applyOption v setter w = (Normal tt, on_this (applied v f) w, []).
Proof.
  intros H. unfold applyOption, when, applied.
  destruct (truthy v); [by rewrite H|]. by destruct w.
Qed.

Lemma setCode_run v w : setCode v w = (Normal tt, on_this (withCode v) w, []).
Proof. reflexivity. Qed.
Lemma setLanguageId_run v w :
  setLanguageId v w = (Normal tt, on_this (withLanguageId v) w, []).
Proof. reflexivity. Qed.
Lemma setModifiedCode_run v w :
  setModifiedCode v w = (Normal tt, on_this (withModifiedCode v) w, []).
Proof. reflexivity. Qed.
Lemma setModifiedLanguageId_run v w :
  setModifiedLanguageId v w = (Normal tt, on_this (withModifiedLanguageId v) w, []).
Proof. reflexivity. Qed.
Lemma setTheme_run v w : setTheme v w = (Normal tt, on_this (withTheme v) w, []).
Proof. reflexivity. Qed.

Lemma bind_run {A B} (m : M A) (k : A -> M B) w a s ev :
  m w = (Normal a, s, ev) ->
  Js.bind m k w = let '(r, s', ev') := k a s in (r, s', ev ++ ev').
Proof. intros H. unfold bind. by rewrite H. Qed.

Lemma setMonacoEditorOptions_run o w :
  setMonacoEditorOptions (Some o) w
  = (Normal tt, on_this (editorOptionsApplied o) w, []).
Proof.
  unfold setMonacoEditorOptions.
  rewrite (bind_run _ _ _ _ _ _ (applyOption_run (o_code o) _ _ w setCode_run)).
  rewrite (bind_run _ _ _ _ _ _ (applyOption_run (o_languageId o) _ _ _ setLanguageId_run)).
  rewrite (bind_run _ _ _ _ _ _ (applyOption_run (o_theme o) _ _ _ setTheme_run)).
  reflexivity.
Qed.

Lemma setMonacoDiffEditorOptions_run o w :
  setMonacoDiffEditorOptions (Some o) w
  = (Normal tt, on_this (diffOptionsApplied o) w, []).
Proof.
  unfold setMonacoDiffEditorOptions.
  rewrite (bind_run _ _ _ _ _ _ (applyOption_run (o_code o) _ _ w setCode_run)).
  rewrite (bind_run _ _ _ _ _ _ (applyOption_run (o_languageId o) _ _ _ setLanguageId_run)).
  rewrite (bind_run _ _ _ _ _ _
             (applyOption_run (o_modifiedCode o) _ _ _ setModifiedCode_run)).
  rewrite (bind_run _ _ _ _ _ _
             (applyOption_run (o_modifiedLanguageId o) _ _ _ setModifiedLanguageId_run)).
  rewrite (bind_run _ _ _ _ _ _ (applyOption_run (o_theme o) _ _ _ setTheme_run)).
  reflexivity.
Qed.

Lemma retrieveEditor_run win w f :
  isEnableInlineConfig (this w) = true ->
  win !! "getMonacoEditorOptions" = Some (WFunction (Some f)) ->
  retrieveMonacoEditorOptions win w
  = (Normal tt, on_this (editorOptionsApplied f) w,
     [EvLog (usingMsg "getMonacoEditorOptions" "editor");
      EvCall "getMonacoEditorOptions"]).
Proof.
  intros He Hw. unfold retrieveMonacoEditorOptions.
  unfold bind at 1. unfold read, gets. rewrite He.
  rewrite (bind_run _ _ _ _ _ _ (build_plain win _ "editor" w _ Hw)).
  by rewrite setMonacoEditorOptions_run.
Qed.

Lemma retrieveDiff_run win w f :
  isEnableInlineConfig (this w) = true ->
  win !! "getMonacoDiffEditorOptions" = Some (WFunction (Some f)) ->
  retrieveMonacoDiffEditorOptions win w
  = (Normal tt, on_this (diffOptionsApplied f) w,
     [EvLog (usingMsg "getMonacoDiffEditorOptions" "diff editor");
      EvCall "getMonacoDiffEditorOptions"]).
Proof.
  intros He Hw. unfold retrieveMonacoDiffEditorOptions.
  unfold bind at 1. unfold read, gets. rewrite He.
  rewrite (bind_run _ _ _ _ _ _ (build_plain win _ "diff editor" w _ Hw)).
  by rewrite setMonacoDiffEditorOptions_run.
Qed.

Lemma editorOptionsApplied_enabled o c :
  isEnableInlineConfig (editorOptionsApplied o c) = isEnableInlineConfig c.
Proof.
  unfold editorOptionsApplied, applied.
  by destruct (truthy (o_code o)), (truthy (o_languageId o)), (truthy (o_theme o)).
Qed.

Lemma load_run win w o1 o2 :
  isEnableInlineConfig (this w) = true ->
  win !! "getMonacoEditorOptions" = Some (WFunction (Some o1)) ->
  win !! "getMonacoDiffEditorOptions" = Some (WFunction (Some o2)) ->
  loadInlineConfig win w
  = (Normal tt,
     on_this (fun c => diffOptionsApplied o2 (editorOptionsApplied o1 c)) w,
     [EvLog (usingMsg "getMonacoEditorOptions" "editor");
      EvCall "getMonacoEditorOptions";
      EvLog (usingMsg "getMonacoDiffEditorOptions" "diff editor");
      EvCall "getMonacoDiffEditorOptions"]).
Proof.
  intros He H1 H2. unfold loadInlineConfig.
  rewrite (bind_run _ _ w (isEnableInlineConfig (this w)) w [] eq_refl).
  rewrite He. cbn [when].
  rewrite (bind_run _ _ _ _ _ _ (retrieveEditor_run win w o1 He H1)).
  rewrite retrieveDiff_run with (f := o2);
    [|by (cbn [this on_this]; rewrite editorOptionsApplied_enabled)|done].
  reflexivity.
Qed.

(** ** What the methods leave alone *)

Lemma sameShell_refl w : sameShell w w.
Proof. by repeat split. Qed.

Lemma sameShell_trans w1 w2 w3 : sameShell w1 w2 -> sameShell w2 w3 -> sameShell w1 w3.
Proof.
  intros (A1 & A2 & A3 & A4 & A5 & A6) (B1 & B2 & B3 & B4 & B5 & B6).
  repeat split; congruence.
Qed.

Ltac chain := apply Step_bind; [exact sameShell_trans| |intros ?].
Ltac still := first [ apply Step_ret | apply Step_emit | apply Step_read ];
              exact sameShell_refl.

Lemma Shell_update (f : CodeEditor -> CodeEditor) :
  (forall c, id (f c) = id c /\ children (f c) = children c
             /\ enableInlineConfig (f c) = enableInlineConfig c
             /\ useDiffEditor (f c) = useDiffEditor c) ->
  Step sameShell (update f).
Proof.
  intros Hf w. split; [by exists tt|].
  destruct (Hf (this w)) as (E1 & E2 & E3 & E4). by repeat split.
Qed.

Lemma Shell_setter (setter : string -> M unit) f :
  (forall s w, setter s w = (Normal tt, on_this (f s) w, [])) ->
  (forall s c, id (f s c) = id c /\ children (f s c) = children c
               /\ enableInlineConfig (f s c) = enableInlineConfig c
               /\ useDiffEditor (f s c) = useDiffEditor c) ->
  forall v, Step sameShell (applyOption v setter).
Proof.
  intros Hrun Hf v w. rewrite (applyOption_run v setter f w Hrun).
  split; [by exists tt|]. unfold applied, state. cbn [fst snd].
  destruct (truthy v); [|by repeat split].
  destruct (Hf (default "" v) (this w)) as (E1 & E2 & E3 & E4). by repeat split.
Qed.

Lemma Shell_build win basename loggingName :
  Step sameShell (buildAndCallConfigFunction win basename loggingName).
Proof.
  unfold buildAndCallConfigFunction, callFunction. chain; [still|].
  destruct (isFunction _); [chain; [still|chain; still]|].
  destruct (isFunction _); [chain; [still|chain; still]|still].
Qed.

Lemma Shell_setMonacoEditorOptions o : Step sameShell (setMonacoEditorOptions o).
Proof.
  unfold setMonacoEditorOptions. destruct o as [o|]; [|still].
  chain; [by apply (Shell_setter _ _ setCode_run)|].
  chain; [by apply (Shell_setter _ _ setLanguageId_run)|].
  chain; [by apply (Shell_setter _ _ setTheme_run)|].
  by apply Shell_update.
Qed.

Lemma Shell_setMonacoDiffEditorOptions o : Step sameShell (setMonacoDiffEditorOptions o).
Proof.
  unfold setMonacoDiffEditorOptions. destruct o as [o|]; [|still].
  chain; [by apply (Shell_setter _ _ setCode_run)|].
  chain; [by apply (Shell_setter _ _ setLanguageId_run)|].
  chain; [by apply (Shell_setter _ _ setModifiedCode_run)|].
  chain; [by apply (Shell_setter _ _ setModifiedLanguageId_run)|].
  chain; [by apply (Shell_setter _ _ setTheme_run)|].
  by apply Shell_update.
Qed.

Lemma Shell_loadInlineConfig win : Step sameShell (loadInlineConfig win).
Proof.
  unfold loadInlineConfig, retrieveMonacoEditorOptions, retrieveMonacoDiffEditorOptions.
  chain; [still|]. apply Step_when; [exact sameShell_refl|].
  chain.
  - chain; [still|]. destruct a0; [|still].
    chain; [apply Shell_build|apply Shell_setMonacoEditorOptions].
  - chain; [still|]. destruct a1; [|still].
    chain; [apply Shell_build|apply Shell_setMonacoDiffEditorOptions].
Qed.

Lemma synced_shell w : sameShell w (synced w).
Proof. by repeat split. Qed.

Lemma sync_shell win reloadInlineConfig w :
  sameShell w (state (syncPropertiesAndEditorConfig win reloadInlineConfig w)).
Proof.
  destruct reloadInlineConfig.
  - rewrite sync_true. cbn [state fst snd].
    eapply sameShell_trans; [apply Shell_loadInlineConfig|apply synced_shell].
  - rewrite sync_false. apply synced_shell.
Qed.

(** ** Properties and configuration after a sync *)

Lemma synced_inSync w : inSync (synced w).
Proof.
  unfold inSync, synced, writeThrough, config. cbn.
  destruct (truthy (modifiedCode (this w))) eqn:H1;
    destruct (truthy (modifiedLanguageId (this w))) eqn:H2; cbn;
    repeat split; try done; rewrite ?H1, ?H2; done.
Qed.

(** ** Events a computation never emits *)

Lemma Silent_bind q {A B} (m : M A) (k : A -> M B) :
  Silent q m -> (forall a, Silent q (k a)) -> Silent q (Js.bind m k).
Proof.
  intros Hm Hk w. specialize (Hm w). unfold bind, trace in *.
  destruct (m w) as [[[a|e|] s] ev]; cbn [snd] in *; try done.
  specialize (Hk a s). unfold trace in Hk.
  destruct (k a s) as [[r s'] ev']. cbn [snd] in *.
  by rewrite List.filter_app, Hm, Hk.
Qed.

Lemma Silent_quiet q {A} (m : M A) : (forall w, trace (m w) = []) -> Silent q m.
Proof. intros H w. by rewrite H. Qed.

Lemma Silent_emit q e : q e = false -> Silent q (emit e).
Proof. intros H w. unfold trace, emit. simpl. by rewrite H. Qed.

Lemma Silent_when q b (m : M unit) : Silent q m -> Silent q (when b m).
Proof. destruct b; [done|]. intros _. by apply Silent_quiet. Qed.

Lemma Silent_build q win basename loggingName :
  (forall s, q (EvLog s) = false) -> (forall s, q (EvCall s) = false) ->
  Silent q (buildAndCallConfigFunction win basename loggingName).
Proof.
  intros Hlog Hcall. unfold buildAndCallConfigFunction, callFunction.
  apply Silent_bind; [by apply Silent_quiet|intros i].
  destruct (isFunction _).
  { apply Silent_bind; [by apply Silent_emit|intros _].
    apply Silent_bind; [by apply Silent_emit|intros _]. by apply Silent_quiet. }
  destruct (isFunction _); [|by apply Silent_quiet].
  apply Silent_bind; [by apply Silent_emit|intros _].
  apply Silent_bind; [by apply Silent_emit|intros _]. by apply Silent_quiet.
Qed.

Lemma setMonacoEditorOptions_quiet o w : trace (setMonacoEditorOptions o w) = [].
Proof. destruct o as [o|]; [by rewrite setMonacoEditorOptions_run|done]. Qed.

Lemma setMonacoDiffEditorOptions_quiet o w : trace (setMonacoDiffEditorOptions o w) = [].
Proof. destruct o as [o|]; [by rewrite setMonacoDiffEditorOptions_run|done]. Qed.

Lemma Silent_loadInlineConfig q win :
  (forall s, q (EvLog s) = false) -> (forall s, q (EvCall s) = false) ->
  Silent q (loadInlineConfig win).
Proof.
  intros Hlog Hcall.
  unfold loadInlineConfig, retrieveMonacoEditorOptions, retrieveMonacoDiffEditorOptions.
  apply Silent_bind; [by apply Silent_quiet|intros e]. apply Silent_when.
  apply Silent_bind; [|intros _].
  - apply Silent_bind; [by apply Silent_quiet|intros [|]]; [|by apply Silent_quiet].
    apply Silent_bind; [by apply Silent_build|intros o].
    apply Silent_quiet, setMonacoEditorOptions_quiet.
  - apply Silent_bind; [by apply Silent_quiet|intros [|]]; [|by apply Silent_quiet].
    apply Silent_bind; [by apply Silent_build|intros o].
    apply Silent_quiet, setMonacoDiffEditorOptions_quiet.
Qed.

Lemma sync_inSync win reloadInlineConfig w :
  inSync (state (syncPropertiesAndEditorConfig win reloadInlineConfig w)).
Proof.
  destruct reloadInlineConfig; [rewrite sync_true|rewrite sync_false];
    apply synced_inSync.
Qed.

End CompMoreFacts.


(** * Further properties of main.ts *)

Module CompExtra.
Import Js Comp CompMore CompSamples MoreCompSamples CompFacts CompMoreFacts.

(** ** Inline configuration *)

(** X19: unless the element has exactly one child, a script element,
    and [enableInlineConfig] is set, [loadInlineConfig()] does
    nothing: no window function is looked up or called, nothing is
    logged, and a sync that asks for a reload is the sync without
    one. *)
Theorem inline_config_disabled_is_ignored win w :
  isEnableInlineConfig (this w) = false ->
  loadInlineConfig win w = (Normal tt, w, [])
  /\ syncPropertiesAndEditorConfig win true w
     = syncPropertiesAndEditorConfig win false w.
Proof.
  intros H. split; [by apply load_disabled|].
  by rewrite sync_true, sync_false, load_disabled.
Qed.

Lemma inline_config_disabled_is_ignored_witness :
  syncPropertiesAndEditorConfig diffPage true bareWorld
  = syncPropertiesAndEditorConfig diffPage false bareWorld.
Proof.
  destruct (inline_config_disabled_is_ignored diffPage bareWorld) as [_ H];
    [reflexivity|].
  exact H.
Defined.

(** X20: [setMonacoEditorOptions(options)] takes [code], [languageId]
    and [theme] from the options when they are truthy, into the
    property and into the configuration; it leaves the modified code
    and language alone whatever the options say about them, and it
    stores the options object. Falsy values (absent or empty) change
    nothing. *)
Theorem editor_options_skip_modified o w :
  let out := setMonacoEditorOptions (Some o) w in
  let c := this w in
  let c' := this (state out) in
  result out = Normal tt /\ trace out = []
  /\ code c' = truthyOr (o_code o) (code c)
  /\ languageId c' = truthyOr (o_languageId o) (languageId c)
  /\ theme c' = truthyOr (o_theme o) (theme c)
  /\ modifiedCode c' = modifiedCode c
  /\ modifiedLanguageId c' = modifiedLanguageId c
  /\ MonacoWrapper.codeOriginal (config (state out))
     = (truthyOr (o_code o) (fst (MonacoWrapper.codeOriginal (config w))),
        truthyOr (o_languageId o) (snd (MonacoWrapper.codeOriginal (config w))))
  /\ MonacoWrapper.codeModified (config (state out))
     = MonacoWrapper.codeModified (config w)
  /\ MonacoWrapper.theme (config (state out))
     = truthyOr (o_theme o) (MonacoWrapper.theme (config w))
  /\ MonacoWrapper.monacoEditorOptions (config (state out)) = Some o.
Proof.
  cbv zeta. rewrite setMonacoEditorOptions_run.
  unfold result, trace, state, config, editorOptionsApplied, applied, truthyOr.
  cbn [fst snd this on_this].
  destruct (truthy (o_code o)), (truthy (o_languageId o)), (truthy (o_theme o));
    cbn; rewrite <- ?surjective_pairing; auto 12.
Qed.


(** X21: with inline configuration on and both plain functions defined,
    [loadInlineConfig()] calls the editor function first and the diff
    editor function second; for [code], [languageId] and [theme] a
    truthy value of the diff editor options wins over the editor
    options, the modified code and language come from the diff editor
    options only, and both option objects are stored. *)
Theorem diff_options_override_editor_options win w o1 o2 :
  isEnableInlineConfig (this w) = true ->
  win !! "getMonacoEditorOptions" = Some (WFunction (Some o1)) ->
  win !! "getMonacoDiffEditorOptions" = Some (WFunction (Some o2)) ->
  let out := loadInlineConfig win w in
  let c := this w in
  let c' := this (state out) in
  trace out = [EvLog (usingMsg "getMonacoEditorOptions" "editor");
               EvCall "getMonacoEditorOptions";
               EvLog (usingMsg "getMonacoDiffEditorOptions" "diff editor");
               EvCall "getMonacoDiffEditorOptions"]
  /\ code c' = truthyOr (o_code o2) (truthyOr (o_code o1) (code c))
  /\ languageId c' = truthyOr (o_languageId o2) (truthyOr (o_languageId o1) (languageId c))
  /\ theme c' = truthyOr (o_theme o2) (truthyOr (o_theme o1) (theme c))
  /\ modifiedCode c' = truthyOrOption (o_modifiedCode o2) (modifiedCode c)
  /\ modifiedLanguageId c'
     = truthyOrOption (o_modifiedLanguageId o2) (modifiedLanguageId c)
  /\ MonacoWrapper.monacoEditorOptions (config (state out)) = Some o1
  /\ MonacoWrapper.monacoDiffEditorOptions (config (state out)) = Some o2.
Proof.
  intros He H1 H2. cbv zeta. rewrite (load_run win w o1 o2 He H1 H2).
  unfold result, trace, state, config, diffOptionsApplied, editorOptionsApplied,
    applied, truthyOr, truthyOrOption.
  cbn [fst snd this on_this].
  split; [done|].
  destruct (truthy (o_code o1)), (truthy (o_languageId o1)), (truthy (o_theme o1)),
    (truthy (o_code o2)), (truthy (o_languageId o2)), (truthy (o_theme o2)),
    (truthy (o_modifiedCode o2)) eqn:M1, (truthy (o_modifiedLanguageId o2)) eqn:M2;
    cbn; repeat split; try reflexivity;
    try (by destruct (o_modifiedCode o2));
    try (by destruct (o_modifiedLanguageId o2)).
Qed.

Lemma diff_options_override_editor_options_witness :
  code (this (state (loadInlineConfig diffPage world0))) = "print(1)"
  /\ theme (this (state (loadInlineConfig diffPage world0))) = "vs-dark"
  /\ modifiedCode (this (state (loadInlineConfig diffPage world0))) = Some "print(2)".
Proof.
  destruct (diff_options_override_editor_options diffPage world0
              plainOptions suffixedOptions)
    as (_ & C & _ & T & M & _); [reflexivity|vm_compute; reflexivity..|].
  rewrite C, T, M. vm_compute. auto.
Defined.

(** ** What the sync leaves alone, and what it settles *)

(** X22: no inline configuration can change the element's id or
    children, its [enableInlineConfig] and [useDiffEditor] properties,
    or its listeners: [loadInlineConfig], the sync with reload and
    the two option setters leave them as they are. *)
Theorem inline_config_keeps_switches win w o :
  sameShell w (state (loadInlineConfig win w))
  /\ sameShell w (state (syncPropertiesAndEditorConfig win true w))
  /\ sameShell w (state (setMonacoEditorOptions o w))
  /\ sameShell w (state (setMonacoDiffEditorOptions o w)).
Proof.
  split; [apply Shell_loadInlineConfig|]. split; [apply sync_shell|].
  split; [apply Shell_setMonacoEditorOptions|apply Shell_setMonacoDiffEditorOptions].
Qed.


(** X23: after a sync the configuration agrees with the properties
    (original code and language, theme, and the modified slots the
    properties give a truthy value for), and a further sync without
    reload changes neither the properties nor these slots. *)
Theorem sync_settles win reloadInlineConfig w :
  let w1 := state (syncPropertiesAndEditorConfig win reloadInlineConfig w) in
  let w2 := state (syncPropertiesAndEditorConfig win false w1) in
  inSync w1
  /\ properties (this w2) = properties (this w1)
  /\ MonacoWrapper.codeOriginal (config w2) = MonacoWrapper.codeOriginal (config w1)
  /\ MonacoWrapper.codeModified (config w2) = MonacoWrapper.codeModified (config w1)
  /\ MonacoWrapper.theme (config w2) = MonacoWrapper.theme (config w1).
Proof.
  cbv zeta.
  assert (exists w0, state (syncPropertiesAndEditorConfig win reloadInlineConfig w)
                     = synced w0) as [w0 ->].
  { destruct reloadInlineConfig; [rewrite sync_true|rewrite sync_false]; eauto. }
  split; [apply synced_inSync|]. rewrite sync_false. cbn [state fst snd].
  unfold synced, writeThrough, config, properties. cbn.
  destruct (truthy (modifiedCode (this w0))) eqn:H1;
    destruct (truthy (modifiedLanguageId (this w0))) eqn:H2; cbn;
    rewrite ?H1, ?H2; cbn; rewrite <- ?surjective_pairing; done.
Qed.




(** ** swapEditors, updateEditor and the first render *)

(** X25: [swapEditors(useDiffEditor, reload)] stores the flag in the
    property, syncs, and only then calls the wrapper; the sync hands
    exactly this flag to [setUseDiffEditor], once, whatever the inline
    configuration loads. *)
Theorem swap_passes_flag win (wrapperSwapEditors : M unit) b reloadInlineConfig w :
  let out := syncPropertiesAndEditorConfig win reloadInlineConfig
               (on_this (set_useDiffEditor (Some b)) w) in
  swapEditors win wrapperSwapEditors b reloadInlineConfig w
  = (let '(r, s, ev) := wrapperSwapEditors (state out) in (r, s, trace out ++ ev))
  /\ useDiffEditor (this (state out)) = Some b
  /\ List.filter isSetUseDiffEditor (trace out) = [EvSetUseDiffEditor b].
Proof.
  cbv zeta. set (w0 := on_this (set_useDiffEditor (Some b)) w).
  assert (exists s ev,
            syncPropertiesAndEditorConfig win reloadInlineConfig w0 = (Normal tt, s, ev)
            /\ useDiffEditor (this s) = Some b
            /\ List.filter isSetUseDiffEditor ev = [EvSetUseDiffEditor b])
    as (s & ev & Hs & Hu & Hev).
  { destruct reloadInlineConfig.
    - rewrite sync_true. cbv zeta. do 2 eexists. split; [reflexivity|].
      destruct (Shell_loadInlineConfig win w0) as [_ (_ & _ & _ & Hd & _)].
      cbn in Hd. rewrite List.filter_app, (Silent_loadInlineConfig _ win) by done.
      cbn. rewrite Hd. by destruct b.
    - rewrite sync_false. do 2 eexists. split; [reflexivity|]. by destruct b. }
  rewrite Hs. cbn [state trace fst snd]. split; [|done].
  unfold swapEditors. rewrite (bind_run (update (set_useDiffEditor (Some b))) _ w tt w0 [] eq_refl).
  rewrite (bind_run _ _ _ _ _ _ Hs).
  by destruct (wrapperSwapEditors s) as [[r s'] ev'].
Qed.


(** X26: [updateEditor(reload)] calls the wrapper after the sync, in a
    world where the configuration agrees with the properties, and with
    the element's switches untouched. *)
Theorem update_editor_follows_sync win (wrapperUpdateEditor : M unit)
    reloadInlineConfig w :
  let out := syncPropertiesAndEditorConfig win reloadInlineConfig w in
  updateEditor win wrapperUpdateEditor reloadInlineConfig w
  = (let '(r, s, ev) := wrapperUpdateEditor (state out) in (r, s, trace out ++ ev))
  /\ inSync (state out)
  /\ sameShell w (state out).
Proof.
  cbv zeta. split; [|split; [apply sync_inSync|apply sync_shell]].
  unfold updateEditor.
  assert (exists s ev,
            syncPropertiesAndEditorConfig win reloadInlineConfig w = (Normal tt, s, ev))
    as (s & ev & Hs).
  { destruct reloadInlineConfig; [rewrite sync_true|rewrite sync_false]; eauto. }
  rewrite (bind_run _ _ _ _ _ _ Hs), Hs. cbn [state trace fst snd].
  by destruct (wrapperUpdateEditor s) as [[r s'] ev'].
Qed.


(** X27: [firstUpdated()] loads the inline configuration, hands the
    diff flag to the wrapper, starts the editor once and registers one
    colour-scheme listener, in this order; the properties are those
    the inline configuration left. *)
Theorem first_render_starts_once win w :
  let out := firstUpdated win w in
  let loaded := state (loadInlineConfig win w) in
  result out = Normal tt
  /\ trace out
     = trace (loadInlineConfig win w)
       ++ [EvSetUseDiffEditor (truthyb (useDiffEditor (this w)));
           EvStartEditor (nextObject w); EvAddListener]
  /\ schemeListeners (state out) = S (schemeListeners w)
  /\ nextObject (state out) = S (nextObject w)
  /\ properties (this (state out)) = properties (this loaded).
Proof.
  cbv zeta. unfold firstUpdated, startEditor.
  rewrite (bind_run _ _ _ _ _ _ (sync_true win w)). cbv zeta.
  destruct (Shell_loadInlineConfig win w) as [_ (_ & _ & _ & Hd & Hl & Hn)].
  set (w1 := state (loadInlineConfig win w)) in *.
  unfold registerListeners. run. rewrite Hd, Hl, Hn, <- app_assoc. done.
Qed.


End CompExtra.
